(** * docs/hooks.py: the static asset publisher of the documentation build

    The hook copies the directories [build] and [demos] of the working
    directory into [<site_dir>/dist] and [<site_dir>/demos].  The three
    functions of [hooks.py] are embedded over an executable model of the
    POSIX file system and of the parts of the Python standard library they
    call ([os.path.join], [os.makedirs], [os.listdir], [os.path.isdir],
    [shutil.copytree], [shutil.copy2]).

    Layers, bottom up:
    - [Path]: the string functions of [posixpath];
    - [Tree]: directory trees and canonical paths;
    - [Kernel]: path resolution and the system calls;
    - [PyLib]: [os] and [shutil], following CPython 3.11;
    - [Hooks]: [copy_static_files], [copy_directory], [copy_tree]. *)

From Stdlib Require Import String Ascii List ZArith Lia Bool.
From Stdlib.Init Require Import Byte.
From stdpp Require Import base gmap strings list.
Import ListNotations.

Set Default Goal Selector "!".
Set Warnings "-register-all".

(** ** Results and exceptions *)

Inductive result (E A : Type) : Type :=
| Ok (a : A)
| Raise (e : E).
Arguments Ok {E A} a.
Arguments Raise {E A} e.

(** The error numbers the model can produce. *)
Inductive errno := ENOENT | EEXIST | ENOTDIR | EISDIR | ELOOP | EINVAL.

(** Python exceptions.  [OSError e f] stands for the subclass CPython picks
    from the error number: [FileNotFoundError] for [ENOENT],
    [FileExistsError] for [EEXIST], [NotADirectoryError] for [ENOTDIR],
    [IsADirectoryError] for [EISDIR]; [f] is its [filename].
    [ShutilError] is [shutil.Error]: the list of (source, destination,
    reason) that [shutil.copytree] collects. *)
Inductive exn :=
| OSError (e : errno) (filename : string)
| SameFileError (src dst : string)
| ShutilError (errors : list (string * string * errno))
| KeyError (key : string)
| TypeError
| RecursionError.

Definition FileNotFoundError := OSError ENOENT.
Definition FileExistsError := OSError EEXIST.
Definition NotADirectoryError := OSError ENOTDIR.
Definition IsADirectoryError := OSError EISDIR.

(** ** posixpath *)

Module Path.

Definition is_sep (c : ascii) : bool := Ascii.eqb c "/"%char.

Definition startswith_sep (p : string) : bool :=
  match p with
  | String c _ => is_sep c
  | EmptyString => false
  end.

Fixpoint endswith_sep (p : string) : bool :=
  match p with
  | EmptyString => false
  | String c p' =>
      match p' with
      | EmptyString => is_sep c
      | String _ _ => endswith_sep p'
      end
  end.

Definition is_empty (p : string) : bool :=
  match p with EmptyString => true | String _ _ => false end.

(** [posixpath.join(a, b)]. *)
Definition join (a b : string) : string :=
  if startswith_sep b then b
  else if is_empty a || endswith_sep a then a +:+ b
  else a +:+ "/" +:+ b.

Fixpoint has_sep (p : string) : bool :=
  match p with
  | EmptyString => false
  | String c p' => is_sep c || has_sep p'
  end.

(** [(p[:i], p[i:])] for [i = p.rfind('/') + 1]. *)
Fixpoint cut (p : string) : string * string :=
  match p with
  | EmptyString => (EmptyString, EmptyString)
  | String c p' =>
      if has_sep p' then (String c (cut p').1, (cut p').2)
      else if is_sep c then (String c EmptyString, p')
      else (EmptyString, String c p')
  end.

(** [p.rstrip('/')]. *)
Fixpoint rstrip_sep (p : string) : string :=
  match p with
  | EmptyString => EmptyString
  | String c p' =>
      if is_sep c && is_empty (rstrip_sep p') then EmptyString
      else String c (rstrip_sep p')
  end.

(** [posixpath.split(p)]: the head loses its trailing slashes unless it
    consists of slashes only. *)
Definition split (p : string) : string * string :=
  let head := (cut p).1 in
  let tail := (cut p).2 in
  (if is_empty (rstrip_sep head) then head else rstrip_sep head, tail).

(** [posixpath.basename(p)]. *)
Definition basename (p : string) : string := (cut p).2.

(** [p.split('/')]. *)
Fixpoint fields (p : string) : list string :=
  match p with
  | EmptyString => [EmptyString]
  | String c p' =>
      if is_sep c then EmptyString :: fields p'
      else match fields p' with
           | f :: fs => String c f :: fs
           | [] => [String c EmptyString]
           end
  end.

(** The path components the kernel walks: empty fields (doubled, leading
    and trailing slashes) carry no meaning. *)
Definition components (p : string) : list string :=
  List.filter (fun f => negb (is_empty f)) (fields p).

End Path.

(** ** Directory trees *)

(** What [shutil.copystat] transfers for a regular file. *)
Record meta := { st_mode : N; st_mtime : Z }.

(** A directory keeps its entries in listing order.  The metadata of
    directories (which the kernel itself updates whenever an entry is added)
    is outside the model. *)
Inductive node :=
| File (data : list byte) (m : meta)
| Dir (entries : list (string * node))
| Link (target : string).

Module Tree.

Fixpoint entry (k : string) (es : list (string * node)) : option node :=
  match es with
  | [] => None
  | (k', n) :: es' => if String.eqb k k' then Some n else entry k es'
  end.

(** Replaces the entry [k] where it stands; a new entry goes to the end. *)
Fixpoint set_entry (k : string) (x : node) (es : list (string * node))
  : list (string * node) :=
  match es with
  | [] => [(k, x)]
  | (k', n) :: es' =>
      if String.eqb k k' then (k, x) :: es' else (k', n) :: set_entry k x es'
  end.

(** The node at a canonical path (no [.], no [..], no link followed). *)
Fixpoint get (n : node) (p : list string) : option node :=
  match p with
  | [] => Some n
  | c :: p' =>
      match n with
      | Dir es =>
          match entry c es with
          | Some n' => get n' p'
          | None => None
          end
      | _ => None
      end
  end.

(** Stores [x] at the canonical path [p], whose parent must be a directory;
    otherwise the tree is left as it is. *)
Fixpoint put (n : node) (p : list string) (x : node) : node :=
  match p with
  | [] => x
  | c :: p' =>
      match n with
      | Dir es =>
          match entry c es with
          | Some n' => Dir (set_entry c (put n' p' x) es)
          | None =>
              match p' with
              | [] => Dir (set_entry c x es)
              | _ :: _ => n
              end
          end
      | _ => n
      end
  end.

End Tree.

(** ** The kernel: path resolution and system calls *)

Record fs := { root : node; cwd : list string }.

Definition with_root (w : fs) (r : node) : fs := {| root := r; cwd := cwd w |}.

Module Kernel.

(** Where a path leads: to an existing node, or to a name that is free in an
    existing directory. *)
Inductive found :=
| Present (p : list string) (n : node)
| Absent (p : list string).

(** Linux gives up with [ELOOP] after 40 symbolic links in one resolution. *)
Definition MAXSYMLINKS : nat := 40.

(** Walks the components [cs] from the directory [cur].  [follow] tells
    whether a link in final position is followed; links in the middle always
    are.  An empty link target does not resolve. *)
Fixpoint walk (links : nat) (r : node) (follow : bool) {struct links}
  : list string -> list string -> result errno found :=
  fix go (cur cs : list string) {struct cs} : result errno found :=
    match cs with
    | [] =>
        match Tree.get r cur with
        | Some n => Ok (Present cur n)
        | None => Raise ENOENT
        end
    | c :: rest =>
        if String.eqb c "." then go cur rest
        else if String.eqb c ".." then go (removelast cur) rest
        else
          match Tree.get r (cur ++ [c]) with
          | None =>
              match rest with
              | [] => Ok (Absent (cur ++ [c]))
              | _ :: _ => Raise ENOENT
              end
          | Some (Dir _) => go (cur ++ [c]) rest
          | Some (File d m) =>
              match rest with
              | [] => Ok (Present (cur ++ [c]) (File d m))
              | _ :: _ => Raise ENOTDIR
              end
          | Some (Link t) =>
              match rest, follow with
              | [], false => Ok (Present (cur ++ [c]) (Link t))
              | _, _ =>
                  match links with
                  | O => Raise ELOOP
                  | S links' =>
                      if Path.is_empty t then Raise ENOENT
                      else walk links' r follow
                             (if Path.startswith_sep t then [] else cur)
                             (Path.components t ++ rest)
                  end
              end
          end
    end.

(** Resolution of a path string: absolute paths start at the root, the
    others at the working directory; the empty path does not resolve.  A
    separator at the end of the path is dropped with the empty component
    after it, so such a path may lead to a regular file here, where the
    kernel answers [ENOTDIR]. *)
Definition resolve (w : fs) (follow : bool) (path : string)
  : result errno found :=
  if Path.is_empty path then Raise ENOENT
  else walk MAXSYMLINKS (root w) follow
         (if Path.startswith_sep path then [] else cwd w)
         (Path.components path).

(** [stat(2)]. *)
Definition stat (w : fs) (path : string) : result errno (list string * node) :=
  match resolve w true path with
  | Ok (Present p n) => Ok (p, n)
  | Ok (Absent _) => Raise ENOENT
  | Raise e => Raise e
  end.

(** [mkdir(2)]: the name must be free, a dangling link included. *)
Definition mkdir (w : fs) (path : string) : result errno fs :=
  match resolve w false path with
  | Ok (Present _ _) => Raise EEXIST
  | Ok (Absent p) => Ok (with_root w (Tree.put (root w) p (Dir [])))
  | Raise e => Raise e
  end.

(** [readlink(2)]. *)
Definition readlink (w : fs) (path : string) : result errno string :=
  match resolve w false path with
  | Ok (Present _ (Link t)) => Ok t
  | Ok (Present _ _) => Raise EINVAL
  | Ok (Absent _) => Raise ENOENT
  | Raise e => Raise e
  end.

(** [symlink(2)]. *)
Definition symlink (w : fs) (target path : string) : result errno fs :=
  match resolve w false path with
  | Ok (Present _ _) => Raise EEXIST
  | Ok (Absent p) => Ok (with_root w (Tree.put (root w) p (Link target)))
  | Raise e => Raise e
  end.

Inductive kind := KFile | KDir | KLink.

Definition kind_of (n : node) : kind :=
  match n with
  | File _ _ => KFile
  | Dir _ => KDir
  | Link _ => KLink
  end.

(** [opendir] and [readdir] to the end: names and entry types, in listing
    order, without [.] and [..]. *)
Definition scandir (w : fs) (path : string)
  : result errno (list (string * kind)) :=
  match resolve w true path with
  | Ok (Present _ (Dir es)) => Ok (map (fun e => (e.1, kind_of e.2)) es)
  | Ok (Present _ _) => Raise ENOTDIR
  | Ok (Absent _) => Raise ENOENT
  | Raise e => Raise e
  end.

(** [open(path, O_RDONLY)], reading to the end, and [fstat]. *)
Definition read (w : fs) (path : string) : result errno (list byte * meta) :=
  match resolve w true path with
  | Ok (Present _ (File d m)) => Ok (d, m)
  | Ok (Present _ (Dir _)) => Raise EISDIR
  | Ok (Present _ (Link _)) => Raise ELOOP
  | Ok (Absent _) => Raise ENOENT
  | Raise e => Raise e
  end.

(** [open(path, O_WRONLY|O_CREAT|O_TRUNC)], writing [d], then [utime] and
    [chmod] to [m]: a file is created or overwritten, through a link in final
    position. *)
Definition store (w : fs) (path : string) (d : list byte) (m : meta)
  : result errno fs :=
  match resolve w true path with
  | Ok (Present p (File _ _)) => Ok (with_root w (Tree.put (root w) p (File d m)))
  | Ok (Present _ (Dir _)) => Raise EISDIR
  | Ok (Present _ (Link _)) => Raise ELOOP
  | Ok (Absent p) => Ok (with_root w (Tree.put (root w) p (File d m)))
  | Raise e => Raise e
  end.

End Kernel.

(** ** The state and exception monad

    A Python call either returns or raises; what it wrote before raising
    stays written. *)

Definition M (S A : Type) : Type := S -> result exn A * S.

Definition ret {S A : Type} (a : A) : M S A := fun s => (Ok a, s).

Definition raise {S A : Type} (e : exn) : M S A := fun s => (Raise e, s).

Definition bind {S A B : Type} (c : M S A) (k : A -> M S B) : M S B :=
  fun s =>
    match c s with
    | (Ok a, s') => k a s'
    | (Raise e, s') => (Raise e, s')
    end.

Notation "'let*' x ':=' c 'in' k" := (bind c (fun x => k))
  (at level 10, x name, c at level 100, k at level 200).

(** [for x in l: body(x)]. *)
Fixpoint for_each {S A : Type} (l : list A) (body : A -> M S unit) : M S unit :=
  match l with
  | [] => ret tt
  | x :: l' => let* _ := body x in for_each l' body
  end.

(** ** os and shutil *)

(** The [ignore] callable of [shutil.copytree]: from the directory and the
    names in it to the names to leave out. *)
Definition ignore_fn : Type := string -> list string -> list string.

Module PyLib.

Fixpoint path_eqb (p q : list string) : bool :=
  match p, q with
  | [], [] => true
  | c :: p', d :: q' => String.eqb c d && path_eqb p' q'
  | _, _ => false
  end.

(** [os.path.exists]. *)
Definition exists_ (w : fs) (path : string) : bool :=
  match Kernel.stat w path with
  | Ok _ => true
  | Raise _ => false
  end.

(** [os.path.isdir]. *)
Definition isdir (w : fs) (path : string) : bool :=
  match Kernel.stat w path with
  | Ok (_, Dir _) => true
  | _ => false
  end.

(** [shutil._samefile]: both paths lead to one node; [False] when either
    fails to resolve.  There are no hard links in the model, so one node has
    one canonical path. *)
Definition samefile (w : fs) (f1 f2 : string) : bool :=
  match Kernel.stat w f1, Kernel.stat w f2 with
  | Ok (p1, _), Ok (p2, _) => path_eqb p1 p2
  | _, _ => false
  end.

(** [os.listdir]. *)
Definition listdir (path : string) : M fs (list string) :=
  fun w =>
    match Kernel.scandir w path with
    | Ok es => (Ok (map fst es), w)
    | Raise e => (Raise (OSError e path), w)
    end.

(** [os.mkdir]. *)
Definition mkdir (path : string) : M fs unit :=
  fun w =>
    match Kernel.mkdir w path with
    | Ok w' => (Ok tt, w')
    | Raise e => (Raise (OSError e path), w)
    end.

(** The end of [os.makedirs]: [mkdir(name)], where an [OSError] is let
    through unless [exist_ok] is set and [name] is a directory. *)
Definition mkdir_leaf (name : string) (exist_ok : bool) : M fs unit :=
  fun w =>
    match mkdir name w with
    | (Ok _, w') => (Ok tt, w')
    | (Raise e, w') =>
        if negb exist_ok || negb (isdir w' name) then (Raise e, w')
        else (Ok tt, w')
    end.

(** [os.makedirs(name, exist_ok=...)], by recursion on the head of the path
    as in [os.py]: a [FileExistsError] of the recursive call is passed over,
    and a tail [.] ends the call.  [fuel] bounds the recursion; [makedirs]
    below gives it the length of the path, which the recursion cannot
    exhaust. *)
Fixpoint makedirs_rec (fuel : nat) (name : string) (exist_ok : bool)
  : M fs unit :=
  match fuel with
  | O => raise RecursionError
  | S fuel' =>
      let head := (Path.split name).1 in
      let tail := (Path.split name).2 in
      let head' := if Path.is_empty tail then (Path.split head).1 else head in
      let tail' := if Path.is_empty tail then (Path.split head).2 else tail in
      fun w =>
        if negb (Path.is_empty head') && negb (Path.is_empty tail')
           && negb (exists_ w head')
        then
          match makedirs_rec fuel' head' exist_ok w with
          | (Raise (OSError EEXIST _), w') | (Ok _, w') =>
              if String.eqb tail' "." then (Ok tt, w')
              else mkdir_leaf name exist_ok w'
          | (Raise e, w') => (Raise e, w')
          end
        else mkdir_leaf name exist_ok w
  end.

Definition makedirs (name : string) (exist_ok : bool) : M fs unit :=
  makedirs_rec (S (String.length name)) name exist_ok.

(** [shutil.copy2(src, dst)] with [follow_symlinks=True]: [copyfile] and then
    [copystat].  Nothing can fail between the two, and the state in between
    (new bytes, metadata not yet set) is not observable from [hooks.py], so
    they are one [Kernel.store]. *)
Definition copy2 (src dst : string) : M fs string :=
  fun w =>
    let dst' := if isdir w dst then Path.join dst (Path.basename src) else dst in
    if samefile w src dst' then (Raise (SameFileError src dst'), w)
    else
      match Kernel.read w src with
      | Raise e => (Raise (OSError e src), w)
      | Ok (d, m) =>
          match Kernel.store w dst' d m with
          | Raise e => (Raise (OSError e dst'), w)
          | Ok w' => (Ok dst', w')
          end
      end.

(** [os.readlink] and [os.symlink]. *)
Definition readlink (path : string) : M fs string :=
  fun w =>
    match Kernel.readlink w path with
    | Ok t => (Ok t, w)
    | Raise e => (Raise (OSError e path), w)
    end.

Definition symlink (target path : string) : M fs unit :=
  fun w =>
    match Kernel.symlink w target path with
    | Ok w' => (Ok tt, w')
    | Raise e => (Raise (OSError e path), w)
    end.

(** CPython raises [RecursionError] once the call stack passes
    [sys.getrecursionlimit()], 1000 frames by default.  A level of
    [copytree] takes two frames ([copytree] and [_copytree]), so at most 500
    levels nest. *)
Definition copytree_levels : nat := 500.

(** One iteration of the loop of [_copytree] ends in one of three ways. *)
Definition collect (srcname dstname : string)
    (errors : list (string * string * errno)) (r : result exn string)
  : result exn (list (string * string * errno)) :=
  match r with
  | Ok _ => Ok errors
  | Raise (ShutilError errs) => Ok (errors ++ errs)
  | Raise (SameFileError _ _) => Ok (errors ++ [(srcname, dstname, EINVAL)])
  | Raise (OSError e _) => Ok (errors ++ [(srcname, dstname, e)])
  | Raise e => Raise e
  end.

(** The body of the loop of [_copytree] for one entry.  [rec] is the
    recursive call of [copytree].  The type of an entry is the one the scan
    saw, except that [is_dir()] of a link asks the kernel when it is
    called. *)
Definition copytree_entry (rec : string -> string -> M fs string)
    (symlinks : bool) (srcname dstname : string) (k : Kernel.kind)
  : M fs string :=
  match k with
  | Kernel.KLink =>
      let* linkto := readlink srcname in
      if symlinks then
        let* _ := symlink linkto dstname in ret dstname
      else
        fun w =>
          if isdir w srcname then rec srcname dstname w
          else copy2 srcname dstname w
  | Kernel.KDir => rec srcname dstname
  | Kernel.KFile => copy2 srcname dstname
  end.

(** The loop of [_copytree] over the scanned entries: [shutil.Error] and
    [OSError] of an entry are collected and the loop goes on. *)
Fixpoint copytree_loop (rec : string -> string -> M fs string)
    (src dst : string) (symlinks : bool) (ignored_names : list string)
    (entries : list (string * Kernel.kind))
    (errors : list (string * string * errno))
  : M fs (list (string * string * errno)) :=
  match entries with
  | [] => ret errors
  | (name, k) :: entries' =>
      if existsb (String.eqb name) ignored_names
      then copytree_loop rec src dst symlinks ignored_names entries' errors
      else
        let srcname := Path.join src name in
        let dstname := Path.join dst name in
        fun w =>
          match copytree_entry rec symlinks srcname dstname k w with
          | (r, w') =>
              match collect srcname dstname errors r with
              | Ok errors' =>
                  copytree_loop rec src dst symlinks ignored_names
                    entries' errors' w'
              | Raise e => (Raise e, w')
              end
          end
  end.

(** [shutil.copytree(src, dst, symlinks, ignore)] with the defaults
    [copy_function=copy2], [ignore_dangling_symlinks=False] and
    [dirs_exist_ok=False].  The entries are scanned before the destination is
    made; the collected errors are raised together at the end.  The
    [copystat] of the directory itself has no effect in the model. *)
Fixpoint copytree_rec (levels : nat) (src dst : string) (symlinks : bool)
    (ignore : option ignore_fn) {struct levels} : M fs string :=
  match levels with
  | O => raise RecursionError
  | S levels' =>
      let* entries :=
        (fun w =>
           match Kernel.scandir w src with
           | Ok es => (Ok es, w)
           | Raise e => (Raise (OSError e src), w)
           end) in
      let ignored_names :=
        match ignore with
        | Some f => f src (map fst entries)
        | None => []
        end in
      let* _ := makedirs dst false in
      let* errors :=
        copytree_loop
          (fun s d => copytree_rec levels' s d symlinks ignore)
          src dst symlinks ignored_names entries [] in
      match errors with
      | [] => ret dst
      | _ :: _ => raise (ShutilError errors)
      end
  end.

Definition copytree (src dst : string) (symlinks : bool)
    (ignore : option ignore_fn) : M fs string :=
  copytree_rec copytree_levels src dst symlinks ignore.

End PyLib.

(** ** The library calls of hooks.py, with a ghost log

    A world is the file system together with the list of the library calls
    [hooks.py] has made so far, oldest first, each with what it returned or
    raised.  The log is ghost state: nothing reads it; it lets the order of
    the calls be stated. *)

Inductive call :=
| Makedirs (name : string) (exist_ok : bool)
| Listdir (path : string)
| Isdir (path : string)
| Copytree (src dst : string) (symlinks : bool) (ignore : option ignore_fn)
| Copy2 (src dst : string).

Inductive retval :=
| RNone
| RBool (b : bool)
| RStr (s : string)
| RList (l : list string).

Inductive outcome :=
| Returned (v : retval)
| Raised (e : exn).

Definition event : Type := call * outcome.

Record world := { files : fs; log : list event }.

Definition outcome_of {A : Type} (inj : A -> retval) (r : result exn A)
  : outcome :=
  match r with
  | Ok a => Returned (inj a)
  | Raise e => Raised e
  end.

(** Runs a library function on the file system and logs the call. *)
Definition invoke {A : Type} (c : call) (inj : A -> retval) (f : M fs A)
  : M world A :=
  fun w =>
    match f (files w) with
    | (r, s) => (r, {| files := s; log := log w ++ [(c, outcome_of inj r)] |})
    end.

(** What a logged call does to the file system. *)
Definition run (c : call) : M fs retval :=
  match c with
  | Makedirs name exist_ok =>
      let* _ := PyLib.makedirs name exist_ok in ret RNone
  | Listdir path => let* l := PyLib.listdir path in ret (RList l)
  | Isdir path => fun s => (Ok (RBool (PyLib.isdir s path)), s)
  | Copytree src dst symlinks ignore =>
      let* d := PyLib.copytree src dst symlinks ignore in ret (RStr d)
  | Copy2 src dst => let* d := PyLib.copy2 src dst in ret (RStr d)
  end.

(** [replay s l s']: the calls of [l], made one after the other from [s],
    have the outcomes [l] records and leave [s']. *)
Inductive replay : fs -> list event -> fs -> Prop :=
| replay_nil s : replay s [] s
| replay_cons s c r s' l s'' :
    run c s = (r, s') ->
    replay s' l s'' ->
    replay s ((c, outcome_of id r) :: l) s''.

(** Python values a configuration can hold. *)
Inductive pyval :=
| PStr (s : string)
| PInt (z : Z)
| PBool (b : bool)
| PNone.

Module Hooks.

(** [os.path.join(a, b)] where [a] comes from the configuration: a value
    that is no string is a [TypeError]. *)
Definition os_path_join_val (a : pyval) (b : string) : M world string :=
  match a with
  | PStr s => ret (Path.join s b)
  | _ => raise TypeError
  end.

Definition os_path_join (a b : string) : string := Path.join a b.

Definition os_makedirs (name : string) (exist_ok : bool) : M world unit :=
  invoke (Makedirs name exist_ok) (fun _ => RNone)
         (PyLib.makedirs name exist_ok).

Definition os_listdir (path : string) : M world (list string) :=
  invoke (Listdir path) RList (PyLib.listdir path).

Definition os_path_isdir (path : string) : M world bool :=
  invoke (Isdir path) RBool (fun s => (Ok (PyLib.isdir s path), s)).

Definition shutil_copytree (src dst : string) (symlinks : bool)
    (ignore : option ignore_fn) : M world string :=
  invoke (Copytree src dst symlinks ignore) RStr
         (PyLib.copytree src dst symlinks ignore).

Definition shutil_copy2 (src dst : string) : M world string :=
  invoke (Copy2 src dst) RStr (PyLib.copy2 src dst).

(** [config['site_dir']]. *)
Definition getitem (config : gmap string pyval) (key : string) : M world pyval :=
  match config !! key with
  | Some v => ret v
  | None => raise (KeyError key)
  end.

(** [def copy_tree(src, dst, symlinks=False, ignore=None)]. *)
Definition copy_tree (src dst : string) (symlinks : bool)
    (ignore : option ignore_fn) : M world unit :=
  let* items := os_listdir src in
  for_each items (fun item =>
    let s := os_path_join src item in
    let d := os_path_join dst item in
    let* is_dir := os_path_isdir s in
    if is_dir then
      let* _ := shutil_copytree s d symlinks ignore in ret tt
    else
      let* _ := shutil_copy2 s d in ret tt).

(** [def copy_directory(dir_path, site_dir)].  The call of [copy_tree]
    passes two arguments; [symlinks] and [ignore] take the defaults of its
    signature. *)
Definition copy_directory (dir_path : string) (site_dir : pyval) : M world unit :=
  let* d := os_path_join_val site_dir dir_path in
  let* _ := os_makedirs d true in
  let s := if negb (String.eqb dir_path "dist") then dir_path else "build" in
  copy_tree s d false None.

(** [def copy_static_files(config, **kwargs)]. *)
Definition copy_static_files (config : gmap string pyval)
    (kwargs : gmap string pyval) : M world unit :=
  let* site_dir := getitem config "site_dir" in
  let* _ := copy_directory "dist" site_dir in
  copy_directory "demos" site_dir.

End Hooks.

(** ** The shape of the logs *)

Section Shapes.

Import Hooks.

(** The events of the loop of [copy_tree] over [items], and the result the
    loop ends with: an [isdir] test and then the copy it selects, item by
    item, up to the first copy that raises. *)
Inductive loop_log (src dst : string) (symlinks : bool)
    (ignore : option ignore_fn)
  : list string -> list event -> result exn unit -> Prop :=
| loop_end : loop_log src dst symlinks ignore [] [] (Ok tt)
| loop_dir item items d' l r :
    loop_log src dst symlinks ignore items l r ->
    loop_log src dst symlinks ignore (item :: items)
      ((Isdir (os_path_join src item), Returned (RBool true))
       :: (Copytree (os_path_join src item) (os_path_join dst item)
             symlinks ignore, Returned (RStr d')) :: l) r
| loop_dir_raise item items e :
    loop_log src dst symlinks ignore (item :: items)
      [(Isdir (os_path_join src item), Returned (RBool true));
       (Copytree (os_path_join src item) (os_path_join dst item)
          symlinks ignore, Raised e)] (Raise e)
| loop_file item items d' l r :
    loop_log src dst symlinks ignore items l r ->
    loop_log src dst symlinks ignore (item :: items)
      ((Isdir (os_path_join src item), Returned (RBool false))
       :: (Copy2 (os_path_join src item) (os_path_join dst item),
           Returned (RStr d')) :: l) r
| loop_file_raise item items e :
    loop_log src dst symlinks ignore (item :: items)
      [(Isdir (os_path_join src item), Returned (RBool false));
       (Copy2 (os_path_join src item) (os_path_join dst item), Raised e)]
      (Raise e).

(** The events of one [copy_tree]: one listing, then the loop over the
    items it returned. *)
Inductive tree_log (src dst : string) (symlinks : bool)
    (ignore : option ignore_fn) : list event -> result exn unit -> Prop :=
| tree_listdir_raise e :
    tree_log src dst symlinks ignore [(Listdir src, Raised e)] (Raise e)
| tree_listed items l r :
    loop_log src dst symlinks ignore items l r ->
    tree_log src dst symlinks ignore
      ((Listdir src, Returned (RList items)) :: l) r.

(** The source directory [copy_directory] reads for a logical name. *)
Definition source_of (dir_path : string) : string :=
  if negb (String.eqb dir_path "dist") then dir_path else "build".

(** The events of one [copy_directory] for a site directory [sd]. *)
Inductive dir_log (dir_path sd : string) : list event -> result exn unit -> Prop :=
| dir_makedirs_raise e :
    dir_log dir_path sd
      [(Makedirs (Path.join sd dir_path) true, Raised e)] (Raise e)
| dir_made l r :
    tree_log (source_of dir_path) (Path.join sd dir_path) false None l r ->
    dir_log dir_path sd
      ((Makedirs (Path.join sd dir_path) true, Returned RNone) :: l) r.

(** The events of [copy_static_files]. *)
Inductive hook_log (sd : string) : list event -> result exn unit -> Prop :=
| hook_dist_raise l e :
    dir_log "dist" sd l (Raise e) ->
    hook_log sd l (Raise e)
| hook_both l1 l2 r :
    dir_log "dist" sd l1 (Ok tt) ->
    dir_log "demos" sd l2 r ->
    hook_log sd (l1 ++ l2) r.

End Shapes.

(** ** Notions for the properties *)

(** Two observations of one canonical path agree in what a path resolution
    can see of them: absence, a directory, a file with its content, a link
    with its target. *)
Definition same_kind (o o' : option node) : Prop :=
  match o, o' with
  | None, None => True
  | Some (Dir _), Some (Dir _) => True
  | Some (File d m), Some (File d' m') => d = d' /\ m = m'
  | Some (Link t), Some (Link t') => t = t'
  | _, _ => False
  end.

(** [r] and [r'] agree everywhere but at [p]. *)
Definition agree_except (p : list string) (r r' : node) : Prop :=
  forall q, q <> p -> same_kind (Tree.get r q) (Tree.get r' q).

(** What a single system call of the model creates: a file or an empty
    directory. *)
Definition fresh_leaf (x : node) : Prop :=
  match x with
  | File _ _ => True
  | Dir [] => True
  | _ => False
  end.

(** The place a system call writes to: a free name or a regular file. *)
Definition writable (r : node) (p : list string) : Prop :=
  Tree.get r p = None \/ exists d m, Tree.get r p = Some (File d m).

(** How the result of a resolution changes when [x] appears at [p] and the
    rest of the tree keeps its kinds. *)
Definition sim_found (p : list string) (x : node)
    (res res' : Kernel.found) : Prop :=
  match res with
  | Kernel.Present q n =>
      (q = p /\ res' = Kernel.Present p x) \/
      (q <> p /\ exists n', res' = Kernel.Present q n' /\
                            same_kind (Some n) (Some n'))
  | Kernel.Absent q =>
      (q = p /\ res' = Kernel.Present p x) \/
      (q <> p /\ res' = Kernel.Absent q)
  end.

(** A name as a directory entry bears it: not empty, without a slash, and
    neither [.] nor [..]. *)
Definition plain_name (b : string) : bool :=
  negb (Path.is_empty b) && negb (Path.has_sep b)
  && negb (String.eqb b ".") && negb (String.eqb b "..").

(** The working directory exists (and with it every directory above). *)
Definition wf (w : fs) : Prop :=
  exists es, Tree.get (root w) (cwd w) = Some (Dir es).

(** [logged w l w']: from [w] to [w'] the log grew by [l], and [l] replayed
    on the file system of [w] gives the file system of [w']. *)
Definition logged (w : world) (l : list event) (w' : world) : Prop :=
  log w' = log w ++ l /\ replay (files w) l (files w').

(** The calls of the copy job that reads [src] and writes the directory
    [name] of the site directory [sd]. *)
Definition job_call (name src sd : string) (c : call) : Prop :=
  c = Makedirs (Path.join sd name) true \/
  c = Listdir src \/
  exists item,
    c = Isdir (Path.join src item) \/
    c = Copytree (Path.join src item)
          (Path.join (Path.join sd name) item) false None \/
    c = Copy2 (Path.join src item) (Path.join (Path.join sd name) item).

(** The working directory has no entry [name]. *)
Definition missing (w : fs) (name : string) : Prop :=
  Tree.get (root w) (cwd w ++ [name]) = None.

Definition is_copy (c : call) : Prop :=
  match c with
  | Copytree _ _ _ _ | Copy2 _ _ => True
  | _ => False
  end.

Definition is_copytree (c : call) : Prop :=
  match c with
  | Copytree _ _ _ _ => True
  | _ => False
  end.

Definition is_listdir (c : call) : Prop :=
  match c with
  | Listdir _ => True
  | _ => False
  end.

Definition returned (ev : event) : Prop :=
  match ev.2 with
  | Returned _ => True
  | Raised _ => False
  end.

(** Entry names are plain everywhere in the tree, as a file system has
    them. *)
Definition names_ok (r : node) : Prop :=
  forall q c n, Tree.get r (q ++ [c]) = Some n -> plain_name c = true.

(** No symbolic link at or below [D]. *)
Definition link_free_below (D : list string) (r : node) : Prop :=
  forall q t, D `prefix_of` q -> Tree.get r q <> Some (Link t).

(** [r'] is [r] at every path that is neither at or below [D] nor above
    it. *)
Definition outside (D : list string) (r r' : node) : Prop :=
  forall q,
    ~ D `prefix_of` q -> ~ q `prefix_of` D -> Tree.get r' q = Tree.get r q.

(** Paths that led to a directory lead to a directory at the same place. *)
Definition keeps_dirs (w w' : fs) : Prop :=
  forall path q es,
    Kernel.resolve w true path = Ok (Kernel.Present q (Dir es)) ->
    exists es', Kernel.resolve w' true path = Ok (Kernel.Present q (Dir es')).

(** What the copies into the destination [D] rely on and maintain. *)
Definition tidy (D : list string) (w : fs) : Prop :=
  wf w /\ names_ok (root w) /\ link_free_below D (root w).

(** [w'] comes from [w] by writing at or below [D] only. *)
Definition grows (D : list string) (w w' : fs) : Prop :=
  tidy D w' /\ outside D (root w) (root w') /\ keeps_dirs w w'.

(** [w'] has no symbolic link that [w] did not have at the same place. *)
Definition no_new_links (w w' : fs) : Prop :=
  wf w' /\
  forall q t, Tree.get (root w') q = Some (Link t) ->
              Tree.get (root w) q = Some (Link t).

(** A subtree as [shutil.copytree] reproduces it node for node: distinct
    plain names, no symbolic link. *)
Fixpoint clean (n : node) : Prop :=
  match n with
  | File _ _ => True
  | Link _ => False
  | Dir es =>
      (fix all (l : list (string * node)) : Prop :=
         match l with
         | [] => True
         | (c, x) :: l' =>
             plain_name c = true /\ Tree.entry c l' = None /\
             clean x /\ all l'
         end) es
  end.

(** The number of directory levels of a tree. *)
Fixpoint height (n : node) : nat :=
  match n with
  | Dir es =>
      S ((fix most (l : list (string * node)) : nat :=
            match l with
            | [] => 0
            | (_, x) :: l' => Nat.max (height x) (most l')
            end) es)
  | _ => 0
  end.

(** A node and what stands at its place later: a directory stays a
    directory, a regular file a regular file, a link the same link. *)
Definition kept (n n' : node) : Prop :=
  match n, n' with
  | File _ _, File _ _ => True
  | Dir _, Dir _ => True
  | Link t, Link t' => t = t'
  | _, _ => False
  end.

(** Everything [w] holds is still there in [w']. *)
Definition nothing_lost (w w' : fs) : Prop :=
  wf w' /\
  forall p n, Tree.get (root w) p = Some n ->
              exists n', Tree.get (root w') p = Some n' /\ kept n n'.

(** Every path that led to a directory still leads to one, at the same
    place. *)
Definition dirs_kept (w w' : fs) : Prop := wf w' /\ keeps_dirs w w'.

(** Further worlds: a site whose [dist] is a regular file, a site directory
    that is a regular file, and a project whose [build] holds files only. *)
Module Cases.

Definition dist_is_file (d : list byte) (m : meta) : world :=
  {| files :=
       {| root :=
            Dir [("proj", Dir [("build", Dir []); ("demos", Dir [])]);
                 ("out", Dir [("dist", File d m)])];
          cwd := ["proj"] |};
     log := [] |}.

Definition site_is_file (d : list byte) (m : meta) : world :=
  {| files :=
       {| root :=
            Dir [("proj", Dir [("build", Dir []); ("demos", Dir [])]);
                 ("out", File d m)];
          cwd := ["proj"] |};
     log := [] |}.

Definition flat (d1 : list byte) (m1 : meta) (d2 : list byte) (m2 : meta)
  : world :=
  {| files :=
       {| root :=
            Dir [("proj",
                  Dir [("build", Dir [("app.js", File d1 m1)]);
                       ("demos", Dir [("index.html", File d2 m2)])]);
                 ("out", Dir [])];
          cwd := ["proj"] |};
     log := [] |}.

(** A site whose [dist] holds a directory named like a file of [build]. *)
Definition name_clash (d : list byte) (m : meta) : world :=
  {| files :=
       {| root :=
            Dir [("proj", Dir [("build", Dir [("app.js", File d m)])]);
                 ("out", Dir [("dist", Dir [("app.js", Dir [])])])];
          cwd := ["proj"] |};
     log := [] |}.

(** A project whose [build] starts with a link that leads nowhere. *)
Definition dangling (d : list byte) (m : meta) : world :=
  {| files :=
       {| root :=
            Dir [("proj",
                  Dir [("build", Dir [("old.js", Link "gone.js");
                                      ("app.js", File d m)])]);
                 ("out", Dir [])];
          cwd := ["proj"] |};
     log := [] |}.

End Cases.




(** [join(join(base, n1), n2) ...]. *)
Definition joins (base : string) (names : list string) : string :=
  fold_left Path.join names base.

(** A log and the result it ends with: every call returned, or every call
    but the last returned and the last raised the exception that is the
    result. *)
Definition aborts (l : list event) (r : result exn unit) : Prop :=
  match r with
  | Ok _ => Forall returned l
  | Raise e =>
      exists l1 c, l = l1 ++ [(c, Raised e)] /\ Forall returned l1
  end.

(** ** The scenario of the specification

    The project directory [/proj] is the working directory; it holds
    [build/app.js] and [demos/demo1/index.html].  The site directory is
    [/out], which the disk may or may not hold yet. *)

Module Scenario.

Definition project (d1 : list byte) (m1 : meta) (d2 : list byte) (m2 : meta)
  : node :=
  Dir [("build", Dir [("app.js", File d1 m1)]);
       ("demos", Dir [("demo1", Dir [("index.html", File d2 m2)])])].

Definition disk (out_exists : bool) (d1 : list byte) (m1 : meta)
    (d2 : list byte) (m2 : meta) : fs :=
  {| root := Dir (("proj", project d1 m1 d2 m2)
                  :: if out_exists then [("out", Dir [])] else []);
     cwd := ["proj"] |}.

Definition start (out_exists : bool) (d1 : list byte) (m1 : meta)
    (d2 : list byte) (m2 : meta) : world :=
  {| files := disk out_exists d1 m1 d2 m2; log := [] |}.

Definition config : gmap string pyval := {[ "site_dir" := PStr "/out" ]}.

(** A project without [build]. *)
Definition no_build : world :=
  {| files := {| root := Dir [("proj", Dir [("demos", Dir [])])];
                 cwd := ["proj"] |};
     log := [] |}.

(** A project without [build], with a site that holds [demos] from an
    earlier run. *)
Definition no_build_site (d : list byte) (m : meta) : world :=
  {| files :=
       {| root :=
            Dir [("proj", Dir [("demos", Dir [])]);
                 ("out", Dir [("demos", Dir [("old.html", File d m)])])];
          cwd := ["proj"] |};
     log := [] |}.

(** A project whose sources hold symbolic links: [build/latest.js] names
    [app.js], [build/shared] names the directory [/proj/assets], and
    [demos/demo1/lib.js] names [../../build/app.js]. *)
Definition with_links (d1 : list byte) (m1 : meta) (d2 : list byte)
    (m2 : meta) : world :=
  {| files :=
       {| root :=
            Dir [("proj",
                  Dir [("assets", Dir [("logo.svg", File d2 m2)]);
                       ("build", Dir [("app.js", File d1 m1);
                                      ("latest.js", Link "app.js");
                                      ("shared", Link "/proj/assets")]);
                       ("demos", Dir [("demo1",
                                       Dir [("lib.js",
                                             Link "../../build/app.js")])])])];
          cwd := ["proj"] |};
     log := [] |}.

(** A site that was published before: [/out/dist/app.js] holds the bytes
    of an earlier build, and [build] has got a subdirectory [img]. *)
Definition stale (d1 : list byte) (m1 : meta) (d0 : list byte) (m0 : meta)
    (d2 : list byte) (m2 : meta) : world :=
  {| files :=
       {| root :=
            Dir [("proj",
                  Dir [("build", Dir [("app.js", File d1 m1);
                                      ("img", Dir [("logo.png", File d2 m2)])])]);
                 ("out", Dir [("dist", Dir [("app.js", File d0 m0)])])];
          cwd := ["proj"] |};
     log := [] |}.

End Scenario.

(** * Properties *)

(** ** The monad and the log *)

Lemma bind_ok {S A B : Type} (c : M S A) (k : A -> M S B) s a s' :
  c s = (Ok a, s') -> bind c k s = k a s'.
Proof. intros H. unfold bind. now rewrite H. Qed.

Lemma bind_raise {S A B : Type} (c : M S A) (k : A -> M S B) s e s' :
  c s = (Raise e, s') -> bind c k s = (Raise e, s').
Proof. intros H. unfold bind. now rewrite H. Qed.

Lemma invoke_eq {A : Type} (c : call) (inj : A -> retval) (f : M fs A) w :
  invoke c inj f w =
  ((f (files w)).1,
   {| files := (f (files w)).2;
      log := log w ++ [(c, outcome_of inj (f (files w)).1)] |}).
Proof. unfold invoke. now destruct (f (files w)). Qed.

Lemma replay_app s l1 s1 l2 s2 :
  replay s l1 s1 -> replay s1 l2 s2 -> replay s (l1 ++ l2) s2.
Proof.
  induction 1 as [|s c r s' l s'' Hrun _ IH]; intros H2; simpl.
  - exact H2.
  - eapply replay_cons; [exact Hrun | now apply IH].
Qed.

Lemma replay_one s c r s' :
  run c s = (r, s') -> replay s [(c, outcome_of id r)] s'.
Proof. intros H. eapply replay_cons; [exact H | constructor]. Qed.

(** Each wrapper of [Hooks] logs the call whose effect [run] gives. *)
Lemma run_wrapper {A : Type} (c : call) (inj : A -> retval) (f : M fs A) :
  (forall s, run c s =
             (match (f s).1 with Ok a => Ok (inj a) | Raise e => Raise e end,
              (f s).2)) ->
  forall w r w',
    invoke c inj f w = (r, w') ->
    log w' = log w ++ [(c, outcome_of inj r)] /\
    replay (files w) [(c, outcome_of inj r)] (files w') /\
    f (files w) = (r, files w').
Proof.
  intros Hrun w r w'. rewrite invoke_eq. intros [= <- <-]. simpl.
  split; [reflexivity|]. split; [|now destruct (f (files w))].
  specialize (Hrun (files w)).
  destruct (f (files w)) as [[a|e] s]; simpl in *;
    apply replay_one in Hrun; exact Hrun.
Qed.

Lemma run_makedirs name exist_ok s :
  run (Makedirs name exist_ok) s =
  (match (PyLib.makedirs name exist_ok s).1 with
   | Ok a => Ok ((fun _ => RNone) a)
   | Raise e => Raise e
   end, (PyLib.makedirs name exist_ok s).2).
Proof.
  simpl. unfold bind, ret.
  now destruct (PyLib.makedirs name exist_ok s) as [[[]|e] s'].
Qed.

Lemma run_listdir path s :
  run (Listdir path) s =
  (match (PyLib.listdir path s).1 with
   | Ok a => Ok (RList a)
   | Raise e => Raise e
   end, (PyLib.listdir path s).2).
Proof.
  simpl. unfold bind, ret. now destruct (PyLib.listdir path s) as [[l|e] s'].
Qed.

Lemma run_copytree src dst symlinks ignore s :
  run (Copytree src dst symlinks ignore) s =
  (match (PyLib.copytree src dst symlinks ignore s).1 with
   | Ok a => Ok (RStr a)
   | Raise e => Raise e
   end, (PyLib.copytree src dst symlinks ignore s).2).
Proof.
  simpl. unfold bind, ret.
  now destruct (PyLib.copytree src dst symlinks ignore s) as [[l|e] s'].
Qed.

Lemma run_copy2 src dst s :
  run (Copy2 src dst) s =
  (match (PyLib.copy2 src dst s).1 with
   | Ok a => Ok (RStr a)
   | Raise e => Raise e
   end, (PyLib.copy2 src dst s).2).
Proof.
  simpl. unfold bind, ret. now destruct (PyLib.copy2 src dst s) as [[l|e] s'].
Qed.

Lemma logged_nil w : logged w [] w.
Proof. split; [now rewrite app_nil_r | constructor]. Qed.

Lemma logged_app w l1 w1 l2 w2 :
  logged w l1 w1 -> logged w1 l2 w2 -> logged w (l1 ++ l2) w2.
Proof.
  intros [H1 R1] [H2 R2]. split.
  - now rewrite H2, H1, app_assoc.
  - eapply replay_app; eassumption.
Qed.

Lemma logged_invoke {A : Type} (c : call) (inj : A -> retval) (f : M fs A) :
  (forall s, run c s =
             (match (f s).1 with Ok a => Ok (inj a) | Raise e => Raise e end,
              (f s).2)) ->
  forall w r w',
    invoke c inj f w = (r, w') -> logged w [(c, outcome_of inj r)] w'.
Proof.
  intros Hrun w r w' H.
  destruct (run_wrapper c inj f Hrun w r w' H) as (? & ? & _). now split.
Qed.

(** ** The shape of the logs of hooks.py *)

Section ShapeLemmas.

Import Hooks.

Lemma os_makedirs_logged name exist_ok w r w' :
  os_makedirs name exist_ok w = (r, w') ->
  logged w [(Makedirs name exist_ok, outcome_of (fun _ => RNone) r)] w'.
Proof.
  apply (logged_invoke (Makedirs name exist_ok) (fun _ => RNone)
           (PyLib.makedirs name exist_ok)).
  intros s. apply run_makedirs.
Qed.

Lemma os_listdir_logged path w r w' :
  os_listdir path w = (r, w') ->
  logged w [(Listdir path, outcome_of RList r)] w'.
Proof.
  apply (logged_invoke (Listdir path) RList (PyLib.listdir path)).
  intros s. apply run_listdir.
Qed.

Lemma os_path_isdir_logged path w r w' :
  os_path_isdir path w = (r, w') ->
  logged w [(Isdir path, outcome_of RBool r)] w'.
Proof.
  apply (logged_invoke (Isdir path) RBool
           (fun s => (Ok (PyLib.isdir s path), s))).
  intros s. reflexivity.
Qed.

Lemma shutil_copytree_logged src dst symlinks ignore w r w' :
  shutil_copytree src dst symlinks ignore w = (r, w') ->
  logged w [(Copytree src dst symlinks ignore, outcome_of RStr r)] w'.
Proof.
  apply (logged_invoke (Copytree src dst symlinks ignore) RStr
           (PyLib.copytree src dst symlinks ignore)).
  intros s. apply run_copytree.
Qed.

Lemma shutil_copy2_logged src dst w r w' :
  shutil_copy2 src dst w = (r, w') ->
  logged w [(Copy2 src dst, outcome_of RStr r)] w'.
Proof.
  apply (logged_invoke (Copy2 src dst) RStr (PyLib.copy2 src dst)).
  intros s. apply run_copy2.
Qed.

Lemma loop_shape src dst symlinks ignore items :
  forall w r w',
    for_each items (fun item =>
      let s := os_path_join src item in
      let d := os_path_join dst item in
      let* is_dir := os_path_isdir s in
      if is_dir then
        let* _ := shutil_copytree s d symlinks ignore in ret tt
      else
        let* _ := shutil_copy2 s d in ret tt) w = (r, w') ->
    exists l, logged w l w' /\ loop_log src dst symlinks ignore items l r.
Proof.
  induction items as [|item items IH]; intros w r w'; simpl.
  - intros [= <- <-]. exists []. split; [apply logged_nil | constructor].
  - unfold bind at 1. unfold bind at 1.
    destruct (os_path_isdir (os_path_join src item) w) as [[b|e] w1] eqn:Hd.
    2:{ unfold os_path_isdir in Hd. rewrite invoke_eq in Hd. discriminate. }
    pose proof (os_path_isdir_logged _ _ _ _ Hd) as L1.
    simpl in L1. destruct b.
    + unfold bind at 1.
      destruct (shutil_copytree _ _ symlinks ignore w1) as [[d'|e] w2] eqn:Hc;
        pose proof (shutil_copytree_logged _ _ _ _ _ _ _ Hc) as L2;
        simpl in L2.
      * unfold ret at 1. intros H. destruct (IH _ _ _ H) as (l & L3 & S3).
        eexists. split.
        -- eapply (logged_app _ [_]); [exact L1|].
           eapply (logged_app _ [_]); [exact L2 | exact L3].
        -- simpl. now apply loop_dir.
      * intros [= <- <-]. eexists. split.
        -- eapply (logged_app _ [_]); [exact L1 | exact L2].
        -- simpl. apply loop_dir_raise.
    + unfold bind at 1.
      destruct (shutil_copy2 _ _ w1) as [[d'|e] w2] eqn:Hc;
        pose proof (shutil_copy2_logged _ _ _ _ _ Hc) as L2;
        simpl in L2.
      * unfold ret at 1. intros H. destruct (IH _ _ _ H) as (l & L3 & S3).
        eexists. split.
        -- eapply (logged_app _ [_]); [exact L1|].
           eapply (logged_app _ [_]); [exact L2 | exact L3].
        -- simpl. now apply loop_file.
      * intros [= <- <-]. eexists. split.
        -- eapply (logged_app _ [_]); [exact L1 | exact L2].
        -- simpl. apply loop_file_raise.
Qed.

Lemma copy_tree_shape src dst symlinks ignore w r w' :
  copy_tree src dst symlinks ignore w = (r, w') ->
  exists l, logged w l w' /\ tree_log src dst symlinks ignore l r.
Proof.
  unfold copy_tree. unfold bind at 1.
  destruct (os_listdir src w) as [[items|e] w1] eqn:Hl;
    pose proof (os_listdir_logged _ _ _ _ Hl) as L1;
    simpl in L1.
  - intros H. destruct (loop_shape _ _ _ _ _ _ _ _ H) as (l & L2 & S2).
    eexists. split.
    + eapply (logged_app _ [_]); [exact L1 | exact L2].
    + simpl. now apply tree_listed.
  - intros [= <- <-]. eexists. split; [exact L1 | apply tree_listdir_raise].
Qed.

Lemma copy_directory_shape dir_path sd w r w' :
  copy_directory dir_path (PStr sd) w = (r, w') ->
  exists l, logged w l w' /\ dir_log dir_path sd l r.
Proof.
  unfold copy_directory. simpl os_path_join_val.
  unfold bind at 1. unfold ret at 1. unfold bind at 1.
  destruct (os_makedirs (Path.join sd dir_path) true w) as [[[]|e] w1] eqn:Hm;
    pose proof (os_makedirs_logged _ _ _ _ _ Hm) as L1;
    simpl in L1.
  - intros H. destruct (copy_tree_shape _ _ _ _ _ _ _ H) as (l & L2 & S2).
    eexists. split.
    + eapply (logged_app _ [_]); [exact L1 | exact L2].
    + simpl. now apply dir_made.
  - intros [= <- <-]. eexists. split; [exact L1 | apply dir_makedirs_raise].
Qed.

Lemma copy_static_files_shape config kwargs sd w r w' :
  config !! "site_dir" = Some (PStr sd) ->
  copy_static_files config kwargs w = (r, w') ->
  exists l, logged w l w' /\ hook_log sd l r.
Proof.
  intros Hsd. unfold copy_static_files, getitem. rewrite Hsd.
  unfold bind at 1. unfold ret at 1. unfold bind at 1.
  destruct (copy_directory "dist" (PStr sd) w) as [[[]|e] w1] eqn:H1;
    destruct (copy_directory_shape _ _ _ _ _ H1) as (l1 & L1 & S1).
  - intros H2. destruct (copy_directory_shape _ _ _ _ _ H2) as (l2 & L2 & S2).
    exists (l1 ++ l2). split; [eapply logged_app; eassumption|].
    now apply hook_both.
  - intros [= <- <-]. exists l1. split; [exact L1 | now apply hook_dist_raise].
Qed.

End ShapeLemmas.

(** ** Directory trees *)

Section TreeFacts.

Import Tree.

Lemma entry_set_entry_eq k x es : entry k (set_entry k x es) = Some x.
Proof.
  induction es as [|[k' n] es IH]; simpl.
  - now rewrite String.eqb_refl.
  - destruct (String.eqb k k') eqn:E; simpl.
    + now rewrite String.eqb_refl.
    + now rewrite E.
Qed.

Lemma entry_set_entry_ne k k' x es :
  k <> k' -> entry k' (set_entry k x es) = entry k' es.
Proof.
  intros Hne. induction es as [|[k0 n] es IH]; simpl.
  - destruct (String.eqb k' k) eqn:E; [|reflexivity].
    apply String.eqb_eq in E. congruence.
  - destruct (String.eqb k k0) eqn:E; simpl.
    + apply String.eqb_eq in E. subst k0.
      destruct (String.eqb k' k) eqn:E'; [|reflexivity].
      apply String.eqb_eq in E'. congruence.
    + now rewrite IH.
Qed.

Lemma same_kind_refl o : same_kind o o.
Proof. destruct o as [[| |]|]; simpl; auto. Qed.

Lemma same_kind_sym o o' : same_kind o o' -> same_kind o' o.
Proof.
  destruct o as [[| |]|], o' as [[| |]|]; simpl; intuition congruence.
Qed.

Lemma same_kind_trans o1 o2 o3 :
  same_kind o1 o2 -> same_kind o2 o3 -> same_kind o1 o3.
Proof.
  destruct o1 as [[| |]|], o2 as [[| |]|], o3 as [[| |]|]; simpl;
    intuition congruence.
Qed.

Lemma get_fresh_leaf x c q : fresh_leaf x -> get x (c :: q) = None.
Proof. destruct x as [| [|] |]; simpl; intros H; try reflexivity; contradiction. Qed.

Lemma get_app r p q :
  get r (p ++ q) = match get r p with Some n => get n q | None => None end.
Proof.
  revert r. induction p as [|c p IH]; intros r; simpl; [reflexivity|].
  destruct r as [|es|]; try reflexivity.
  destruct (entry c es); [apply IH | reflexivity].
Qed.

(** Writing a leaf to a writable place changes nothing a resolution can see
    elsewhere. *)
Lemma put_agree p : forall r x,
  writable r p -> fresh_leaf x -> agree_except p r (put r p x).
Proof.
  induction p as [|c p IH]; intros r x Hw Hx q Hq.
  - destruct q as [|c' q]; [congruence|].
    destruct Hw as [Hw|(d & m & Hw)]; simpl in Hw; [discriminate|].
    injection Hw as ->. change (put (File d m) [] x) with x.
    now rewrite (get_fresh_leaf x).
  - destruct r as [d m|es|t]; simpl; try apply same_kind_refl.
    destruct (entry c es) as [n|] eqn:E.
    + destruct q as [|c' q]; simpl; [exact I|].
      destruct (String.eqb_spec c c') as [->|Hne].
      * rewrite entry_set_entry_eq, E.
        apply IH; [|exact Hx|congruence].
        destruct Hw as [Hw|(d & m & Hw)]; simpl in Hw; rewrite E in Hw;
          [now left | right; eauto].
      * rewrite entry_set_entry_ne by exact Hne. apply same_kind_refl.
    + destruct p as [|c0 p]; [|apply same_kind_refl].
      destruct q as [|c' q]; simpl; [exact I|].
      destruct (String.eqb_spec c c') as [->|Hne].
      * rewrite entry_set_entry_eq, E.
        destruct q as [|c1 q]; [congruence|]. now rewrite get_fresh_leaf.
      * rewrite entry_set_entry_ne by exact Hne. apply same_kind_refl.
Qed.

(** A node stored in a directory is found there. *)
Lemma get_put q : forall r es c x,
  get r q = Some (Dir es) -> get (put r (q ++ [c]) x) (q ++ [c]) = Some x.
Proof.
  induction q as [|c0 q IH]; intros r es c x H; simpl in *.
  - injection H as ->. destruct (entry c es) eqn:E; simpl;
      now rewrite entry_set_entry_eq.
  - destruct r as [|es0|]; try discriminate.
    destruct (entry c0 es0) as [n0|] eqn:E; [|discriminate].
    simpl. rewrite entry_set_entry_eq. eapply IH, H.
Qed.

End TreeFacts.

(** ** Path resolution *)

Section KernelFacts.

Import Kernel.

Lemma walk_nil links r follow cur :
  walk links r follow cur [] =
  match Tree.get r cur with
  | Some n => Ok (Present cur n)
  | None => Raise ENOENT
  end.
Proof. destruct links; reflexivity. Qed.

Lemma walk_cons links r follow cur c rest :
  walk links r follow cur (c :: rest) =
  if String.eqb c "." then walk links r follow cur rest
  else if String.eqb c ".." then walk links r follow (removelast cur) rest
  else
    match Tree.get r (cur ++ [c]) with
    | None =>
        match rest with
        | [] => Ok (Absent (cur ++ [c]))
        | _ :: _ => Raise ENOENT
        end
    | Some (Dir _) => walk links r follow (cur ++ [c]) rest
    | Some (File d m) =>
        match rest with
        | [] => Ok (Present (cur ++ [c]) (File d m))
        | _ :: _ => Raise ENOTDIR
        end
    | Some (Link t) =>
        match rest, follow with
        | [], false => Ok (Present (cur ++ [c]) (Link t))
        | _, _ =>
            match links with
            | O => Raise ELOOP
            | S links' =>
                if Path.is_empty t then Raise ENOENT
                else walk links' r follow
                       (if Path.startswith_sep t then [] else cur)
                       (Path.components t ++ rest)
            end
        end
    end.
Proof. destruct links; reflexivity. Qed.

(** A resolution that succeeds keeps succeeding, with the same canonical
    path, when a file or directory appears at a writable place [p]. *)
Lemma walk_sim p r r' x :
  agree_except p r r' ->
  writable r p ->
  Tree.get r' p = Some x ->
  (forall t, x <> Link t) ->
  forall links follow cur cs res,
    walk links r follow cur cs = Ok res ->
    exists res',
      walk links r' follow cur cs = Ok res' /\ sim_found p x res res'.
Proof.
  intros Hag Hw Hx Hnl links.
  induction links as [links IHl] using lt_wf_ind.
  intros follow cur cs. revert cur.
  induction cs as [|c rest IH]; intros cur res.
  - rewrite !walk_nil. destruct (decide (cur = p)) as [->|Hne].
    + rewrite Hx. destruct (Tree.get r p) as [n|]; [|discriminate].
      intros [= <-]. eexists. split; [reflexivity|]. now left.
    + pose proof (Hag cur Hne) as Hk.
      destruct (Tree.get r cur) as [n|]; [|discriminate].
      destruct (Tree.get r' cur) as [n'|]; [|destruct n; contradiction].
      intros [= <-]. eexists. split; [reflexivity|]. right. eauto.
  - rewrite !walk_cons.
    destruct (String.eqb c "."); [apply IH|].
    destruct (String.eqb c ".."); [apply IH|].
    destruct (decide (cur ++ [c] = p)) as [Hp|Hne].
    + rewrite Hp, Hx.
      assert (Hend : walk links r' follow p [] = Ok (Present p x))
        by now rewrite walk_nil, Hx.
      destruct Hw as [Hw|(d & m & Hw)]; rewrite Hw;
        (destruct rest; [|discriminate]); intros [= <-];
        exists (Present p x); (split; [|now left]);
        destruct x as [d' m'|es'|t']; try reflexivity; try exact Hend;
        now destruct (Hnl t').
    + pose proof (Hag _ Hne) as Hk.
      destruct (Tree.get r (cur ++ [c])) as [[d m|es|t]|],
               (Tree.get r' (cur ++ [c])) as [[d' m'|es'|t']|];
        simpl in Hk; try contradiction.
      * destruct Hk as [-> ->]. destruct rest; [|discriminate].
        intros [= <-]. eexists. split; [reflexivity|]. right.
        split; [exact Hne|]. eexists. split; [reflexivity|]. simpl. auto.
      * apply IH.
      * subst t'.
        assert (Hfollow :
          match links with
          | O => Raise ELOOP
          | S links' =>
              if Path.is_empty t then Raise ENOENT
              else walk links' r follow
                     (if Path.startswith_sep t then [] else cur)
                     (Path.components t ++ rest)
          end = Ok res ->
          exists res',
            match links with
            | O => Raise ELOOP
            | S links' =>
                if Path.is_empty t then Raise ENOENT
                else walk links' r' follow
                       (if Path.startswith_sep t then [] else cur)
                       (Path.components t ++ rest)
            end = Ok res' /\ sim_found p x res res').
        { destruct links as [|links']; [discriminate|].
          destruct (Path.is_empty t); [discriminate|].
          apply IHl. lia. }
        destruct rest, follow; try exact Hfollow.
        intros [= <-]. eexists. split; [reflexivity|]. right.
        split; [exact Hne|]. eexists. split; [reflexivity|]. reflexivity.
      * destruct rest; [|discriminate].
        intros [= <-]. eexists. split; [reflexivity|]. right. now split.
Qed.

Lemma walk_present links r : forall follow cur cs p n,
  walk links r follow cur cs = Ok (Present p n) -> Tree.get r p = Some n.
Proof.
  induction links as [links IHl] using lt_wf_ind.
  intros follow cur cs. revert cur.
  induction cs as [|c rest IH]; intros cur p n.
  - rewrite walk_nil. destruct (Tree.get r cur) eqn:E; [|discriminate].
    now intros [= <- <-].
  - rewrite walk_cons.
    destruct (String.eqb c "."); [apply IH|].
    destruct (String.eqb c ".."); [apply IH|].
    destruct (Tree.get r (cur ++ [c])) as [[d m|es|t]|] eqn:E.
    + destruct rest; [|discriminate]. now intros [= <- <-].
    + apply IH.
    + assert (Hfollow :
        match links with
        | O => Raise ELOOP
        | S links' =>
            if Path.is_empty t then Raise ENOENT
            else walk links' r follow
                   (if Path.startswith_sep t then [] else cur)
                   (Path.components t ++ rest)
        end = Ok (Present p n) -> Tree.get r p = Some n).
      { destruct links as [|links']; [discriminate|].
        destruct (Path.is_empty t); [discriminate|]. apply IHl. lia. }
      destruct rest, follow; try exact Hfollow. now intros [= <- <-].
    + destruct rest; discriminate.
Qed.

Lemma get_parent r : forall p n,
  Tree.get r p = Some n -> p <> [] ->
  exists es, Tree.get r (removelast p) = Some (Dir es).
Proof.
  intros p n H Hp.
  rewrite (app_removelast_last "" Hp), get_app in H.
  destruct (Tree.get r (removelast p)) as [[| es |]|]; try discriminate.
  eauto.
Qed.

Lemma get_removelast r cur es :
  (exists es0, r = Dir es0) ->
  Tree.get r cur = Some (Dir es) ->
  exists es', Tree.get r (removelast cur) = Some (Dir es').
Proof.
  intros [es0 ->] H. destruct cur as [|c cur]; [simpl; eauto|].
  eapply get_parent; [exact H | discriminate].
Qed.

(** A free name reported by a resolution is free in an existing directory. *)
Lemma walk_absent links r :
  (exists es0, r = Dir es0) ->
  forall follow cur cs p,
    (exists es, Tree.get r cur = Some (Dir es)) ->
    walk links r follow cur cs = Ok (Absent p) ->
    exists q c es,
      p = q ++ [c] /\ Tree.get r q = Some (Dir es) /\ Tree.get r p = None.
Proof.
  intros Hr. induction links as [links IHl] using lt_wf_ind.
  intros follow cur cs. revert cur.
  induction cs as [|c rest IH]; intros cur p Hcur.
  - rewrite walk_nil. destruct (Tree.get r cur); discriminate.
  - rewrite walk_cons.
    destruct (String.eqb c "."); [now apply IH|].
    destruct (String.eqb c "..").
    { apply IH. destruct Hcur as [es Hcur]. eapply get_removelast; eauto. }
    destruct (Tree.get r (cur ++ [c])) as [[d m|es|t]|] eqn:E.
    + destruct rest; discriminate.
    + apply IH. eauto.
    + assert (Hfollow :
        match links with
        | O => Raise ELOOP
        | S links' =>
            if Path.is_empty t then Raise ENOENT
            else walk links' r follow
                   (if Path.startswith_sep t then [] else cur)
                   (Path.components t ++ rest)
        end = Ok (Absent p) ->
        exists q c es,
          p = q ++ [c] /\ Tree.get r q = Some (Dir es) /\ Tree.get r p = None).
      { destruct links as [|links']; [discriminate|].
        destruct (Path.is_empty t); [discriminate|]. apply IHl; [lia|].
        destruct (Path.startswith_sep t); [|exact Hcur].
        destruct Hr as [es0 ->]. simpl. eauto. }
      destruct rest, follow; try exact Hfollow. discriminate.
    + destruct rest; [|discriminate]. intros [= <-].
      destruct Hcur as [es Hcur]. eauto 6.
Qed.

(** Whether a final link is followed matters only when the path ends in a
    link. *)
Lemma walk_follow links r : forall follow cur cs res,
  walk links r false cur cs = Ok res ->
  (forall q t, res <> Present q (Link t)) ->
  walk links r follow cur cs = Ok res.
Proof.
  induction links as [links IHl] using lt_wf_ind.
  intros follow cur cs. revert cur.
  induction cs as [|c rest IH]; intros cur res.
  - rewrite !walk_nil. auto.
  - rewrite !walk_cons.
    destruct (String.eqb c "."); [apply IH|].
    destruct (String.eqb c ".."); [apply IH|].
    destruct (Tree.get r (cur ++ [c])) as [[d m|es|t]|] eqn:E; auto.
    destruct rest as [|c' rest].
    + intros [= <-] H. now destruct (H (cur ++ [c]) t).
    + destruct follow; [|auto].
      destruct links as [|links']; [discriminate|].
      destruct (Path.is_empty t); [discriminate|]. apply IHl. lia.
Qed.

Lemma wf_root w : wf w -> exists es, root w = Dir es.
Proof.
  intros [es H]. destruct (cwd w) as [|c q]; simpl in H.
  - injection H as ->. eauto.
  - destruct (root w) as [|es0|]; try discriminate. eauto.
Qed.

Lemma resolve_absent w follow path p :
  wf w ->
  resolve w follow path = Ok (Absent p) ->
  exists q c es,
    p = q ++ [c] /\ Tree.get (root w) q = Some (Dir es) /\
    Tree.get (root w) p = None.
Proof.
  intros Hwf. unfold resolve. destruct (Path.is_empty path); [discriminate|].
  apply walk_absent; [now apply wf_root|].
  destruct (Path.startswith_sep path); [|exact Hwf].
  destruct (wf_root w Hwf) as [es ->]. simpl. eauto.
Qed.

(** Storing a file or an empty directory at the place a resolution led to:
    every resolution that succeeded before succeeds after, with the same
    canonical path. *)
Lemma resolve_put w path0 follow0 p x :
  wf w ->
  (resolve w follow0 path0 = Ok (Absent p) \/
   exists d m, resolve w follow0 path0 = Ok (Present p (File d m))) ->
  fresh_leaf x ->
  let w' := with_root w (Tree.put (root w) p x) in
  wf w' /\
  Tree.get (root w') p = Some x /\
  forall follow path res,
    resolve w follow path = Ok res ->
    exists res', resolve w' follow path = Ok res' /\ sim_found p x res res'.
Proof.
  intros Hwf Hres Hx w'.
  assert (Hw : writable (root w) p).
  { destruct Hres as [H|(d & m & H)].
    - left. now destruct (resolve_absent _ _ _ _ Hwf H) as (? & ? & ? & _ & _ & ?).
    - right. unfold resolve in H.
      destruct (Path.is_empty path0); [discriminate|].
      apply walk_present in H. eauto. }
  assert (Hparent : exists q c es,
             p = q ++ [c] /\ Tree.get (root w) q = Some (Dir es)).
  { destruct Hres as [H|(d & m & H)].
    - destruct (resolve_absent _ _ _ _ Hwf H) as (q & c & es & ? & ? & _).
      eauto.
    - unfold resolve in H. destruct (Path.is_empty path0); [discriminate|].
      apply walk_present in H.
      destruct p as [|c0 p0].
      + simpl in H. injection H as Hr. destruct (wf_root w Hwf). congruence.
      + destruct (get_parent _ _ _ H) as [es Hq]; [discriminate|].
        exists (removelast (c0 :: p0)), (List.last (c0 :: p0) ""), es.
        split; [|exact Hq]. now apply app_removelast_last. }
  assert (Hag : agree_except p (root w) (root w'))
    by now apply put_agree.
  assert (Hget : Tree.get (root w') p = Some x).
  { destruct Hparent as (q & c & es & -> & Hq). simpl. eapply get_put, Hq. }
  assert (Hnl : forall t, x <> Link t) by (intros t ->; exact Hx).
  split; [|split; [exact Hget|]].
  - destruct Hwf as [es Hc]. unfold wf. simpl cwd.
    assert (Hne : cwd w <> p).
    { intros <-. destruct Hw as [Hw|(d & m & Hw)]; congruence. }
    pose proof (Hag _ Hne) as Hk. rewrite Hc in Hk.
    destruct (Tree.get (root w') (cwd w)) as [[| es' |]|];
      simpl in Hk; try contradiction. eauto.
  - intros follow path res. unfold resolve.
    destruct (Path.is_empty path); [discriminate|].
    apply (walk_sim p (root w) (root w') x Hag Hw Hget Hnl).
Qed.

End KernelFacts.

(** ** os and shutil *)

Section PyLibFacts.

Import Kernel PyLib.

Lemma resolve_follow w follow path res :
  resolve w false path = Ok res ->
  (forall q t, res <> Present q (Link t)) ->
  resolve w follow path = Ok res.
Proof.
  unfold resolve. destruct (Path.is_empty path); [discriminate|].
  apply walk_follow.
Qed.

Lemma isdir_true w path :
  isdir w path = true <->
  exists p es, resolve w true path = Ok (Present p (Dir es)).
Proof.
  unfold isdir, stat. split.
  - destruct (resolve w true path) as [[p [| es |]|p]|e]; try discriminate.
    eauto.
  - now intros (p & es & ->).
Qed.

Lemma exists_true w path :
  exists_ w path = true <->
  exists p n, resolve w true path = Ok (Present p n).
Proof.
  unfold exists_, stat. split.
  - destruct (resolve w true path) as [[p n|p]|e]; try discriminate. eauto.
  - now intros (p & n & ->).
Qed.

Lemma isdir_exists w path : isdir w path = true -> exists_ w path = true.
Proof.
  rewrite isdir_true, exists_true. intros (p & es & H). eauto.
Qed.

(** Directories stay directories when a leaf is stored. *)
Lemma isdir_put w path0 follow0 p x path :
  wf w ->
  (resolve w follow0 path0 = Ok (Absent p) \/
   exists d m, resolve w follow0 path0 = Ok (Present p (File d m))) ->
  fresh_leaf x ->
  isdir w path = true ->
  isdir (with_root w (Tree.put (root w) p x)) path = true.
Proof.
  intros Hwf Hres Hx. rewrite !isdir_true. intros (q & es & H).
  destruct (resolve_put w path0 follow0 p x Hwf Hres Hx) as (_ & _ & Hsim).
  destruct (Hsim _ _ _ H) as (res' & H' & [[-> _]|[_ (n' & -> & Hk)]]).
  - exfalso. unfold resolve in H.
    destruct (Path.is_empty path); [discriminate|].
    apply walk_present in H.
    destruct Hres as [Hr|(d & m & Hr)].
    + destruct (resolve_absent _ _ _ _ Hwf Hr) as (? & ? & ? & _ & _ & ?).
      congruence.
    + unfold resolve in Hr. destruct (Path.is_empty path0); [discriminate|].
      apply walk_present in Hr. congruence.
  - destruct n' as [| es' |]; simpl in Hk; try contradiction. eauto.
Qed.

Lemma mkdir_raise path w e w' : mkdir path w = (Raise e, w') -> w' = w.
Proof.
  unfold mkdir. destruct (Kernel.mkdir w path); now intros [= _ <-].
Qed.

Lemma mkdir_ok path w w' :
  mkdir path w = (Ok tt, w') ->
  exists p, resolve w false path = Ok (Absent p) /\
            w' = with_root w (Tree.put (root w) p (Dir [])).
Proof.
  unfold mkdir, Kernel.mkdir.
  destruct (resolve w false path) as [[p n|p]|e]; try discriminate.
  intros [= <-]. eauto.
Qed.

Lemma mkdir_isdir path w w' :
  wf w -> mkdir path w = (Ok tt, w') -> wf w' /\ isdir w' path = true.
Proof.
  intros Hwf H. destruct (mkdir_ok _ _ _ H) as (p & Hres & ->).
  destruct (resolve_put w path false p (Dir []) Hwf (or_introl Hres) I)
    as (Hwf' & _ & Hsim).
  split; [exact Hwf'|]. apply isdir_true.
  assert (Ht : resolve w true path = Ok (Absent p))
    by (apply resolve_follow; [exact Hres | discriminate]).
  destruct (Hsim _ _ _ Ht) as (res' & H' & [[_ ->]|[Hne _]]);
    [eauto | congruence].
Qed.

Lemma mkdir_keeps_dirs path w w' path' :
  wf w -> mkdir path w = (Ok tt, w') ->
  isdir w path' = true -> isdir w' path' = true.
Proof.
  intros Hwf H. destruct (mkdir_ok _ _ _ H) as (p & Hres & ->).
  now apply (isdir_put w path false p (Dir []) path' Hwf (or_introl Hres)).
Qed.

Lemma mkdir_leaf_wf name exist_ok w r w' :
  wf w -> mkdir_leaf name exist_ok w = (r, w') -> wf w'.
Proof.
  intros Hwf. unfold mkdir_leaf.
  destruct (mkdir name w) as [[[]|e] w1] eqn:E.
  - intros [= _ <-]. now destruct (mkdir_isdir _ _ _ Hwf E).
  - apply mkdir_raise in E. subst w1.
    destruct (negb exist_ok || negb (isdir w name)); now intros [= _ <-].
Qed.

Lemma mkdir_leaf_isdir name exist_ok w w' :
  wf w -> mkdir_leaf name exist_ok w = (Ok tt, w') -> isdir w' name = true.
Proof.
  intros Hwf. unfold mkdir_leaf.
  destruct (mkdir name w) as [[[]|e] w1] eqn:E.
  - intros [= <-]. now destruct (mkdir_isdir _ _ _ Hwf E).
  - apply mkdir_raise in E. subst w1.
    destruct exist_ok; simpl; [|discriminate].
    destruct (isdir w name) eqn:D; simpl; [|discriminate].
    now intros [= <-].
Qed.

Lemma mkdir_leaf_keeps_dirs name exist_ok w r w' path' :
  wf w -> mkdir_leaf name exist_ok w = (r, w') ->
  isdir w path' = true -> isdir w' path' = true.
Proof.
  intros Hwf. unfold mkdir_leaf.
  destruct (mkdir name w) as [[[]|e] w1] eqn:E.
  - intros [= _ <-]. now apply (mkdir_keeps_dirs name).
  - apply mkdir_raise in E. subst w1.
    destruct (negb exist_ok || negb (isdir w name)); now intros [= _ <-].
Qed.

Lemma makedirs_rec_S fuel name exist_ok w :
  makedirs_rec (S fuel) name exist_ok w =
  let head := (Path.split name).1 in
  let tail := (Path.split name).2 in
  let head' := if Path.is_empty tail then (Path.split head).1 else head in
  let tail' := if Path.is_empty tail then (Path.split head).2 else tail in
  if negb (Path.is_empty head') && negb (Path.is_empty tail')
     && negb (exists_ w head')
  then
    match makedirs_rec fuel head' exist_ok w with
    | (Raise (OSError EEXIST _), w') | (Ok _, w') =>
        if String.eqb tail' "." then (Ok tt, w')
        else mkdir_leaf name exist_ok w'
    | (Raise e, w') => (Raise e, w')
    end
  else mkdir_leaf name exist_ok w.
Proof. reflexivity. Qed.

Lemma makedirs_rec_wf fuel : forall name exist_ok w r w',
  wf w -> makedirs_rec fuel name exist_ok w = (r, w') ->
  wf w' /\ forall path', isdir w path' = true -> isdir w' path' = true.
Proof.
  induction fuel as [|fuel IH]; intros name exist_ok w r w' Hwf.
  - change (makedirs_rec 0 name exist_ok w) with (@Raise exn unit RecursionError, w).
    now intros [= _ <-].
  - rewrite makedirs_rec_S. cbv zeta.
    set (head' := if Path.is_empty (Path.split name).2
                  then (Path.split (Path.split name).1).1
                  else (Path.split name).1).
    set (tail' := if Path.is_empty (Path.split name).2
                  then (Path.split (Path.split name).1).2
                  else (Path.split name).2).
    assert (Hleaf : forall w1 r1 w2,
               wf w1 ->
               (forall path', isdir w path' = true -> isdir w1 path' = true) ->
               mkdir_leaf name exist_ok w1 = (r1, w2) ->
               wf w2 /\
               forall path', isdir w path' = true -> isdir w2 path' = true).
    { intros w1 r1 w2 Hwf1 Hk Hl. split.
      - exact (mkdir_leaf_wf name exist_ok w1 r1 w2 Hwf1 Hl).
      - intros path' Hd.
        apply (mkdir_leaf_keeps_dirs name exist_ok w1 r1 w2 path' Hwf1 Hl).
        apply Hk, Hd. }
    destruct (negb (Path.is_empty head') && negb (Path.is_empty tail')
              && negb (exists_ w head')).
    + destruct (makedirs_rec fuel head' exist_ok w) as [[[]|e] w1] eqn:E;
        destruct (IH _ _ _ _ _ Hwf E) as [Hwf1 Hk].
      * destruct (String.eqb tail' "."); [now intros [= _ <-]|].
        now apply Hleaf.
      * destruct e as [[] f| | | | |]; try now intros [= _ <-].
        destruct (String.eqb tail' "."); [now intros [= _ <-]|].
        now apply Hleaf.
    + now apply Hleaf.
Qed.

(** [os.makedirs] returns only once the named directory exists. *)
Lemma makedirs_rec_isdir fuel name exist_ok w w' :
  wf w ->
  Path.is_empty (Path.split name).2 = false ->
  String.eqb (Path.split name).2 "." = false ->
  makedirs_rec fuel name exist_ok w = (Ok tt, w') ->
  isdir w' name = true.
Proof.
  intros Hwf Ht Hdot. destruct fuel as [|fuel]; [discriminate|].
  rewrite makedirs_rec_S. cbv zeta. rewrite Ht. cbv iota. rewrite Ht, Hdot.
  destruct (negb (Path.is_empty (Path.split name).1) && negb false
            && negb (exists_ w (Path.split name).1)).
  - destruct (makedirs_rec fuel (Path.split name).1 exist_ok w)
      as [[[]|e] w1] eqn:E;
      destruct (makedirs_rec_wf _ _ _ _ _ _ Hwf E) as [Hwf1 _].
    + now apply mkdir_leaf_isdir.
    + destruct e as [[] f| | | | |]; try discriminate.
      now apply mkdir_leaf_isdir.
  - now apply mkdir_leaf_isdir.
Qed.

Lemma read_ok w path d m :
  Kernel.read w path = Ok (d, m) <->
  exists p, resolve w true path = Ok (Present p (File d m)).
Proof.
  unfold Kernel.read. split.
  - destruct (resolve w true path) as [[p [d0 m0| es |t]|p]|e];
      try discriminate. intros [= -> ->]. eauto.
  - now intros (p & ->).
Qed.

Lemma store_ok w path d m w' :
  store w path d m = Ok w' ->
  exists p,
    (resolve w true path = Ok (Absent p) \/
     exists d0 m0, resolve w true path = Ok (Present p (File d0 m0))) /\
    w' = with_root w (Tree.put (root w) p (File d m)).
Proof.
  unfold store.
  destruct (resolve w true path) as [[p [d0 m0| es |t]|p]|e];
    try discriminate; intros [= <-]; exists p; split; eauto.
Qed.

(** [shutil.copy2] that returns: the destination it names now holds the
    bytes and the metadata of the source, whether it was there before or
    not, and the source still holds them. *)
Lemma copy2_ok src dst w d' w' :
  wf w ->
  copy2 src dst w = (Ok d', w') ->
  wf w' /\
  d' = (if isdir w dst then Path.join dst (Path.basename src) else dst) /\
  exists data m,
    Kernel.read w src = Ok (data, m) /\
    Kernel.read w' d' = Ok (data, m) /\
    Kernel.read w' src = Ok (data, m).
Proof.
  intros Hwf. unfold copy2.
  set (dst' := if isdir w dst then Path.join dst (Path.basename src) else dst).
  destruct (samefile w src dst'); [intros [=]|].
  destruct (Kernel.read w src) as [[data m]|e] eqn:Hr; [|intros [=]].
  destruct (store w dst' data m) as [w1|e] eqn:Hs; [|intros [=]].
  intros [= <- <-].
  destruct (store_ok _ _ _ _ _ Hs) as (p & Hres & ->).
  destruct (resolve_put w dst' true p (File data m) Hwf Hres I)
    as (Hwf' & _ & Hsim).
  split; [exact Hwf'|]. split; [reflexivity|].
  exists data, m. split; [reflexivity|]. split.
  - apply (proj2 (read_ok _ _ _ _)). exists p.
    destruct Hres as [H|(d0 & m0 & H)];
      destruct (Hsim _ _ _ H) as (res' & H' & [[_ ->]|[Hne _]]);
      try exact H'; exfalso; apply Hne; reflexivity.
  - apply (proj1 (read_ok _ _ _ _)) in Hr. destruct Hr as (ps & Hr).
    apply (proj2 (read_ok _ _ _ _)).
    destruct (Hsim _ _ _ Hr) as (res' & H' & [[_ ->]|[_ (n' & -> & Hk)]]).
    + exists p. exact H'.
    + destruct n' as [d1 m1| |]; simpl in Hk; try contradiction.
      destruct Hk as [<- <-]. exists ps. exact H'.
Qed.

End PyLibFacts.

(** ** posixpath *)

Section PathFacts.

Import Path.

Lemma append_cons x a b : String x a +:+ b = String x (a +:+ b).
Proof. reflexivity. Qed.

Lemma append_nil_l b : "" +:+ b = b.
Proof. reflexivity. Qed.

Lemma append_nil_r a : a +:+ "" = a.
Proof.
  induction a as [|x a IH]; [reflexivity|]. rewrite append_cons. now rewrite IH.
Qed.

Lemma append_assoc a b c : (a +:+ b) +:+ c = a +:+ (b +:+ c).
Proof.
  induction a as [|x a IH]; [reflexivity|]. rewrite !append_cons. now rewrite IH.
Qed.

Lemma fields_cons p : exists f fs, fields p = f :: fs.
Proof.
  induction p as [|c p (f & fs & IH)]; simpl; [eauto|].
  destruct (is_sep c); [eauto|]. rewrite IH. eauto.
Qed.

Lemma fields_app_sep a b :
  fields (a +:+ String "/" b) = fields a ++ fields b.
Proof.
  induction a as [|c a IH]; [reflexivity|].
  rewrite append_cons. simpl. rewrite IH.
  destruct (is_sep c); [reflexivity|].
  destruct (fields_cons a) as (f & fs & ->). reflexivity.
Qed.

Lemma fields_no_sep b : has_sep b = false -> fields b = [b].
Proof.
  induction b as [|c b IH]; simpl; [reflexivity|].
  intros H. apply orb_false_iff in H. destruct H as [Hc Hb].
  rewrite Hc, (IH Hb). reflexivity.
Qed.

Lemma components_app_sep a b :
  components (a +:+ String "/" b) = components a ++ components b.
Proof. unfold components. now rewrite fields_app_sep, List.filter_app. Qed.

Lemma components_no_sep b :
  has_sep b = false -> is_empty b = false -> components b = [b].
Proof.
  intros Hs He. unfold components. rewrite (fields_no_sep b Hs). simpl.
  now rewrite He.
Qed.

Lemma endswith_sep_inv a :
  endswith_sep a = true -> exists a0, a = a0 +:+ "/".
Proof.
  induction a as [|c a IH]; simpl; [discriminate|].
  destruct a as [|c' a'].
  - unfold is_sep. intros H. apply Ascii.eqb_eq in H. subst c.
    now exists "".
  - intros H. destruct (IH H) as (a0 & Ha). exists (String c a0).
    rewrite append_cons. now rewrite <- Ha.
Qed.

Lemma plain_name_inv b :
  plain_name b = true ->
  is_empty b = false /\ has_sep b = false /\
  String.eqb b "." = false /\ String.eqb b ".." = false.
Proof.
  unfold plain_name. rewrite !andb_true_iff, !negb_true_iff. tauto.
Qed.

Lemma no_sep_startswith b : has_sep b = false -> startswith_sep b = false.
Proof.
  destruct b as [|c b]; simpl; [reflexivity|].
  intros H. now apply orb_false_iff in H.
Qed.

(** The components of [join a b] are those of [a] and then [b]. *)
Lemma components_join a b :
  plain_name b = true -> components (join a b) = components a ++ [b].
Proof.
  intros Hb. destruct (plain_name_inv b Hb) as (He & Hs & _).
  unfold join. rewrite (no_sep_startswith b Hs).
  destruct a as [|c a].
  - rewrite append_nil_l. now apply components_no_sep.
  - change (is_empty (String c a)) with false. rewrite orb_false_l.
    destruct (endswith_sep (String c a)) eqn:E.
    + destruct (endswith_sep_inv _ E) as (a0 & ->).
      rewrite append_assoc. change ("/" +:+ b) with (String "/" b).
      change (a0 +:+ "/") with (a0 +:+ String "/" "").
      rewrite !components_app_sep. change (components "") with (@nil string).
      rewrite app_nil_r. now rewrite (components_no_sep b).
    + change ("/" +:+ b) with (String "/" b).
      now rewrite components_app_sep, (components_no_sep b).
Qed.

Lemma join_nonempty a b : is_empty b = false -> is_empty (join a b) = false.
Proof.
  unfold join. destruct b as [|c b]; [discriminate|]. intros _.
  destruct (startswith_sep (String c b)); [reflexivity|].
  destruct a as [|c' a]; [reflexivity|].
  destruct (is_empty (String c' a) || endswith_sep (String c' a)); reflexivity.
Qed.

Lemma join_startswith a b :
  is_empty a = false -> has_sep b = false ->
  startswith_sep (join a b) = startswith_sep a.
Proof.
  intros Ha Hb. unfold join. rewrite (no_sep_startswith b Hb), Ha.
  destruct a as [|c a]; [discriminate|].
  destruct (false || endswith_sep (String c a)); reflexivity.
Qed.

Lemma join_empty b : has_sep b = false -> join "" b = b.
Proof. intros Hb. unfold join. now rewrite (no_sep_startswith b Hb). Qed.

Lemma is_sep_true c : is_sep c = true -> c = "/"%char.
Proof. unfold is_sep. apply Ascii.eqb_eq. Qed.

Lemma has_sep_app_sep a b : has_sep (a +:+ String "/" b) = true.
Proof.
  induction a as [|c a IH]; [reflexivity|].
  rewrite append_cons. simpl. rewrite IH. apply orb_true_r.
Qed.

Lemma cut_no_sep b : has_sep b = false -> cut b = ("", b).
Proof.
  destruct b as [|c b]; [reflexivity|]. simpl.
  intros H. apply orb_false_iff in H. destruct H as [-> ->]. reflexivity.
Qed.

Lemma cut_app_sep a b :
  has_sep b = false -> cut (a +:+ String "/" b) = (a +:+ "/", b).
Proof.
  intros Hb. induction a as [|c a IH].
  - rewrite !append_nil_l. simpl. now rewrite Hb.
  - rewrite !append_cons. simpl. now rewrite has_sep_app_sep, IH.
Qed.

Lemma has_sep_inv p :
  has_sep p = true ->
  exists h t, p = h +:+ String "/" t /\ has_sep t = false.
Proof.
  induction p as [|c p IH]; simpl; [discriminate|].
  destruct (has_sep p) eqn:E.
  - intros _. destruct (IH eq_refl) as (h & t & -> & Ht).
    exists (String c h), t. now rewrite append_cons.
  - rewrite orb_false_r. intros Hc. apply is_sep_true in Hc. subst c.
    exists "", p. now rewrite append_nil_l.
Qed.

Lemma rstrip_empty_components s :
  is_empty (rstrip_sep s) = true -> components s = [].
Proof.
  induction s as [|c s IH]; [reflexivity|]. simpl.
  destruct (is_sep c) eqn:Hc; [|discriminate].
  destruct (is_empty (rstrip_sep s)) eqn:E; [|discriminate].
  intros _. apply is_sep_true in Hc. subst c.
  change (String "/" s) with ("" +:+ String "/" s).
  rewrite components_app_sep. now apply IH.
Qed.

Lemma rstrip_decomp p :
  exists s, p = rstrip_sep p +:+ s /\ is_empty (rstrip_sep s) = true.
Proof.
  induction p as [|c p (s & IH & Hs)]; [now exists ""|]. simpl.
  destruct (is_sep c && is_empty (rstrip_sep p)) eqn:E.
  - exists (String c p). split; [reflexivity|]. simpl. now rewrite E.
  - exists s. split; [|exact Hs]. rewrite append_cons. now rewrite <- IH.
Qed.

Lemma components_app_seps q s :
  is_empty (rstrip_sep s) = true -> components (q +:+ s) = components q.
Proof.
  intros Hs. destruct s as [|c s]; [now rewrite append_nil_r|].
  pose proof (rstrip_empty_components _ Hs) as Hc.
  simpl in Hs. destruct (is_sep c) eqn:E; [|discriminate].
  apply is_sep_true in E. subst c.
  change (String "/" s) with ("" +:+ String "/" s) in Hc.
  rewrite components_app_sep in Hc. simpl in Hc.
  now rewrite components_app_sep, Hc, app_nil_r.
Qed.

Lemma components_rstrip p : components (rstrip_sep p) = components p.
Proof.
  destruct (rstrip_decomp p) as (s & Hp & Hs).
  rewrite Hp at 2. now rewrite components_app_seps.
Qed.

Lemma endswith_rstrip p : endswith_sep (rstrip_sep p) = false.
Proof.
  induction p as [|c p IH]; [reflexivity|]. simpl.
  destruct (is_sep c) eqn:Hc; simpl.
  - destruct (rstrip_sep p) as [|c' r] eqn:E; [reflexivity|]. simpl.
    simpl in IH. exact IH.
  - destruct (rstrip_sep p) as [|c' r] eqn:E; [exact Hc|]. simpl.
    simpl in IH. exact IH.
Qed.

Lemma startswith_rstrip p :
  is_empty (rstrip_sep p) = false ->
  startswith_sep (rstrip_sep p) = startswith_sep p.
Proof.
  destruct p as [|c p]; [discriminate|]. simpl.
  destruct (is_sep c && is_empty (rstrip_sep p)); [discriminate|reflexivity].
Qed.

(** The head of [split p], from the part [h] that [cut p] gives. *)
Lemma split_head p :
  let h := (cut p).1 in
  components (split p).1 = components h /\
  is_empty (split p).1 = is_empty h /\
  startswith_sep (split p).1 = startswith_sep h /\
  (is_empty (split (split p).1).2 = true -> components (split p).1 = []).
Proof.
  intros h. unfold split. fold h. cbn [fst snd].
  destruct (is_empty (rstrip_sep h)) eqn:E.
  - repeat split; try reflexivity. intros _.
    now apply rstrip_empty_components.
  - repeat split.
    + apply components_rstrip.
    + rewrite E. destruct h; [discriminate|reflexivity].
    + now apply startswith_rstrip.
    + intros Ht. exfalso.
      destruct (has_sep (rstrip_sep h)) eqn:Hs.
      * destruct (has_sep_inv _ Hs) as (h1 & t & Hh & Hnt).
        rewrite Hh, (cut_app_sep _ _ Hnt) in Ht. cbn [snd] in Ht.
        destruct t; [|discriminate].
        pose proof (endswith_rstrip h) as He. rewrite Hh in He.
        clear -He. induction h1 as [|c h1 IH]; [discriminate|].
        rewrite append_cons in He. simpl in He.
        destruct (h1 +:+ "/") eqn:E1; [destruct h1; discriminate|].
        now apply IH.
      * rewrite (cut_no_sep _ Hs) in Ht. cbn [snd] in Ht. congruence.
Qed.

Lemma startswith_app_sep a b :
  startswith_sep (a +:+ String "/" b) = startswith_sep (a +:+ "/").
Proof. destruct a; reflexivity. Qed.

(** A path is its head and then its tail. *)
Lemma split_components p :
  is_empty (split p).2 = false ->
  components p = components (split p).1 ++ [(split p).2] /\
  (is_empty (split p).1 = true -> startswith_sep p = false) /\
  (is_empty (split p).1 = false ->
   startswith_sep (split p).1 = startswith_sep p).
Proof.
  destruct (split_head p) as (Hc & He & Hs & _).
  rewrite Hc, He, Hs. unfold split. cbn [snd]. clear Hc He Hs.
  destruct (has_sep p) eqn:E.
  - destruct (has_sep_inv _ E) as (h & t & -> & Ht).
    rewrite (cut_app_sep _ _ Ht). cbn [fst snd]. intros Hne.
    split; [|split].
    + rewrite components_app_sep, (components_no_sep t Ht Hne).
      change (h +:+ "/") with (h +:+ String "/" "").
      rewrite components_app_sep. simpl (components ""). now rewrite app_nil_r.
    + destruct h; discriminate.
    + intros _. symmetry. apply startswith_app_sep.
  - rewrite (cut_no_sep _ E). cbn [fst snd]. intros Hne.
    split; [|split].
    + now rewrite (components_no_sep p E Hne).
    + intros _. now apply no_sep_startswith.
    + discriminate.
Qed.

Lemma join_cons c a b :
  has_sep b = false ->
  join (String c a) b =
  if endswith_sep (String c a) then String c a +:+ b
  else String c a +:+ String "/" b.
Proof. intros Hb. unfold join. now rewrite (no_sep_startswith b Hb). Qed.

(** The two parts of [split (join a b)]. *)
Lemma split_join a b :
  plain_name b = true ->
  (split (join a b)).2 = b /\
  components (split (join a b)).1 = components a /\
  is_empty (split (join a b)).1 = is_empty a /\
  (is_empty a = false ->
   startswith_sep (split (join a b)).1 = startswith_sep a).
Proof.
  intros Hb. destruct (plain_name_inv b Hb) as (He & Hs & _).
  destruct (split_head (join a b)) as (Hc & Hem & Hst & _).
  rewrite Hc, Hem, Hst. unfold split at 1. cbn [snd]. clear Hc Hem Hst.
  destruct a as [|c a].
  - rewrite (join_empty b Hs), (cut_no_sep b Hs). cbn [fst snd].
    now repeat split.
  - rewrite (join_cons c a b Hs).
    destruct (endswith_sep (String c a)) eqn:E.
    + destruct (endswith_sep_inv _ E) as (a0 & Ha). rewrite Ha.
      rewrite append_assoc. change ("/" +:+ b) with (String "/" b).
      rewrite (cut_app_sep _ _ Hs). cbn [fst snd]. now repeat split.
    + rewrite (cut_app_sep _ _ Hs). cbn [fst snd].
      change (String c a +:+ "/") with (String c a +:+ String "/" "").
      rewrite components_app_sep. simpl (components "").
      rewrite app_nil_r. now repeat split.
Qed.

End PathFacts.

(** ** Resolution along a path and its prefixes *)

Section ResolveFacts.

Import Kernel PyLib.

(** Resolving [cs ++ rest] is resolving [cs] to a directory and going on from
    there; it fails when [cs] does not lead to a directory. *)
Lemma walk_app links r :
  (exists es0, r = Dir es0) ->
  forall follow cur cs rest,
    rest <> [] ->
    (exists es, Tree.get r cur = Some (Dir es)) ->
    match walk links r true cur cs with
    | Ok (Present q (Dir _)) =>
        exists links',
          walk links r follow cur (cs ++ rest) = walk links' r follow q rest
    | _ => exists e, walk links r follow cur (cs ++ rest) = Raise e
    end.
Proof.
  intros Hr. induction links as [links IHl] using lt_wf_ind.
  intros follow cur cs rest Hrest. revert cur.
  induction cs as [|c cs IH]; intros cur Hcur.
  - rewrite walk_nil. destruct Hcur as [es ->]. now exists links.
  - rewrite <- app_comm_cons, !walk_cons.
    destruct (String.eqb c "."); [now apply IH|].
    destruct (String.eqb c "..").
    { apply IH. destruct Hcur as [es Hcur]. eapply get_removelast; eauto. }
    assert (Hne : exists x l, cs ++ rest = x :: l).
    { destruct cs as [|x l]; [|simpl; eauto].
      destruct rest as [|x l]; [congruence|simpl; eauto]. }
    destruct Hne as (x & l & Hxl).
    destruct (Tree.get r (cur ++ [c])) as [[d m|es|t]|] eqn:E.
    + rewrite Hxl. destruct cs; eauto.
    + apply IH. eauto.
    + rewrite Hxl.
      assert (Hfollow :
        match
          match links with
          | O => Raise ELOOP
          | S links' =>
              if Path.is_empty t then Raise ENOENT
              else walk links' r true
                     (if Path.startswith_sep t then [] else cur)
                     (Path.components t ++ cs)
          end
        with
        | Ok (Present q (Dir _)) =>
            exists links',
              match links with
              | O => Raise ELOOP
              | S links0 =>
                  if Path.is_empty t then Raise ENOENT
                  else walk links0 r follow
                         (if Path.startswith_sep t then [] else cur)
                         (Path.components t ++ x :: l)
              end = walk links' r follow q rest
        | _ =>
            exists e,
              match links with
              | O => Raise ELOOP
              | S links0 =>
                  if Path.is_empty t then Raise ENOENT
                  else walk links0 r follow
                         (if Path.startswith_sep t then [] else cur)
                         (Path.components t ++ x :: l)
              end = Raise e
        end).
      { destruct links as [|links']; [eauto|].
        destruct (Path.is_empty t); [eauto|].
        rewrite <- Hxl, app_assoc. apply IHl; [lia|exact Hrest|].
        destruct (Path.startswith_sep t); [|exact Hcur].
        destruct Hr as [es0 ->]. simpl. eauto. }
      destruct cs; exact Hfollow.
    + rewrite Hxl. destruct cs; eauto.
Qed.

(** With a working directory and a root, [resolve] starts from a
    directory. *)
Lemma start_dir w path :
  wf w ->
  exists es,
    Tree.get (root w) (if Path.startswith_sep path then [] else cwd w)
    = Some (Dir es).
Proof.
  intros Hwf. destruct (Path.startswith_sep path); [|exact Hwf].
  destruct (wf_root w Hwf) as [es ->]. simpl. eauto.
Qed.

(** Paths with the same components and the same start resolve alike. *)
Lemma resolve_ext w follow a a' :
  Path.components a = Path.components a' ->
  Path.startswith_sep a = Path.startswith_sep a' ->
  Path.is_empty a = Path.is_empty a' ->
  resolve w follow a = resolve w follow a'.
Proof. unfold resolve. now intros -> -> ->. Qed.

(** What lies under a directory is reached through it. *)
Lemma resolve_under w follow a b path res :
  wf w ->
  Path.is_empty a = false ->
  Path.startswith_sep path = Path.startswith_sep a ->
  Path.components path = Path.components a ++ [b] ->
  resolve w follow path = Ok res ->
  exists q es links',
    resolve w true a = Ok (Present q (Dir es)) /\
    resolve w follow path = walk links' (root w) follow q [b].
Proof.
  intros Hwf Ha Hs Hc. unfold resolve. rewrite Ha, Hs, Hc.
  destruct (Path.is_empty path); [discriminate|].
  pose proof (walk_app MAXSYMLINKS (root w) (wf_root w Hwf) follow
                (if Path.startswith_sep a then [] else cwd w)
                (Path.components a) [b] ltac:(discriminate)
                (start_dir w a Hwf)) as H.
  destruct (walk MAXSYMLINKS (root w) true _ (Path.components a))
    as [[q [d m|es|t]|q]|e]; try (destruct H as [e' ->]; discriminate).
  destruct H as [links' H]. intros _. eauto.
Qed.

Lemma resolve_over w follow a b path q es :
  wf w ->
  Path.is_empty a = false ->
  Path.is_empty path = false ->
  Path.startswith_sep path = Path.startswith_sep a ->
  Path.components path = Path.components a ++ [b] ->
  resolve w true a = Ok (Present q (Dir es)) ->
  exists links', resolve w follow path = walk links' (root w) follow q [b].
Proof.
  intros Hwf Ha Hp Hs Hc. unfold resolve. rewrite Ha, Hp, Hs, Hc.
  pose proof (walk_app MAXSYMLINKS (root w) (wf_root w Hwf) follow
                (if Path.startswith_sep a then [] else cwd w)
                (Path.components a) [b] ltac:(discriminate)
                (start_dir w a Hwf)) as H.
  intros Hq. rewrite Hq in H. exact H.
Qed.

(** A name that exists for [stat] exists for [lstat]. *)
Lemma walk_lstat links r : forall cur cs q n,
  walk links r true cur cs = Ok (Present q n) ->
  exists q' n', walk links r false cur cs = Ok (Present q' n').
Proof.
  induction links as [links IHl] using lt_wf_ind.
  intros cur cs. revert cur.
  induction cs as [|c rest IH]; intros cur q n.
  - rewrite !walk_nil. eauto.
  - rewrite !walk_cons.
    destruct (String.eqb c "."); [apply IH|].
    destruct (String.eqb c ".."); [apply IH|].
    destruct (Tree.get r (cur ++ [c])) as [[d m|es|t]|] eqn:E; eauto.
    destruct rest as [|c' rest]; [eauto|].
    destruct links as [|links']; [discriminate|].
    destruct (Path.is_empty t); [discriminate|]. apply IHl. lia.
Qed.

End ResolveFacts.

(** ** os.makedirs on the destination of a copy job *)

Section MakedirsFacts.

Import Kernel PyLib.

Lemma resolve_nonempty w follow path res :
  resolve w follow path = Ok res -> Path.is_empty path = false.
Proof.
  unfold resolve. destruct (Path.is_empty path); [discriminate|reflexivity].
Qed.

Lemma resolve_lstat w path q n :
  resolve w true path = Ok (Present q n) ->
  exists q' n', resolve w false path = Ok (Present q' n').
Proof.
  unfold resolve. destruct (Path.is_empty path); [discriminate|].
  apply walk_lstat.
Qed.

(** The head of a path that resolves exists. *)
Lemma head_exists w follow name res :
  wf w ->
  Path.is_empty (Path.split name).2 = false ->
  Path.is_empty (Path.split name).1 = false ->
  resolve w follow name = Ok res ->
  exists_ w (Path.split name).1 = true.
Proof.
  intros Hwf Ht Hh Hres.
  destruct (split_components name Ht) as (Hc & _ & Hs).
  destruct (resolve_under w follow (Path.split name).1 (Path.split name).2
              name res Hwf Hh (eq_sym (Hs Hh)) Hc Hres)
    as (q & es & _ & Hq & _).
  apply exists_true. exists q, (Dir es). exact Hq.
Qed.

Lemma mkdir_leaf_existing name w :
  isdir w name = true -> mkdir_leaf name true w = (Ok tt, w).
Proof.
  intros Hd. unfold mkdir_leaf, mkdir, Kernel.mkdir.
  apply isdir_true in Hd. destruct Hd as (p & es & Hd).
  destruct (resolve_lstat _ _ _ _ Hd) as (q' & n' & ->).
  assert (Hd' : isdir w name = true).
  { apply isdir_true. exists p, es. exact Hd. }
  rewrite Hd'. reflexivity.
Qed.

(** [os.makedirs(name, exist_ok=True)] on a directory that exists returns
    and leaves the file system as it is. *)
Lemma makedirs_existing name w :
  wf w ->
  Path.is_empty (Path.split name).2 = false ->
  isdir w name = true ->
  makedirs name true w = (Ok tt, w).
Proof.
  intros Hwf Ht Hd. unfold makedirs. rewrite makedirs_rec_S. cbv zeta.
  rewrite Ht. cbv iota. rewrite Ht.
  destruct (Path.is_empty (Path.split name).1) eqn:Hh.
  - cbn [negb andb]. now apply mkdir_leaf_existing.
  - pose proof Hd as Hd'. apply isdir_true in Hd'.
    destruct Hd' as (p & es & Hres).
    rewrite (head_exists w true name _ Hwf Ht Hh Hres).
    cbn [negb andb]. now apply mkdir_leaf_existing.
Qed.

(** [os.makedirs] for a copy job whose site directory [sd] is a free name in
    an existing directory: the site directory and the directory [b] of the
    job in it are made, in this order. *)
Lemma makedirs_fresh sd b w p :
  wf w ->
  plain_name b = true ->
  resolve w false sd = Ok (Absent p) ->
  exists w',
    makedirs (Path.join sd b) true w = (Ok tt, w') /\
    w' = with_root w
           (Tree.put (Tree.put (root w) p (Dir [])) (p ++ [b]) (Dir [])) /\
    wf w' /\
    isdir w' sd = true /\
    isdir w' (Path.join sd b) = true.
Proof.
  intros Hwf Hb Habs.
  destruct (plain_name_inv b Hb) as (Hbe & Hbs & Hbdot & Hbdd).
  pose proof (resolve_nonempty _ _ _ _ Habs) as Hsd.
  destruct (split_join sd b Hb) as (Htail & Hc & He & Hs).
  specialize (Hs Hsd). rewrite Hsd in He.
  set (name := Path.join sd b) in *.
  set (head := (Path.split name).1) in *.
  assert (Hhead : forall w0 follow,
             resolve w0 follow head = resolve w0 follow sd).
  { intros w0 follow. apply resolve_ext; [exact Hc|exact Hs|].
    now rewrite He, Hsd. }
  assert (Hname : Path.is_empty name = false)
    by now apply join_nonempty.
  (* the site directory *)
  assert (Hstep : forall n,
             makedirs_rec (S n) head true w =
             (Ok tt, with_root w (Tree.put (root w) p (Dir [])))).
  { intros n. rewrite makedirs_rec_S. cbv zeta.
    destruct (Path.is_empty (Path.split head).2) eqn:Ht2.
    - exfalso. destruct (split_head name) as (_ & _ & _ & Hnil).
      fold head in Hnil. specialize (Hnil Ht2).
      rewrite <- Hhead in Habs. unfold resolve in Habs.
      rewrite Hnil, walk_nil in Habs.
      destruct (Path.is_empty head); [discriminate|].
      destruct (Tree.get (root w) _); discriminate.
    - assert (Hcond : negb (Path.is_empty (Path.split head).1)
                      && negb false
                      && negb (exists_ w (Path.split head).1) = false).
      { destruct (Path.is_empty (Path.split head).1) eqn:Hh2; [reflexivity|].
        rewrite <- (Hhead w false) in Habs.
        now rewrite (head_exists w false head _ Hwf Ht2 Hh2 Habs). }
      cbv iota. rewrite Ht2, Hcond. unfold mkdir_leaf, mkdir, Kernel.mkdir.
      rewrite Hhead, Habs. reflexivity. }
  set (w1 := with_root w (Tree.put (root w) p (Dir []))) in *.
  destruct (resolve_put w sd false p (Dir []) Hwf (or_introl Habs) I)
    as (Hwf1 & Hget1 & Hsim). fold w1 in Hwf1, Hget1, Hsim.
  assert (Hsd1 : resolve w1 true sd = Ok (Present p (Dir []))).
  { assert (Ht : resolve w true sd = Ok (Absent p))
      by (apply resolve_follow; [exact Habs|discriminate]).
    destruct (Hsim _ _ _ Ht) as (res' & H' & [[_ ->]|[Hne _]]);
      [exact H'|exfalso; apply Hne; reflexivity]. }
  (* the directory of the job *)
  assert (Hcn : Path.components name = Path.components sd ++ [b])
    by now apply components_join.
  assert (Hsn : Path.startswith_sep name = Path.startswith_sep sd)
    by now apply join_startswith.
  destruct (resolve_over w1 false sd b name p [] Hwf1 Hsd Hname Hsn Hcn Hsd1)
    as (links' & Hres1).
  rewrite walk_cons, Hbdot, Hbdd, get_app, Hget1 in Hres1.
  cbn [Tree.get Tree.entry] in Hres1.
  exists (with_root w1 (Tree.put (root w1) (p ++ [b]) (Dir []))).
  assert (Hleaf : mkdir name w1 =
            (Ok tt, with_root w1 (Tree.put (root w1) (p ++ [b]) (Dir [])))).
  { unfold mkdir, Kernel.mkdir. now rewrite Hres1. }
  destruct (mkdir_isdir _ _ _ Hwf1 Hleaf) as (Hwf2 & Hd2).
  split; [|split; [reflexivity|split; [exact Hwf2|split; [|exact Hd2]]]].
  - unfold makedirs. rewrite makedirs_rec_S. cbv zeta.
    fold name. fold head. rewrite Htail, Hbe. cbv iota.
    rewrite He, Hbe.
    assert (Hex : exists_ w head = false).
    { unfold exists_, stat. rewrite Hhead.
      rewrite (resolve_follow w true sd _ Habs); [reflexivity|discriminate]. }
    rewrite Hex. cbn [negb andb].
    destruct (String.length name) as [|n] eqn:Hlen.
    { destruct name; discriminate. }
    rewrite Hstep, Hbdot. unfold mkdir_leaf. now rewrite Hleaf.
  - apply (mkdir_keeps_dirs name w1 _ sd Hwf1 Hleaf).
    apply isdir_true. exists p, []. exact Hsd1.
Qed.

End MakedirsFacts.

(** ** Consequences of the shapes *)

Section ShapeFacts.

Import Hooks.

Lemma loop_log_aborts src dst symlinks ignore items l r :
  loop_log src dst symlinks ignore items l r -> aborts l r.
Proof.
  induction 1 as [|item items d' l r _ IH|item items e
                  |item items d' l r _ IH|item items e].
  - constructor.
  - destruct r as [[]|e]; simpl in *.
    + repeat constructor. exact IH.
    + destruct IH as (l1 & c & -> & Hl1).
      eexists (_ :: _ :: l1), c. split; [reflexivity|].
      repeat constructor. exact Hl1.
  - eexists [(Isdir (os_path_join src item), Returned (RBool true))], _.
    split; [reflexivity|]. repeat constructor.
  - destruct r as [[]|e]; simpl in *.
    + repeat constructor. exact IH.
    + destruct IH as (l1 & c & -> & Hl1).
      eexists (_ :: _ :: l1), c. split; [reflexivity|].
      repeat constructor. exact Hl1.
  - eexists [(Isdir (os_path_join src item), Returned (RBool false))], _.
    split; [reflexivity|]. repeat constructor.
Qed.

Lemma aborts_cons c v l r :
  aborts l r -> aborts ((c, Returned v) :: l) r.
Proof.
  destruct r as [[]|e]; simpl.
  - intros H. constructor; [exact I|exact H].
  - intros (l1 & c' & -> & Hl1). exists ((c, Returned v) :: l1), c'.
    split; [reflexivity|]. constructor; [exact I|exact Hl1].
Qed.

Lemma aborts_single c e : aborts [(c, Raised e)] (Raise e).
Proof. exists [], c. split; [reflexivity|constructor]. Qed.

Lemma tree_log_aborts src dst symlinks ignore l r :
  tree_log src dst symlinks ignore l r -> aborts l r.
Proof.
  intros [e|items l' r' H].
  - apply aborts_single.
  - apply aborts_cons. eapply loop_log_aborts, H.
Qed.

Lemma dir_log_aborts dir_path sd l r : dir_log dir_path sd l r -> aborts l r.
Proof.
  intros [e|l' r' H].
  - apply aborts_single.
  - apply aborts_cons. eapply tree_log_aborts, H.
Qed.

Lemma hook_log_aborts sd l r : hook_log sd l r -> aborts l r.
Proof.
  intros [l' e H|l1 l2 r' H1 H2].
  - eapply dir_log_aborts, H.
  - apply dir_log_aborts in H1, H2. simpl in H1.
    destruct r' as [[]|e]; simpl in *.
    + apply Forall_app. now split.
    + destruct H2 as (l3 & c & -> & Hl3). exists (l1 ++ l3), c.
      split; [now rewrite app_assoc|]. apply Forall_app. now split.
Qed.

(** The calls of a loop read under [src] and write under [dst], item by
    item under the same name. *)
Lemma loop_log_calls src dst symlinks ignore items l r :
  loop_log src dst symlinks ignore items l r ->
  Forall (fun ev : event =>
            exists item,
              ev.1 = Isdir (Path.join src item) \/
              ev.1 = Copytree (Path.join src item) (Path.join dst item)
                       symlinks ignore \/
              ev.1 = Copy2 (Path.join src item) (Path.join dst item)) l.
Proof.
  induction 1 as [|item items d' l r _ IH|item items e
                  |item items d' l r _ IH|item items e];
    repeat (constructor; [exists item; simpl; auto|]);
    try exact IH; constructor.
Qed.

Lemma dir_log_calls dir_path sd l r :
  dir_log dir_path sd l r ->
  Forall (fun ev : event => job_call dir_path (source_of dir_path) sd ev.1) l.
Proof.
  intros [e|l' r' H].
  - constructor; [|constructor]. now left.
  - constructor; [now left|].
    destruct H as [e|items l0 r0 H].
    + constructor; [|constructor]. right. now left.
    + constructor; [right; now left|].
      apply loop_log_calls in H. eapply Forall_impl; [exact H|].
      intros ev (item & Hev). right. right. exists item. exact Hev.
Qed.

Lemma dir_log_head dir_path sd l r :
  dir_log dir_path sd l r ->
  exists o l',
    l = (Makedirs (Path.join sd dir_path) true, o) :: l' /\
    (l' <> [] -> o = Returned RNone) /\
    Forall (fun ev : event => forall n b, ev.1 <> Makedirs n b) l'.
Proof.
  intros [e|l' r' H].
  - eexists _, []. split; [reflexivity|]. split; [congruence|constructor].
  - eexists _, l'. split; [reflexivity|]. split; [reflexivity|].
    destruct H as [e|items l0 r0 H].
    + constructor; [discriminate|constructor].
    + constructor; [discriminate|].
      apply loop_log_calls in H. eapply Forall_impl; [exact H|].
      intros ev (item & [->|[->| ->]]); discriminate.
Qed.

End ShapeFacts.

(** ** The library calls at the places hooks.py makes them *)

Section CallFacts.

Import Kernel PyLib Hooks.

Lemma os_makedirs_eq name exist_ok w :
  os_makedirs name exist_ok w =
  ((makedirs name exist_ok (files w)).1,
   {| files := (makedirs name exist_ok (files w)).2;
      log := log w ++ [(Makedirs name exist_ok,
                        outcome_of (fun _ => RNone)
                          (makedirs name exist_ok (files w)).1)] |}).
Proof. apply invoke_eq. Qed.

Lemma os_listdir_eq path w :
  os_listdir path w =
  ((listdir path (files w)).1,
   {| files := (listdir path (files w)).2;
      log := log w ++ [(Listdir path,
                        outcome_of RList (listdir path (files w)).1)] |}).
Proof. apply invoke_eq. Qed.

Lemma listdir_files path s : (listdir path s).2 = s.
Proof. unfold listdir. now destruct (scandir s path). Qed.

(** Listing a name the working directory does not hold raises
    [FileNotFoundError]. *)
Lemma listdir_missing w name :
  plain_name name = true ->
  missing w name ->
  listdir name w = (Raise (FileNotFoundError name), w).
Proof.
  intros Hn Hm. destruct (plain_name_inv name Hn) as (He & Hs & Hd & Hdd).
  unfold listdir, scandir, resolve.
  rewrite He, (no_sep_startswith name Hs), (components_no_sep name Hs He).
  rewrite walk_cons, Hd, Hdd. unfold missing in Hm. rewrite Hm. reflexivity.
Qed.

(** A directory made under a site directory: the site directory is one. *)
Lemma isdir_join_parent w sd b :
  wf w ->
  plain_name b = true ->
  Path.is_empty sd = false ->
  isdir w (Path.join sd b) = true ->
  isdir w sd = true.
Proof.
  intros Hwf Hb Hsd Hd. destruct (plain_name_inv b Hb) as (He & Hs & _).
  apply isdir_true in Hd. destruct Hd as (p & es & Hd).
  destruct (resolve_under w true sd b (Path.join sd b) _ Hwf Hsd
              (join_startswith sd b Hsd Hs) (components_join sd b Hb) Hd)
    as (q & es' & _ & Hq & _).
  apply isdir_true. exists q, es'. exact Hq.
Qed.

(** [os.makedirs] for a copy job whose site directory exists and does not
    hold the name [b]: the directory [b] is made in it. *)
Lemma makedirs_in_dir sd b w q es :
  wf w ->
  plain_name b = true ->
  resolve w true sd = Ok (Present q (Dir es)) ->
  Tree.get (root w) (q ++ [b]) = None ->
  makedirs (Path.join sd b) true w =
  (Ok tt, with_root w (Tree.put (root w) (q ++ [b]) (Dir []))).
Proof.
  intros Hwf Hb Hq Hfree.
  destruct (plain_name_inv b Hb) as (Hbe & Hbs & Hbdot & Hbdd).
  pose proof (resolve_nonempty _ _ _ _ Hq) as Hsd.
  destruct (split_join sd b Hb) as (Htail & Hc & He & Hs).
  specialize (Hs Hsd). rewrite Hsd in He.
  destruct (resolve_over w false sd b (Path.join sd b) q es Hwf Hsd
              (join_nonempty sd b Hbe) (join_startswith sd b Hsd Hbs)
              (components_join sd b Hb) Hq) as (links' & Hres).
  rewrite walk_cons, Hbdot, Hbdd, Hfree in Hres.
  unfold makedirs. rewrite makedirs_rec_S. cbv zeta.
  rewrite Htail, Hbe. cbv iota. rewrite He, Hbe.
  assert (Hex : exists_ w (Path.split (Path.join sd b)).1 = true).
  { apply exists_true. exists q, (Dir es). rewrite <- Hq.
    apply resolve_ext; [exact Hc|exact Hs|]. now rewrite He, Hsd. }
  rewrite Hex. cbn [negb andb].
  unfold mkdir_leaf, mkdir, Kernel.mkdir. rewrite Hres. reflexivity.
Qed.

Lemma basename_join sd b :
  plain_name b = true -> Path.basename (Path.join sd b) = b.
Proof. intros Hb. now destruct (split_join sd b Hb) as (Htail & _). Qed.

Lemma join_dist_demos sd : Path.join sd "dist" <> Path.join sd "demos".
Proof.
  intros H. apply (f_equal Path.basename) in H.
  rewrite !basename_join in H by reflexivity. discriminate.
Qed.

End CallFacts.


(** ** Writing below a destination *)

Section FrameFacts.

Import Kernel PyLib.

Lemma set_entry_same c n es :
  Tree.entry c es = Some n -> Tree.set_entry c n es = es.
Proof.
  induction es as [|[k x] es IH]; simpl; [discriminate|].
  destruct (String.eqb_spec c k) as [->|Hne].
  - now intros [= ->].
  - intros H. now rewrite IH.
Qed.

(** [put] stores the node, or the place has no directory above it and the
    tree stays as it is. *)
Lemma put_effect p : forall r x,
  Tree.put r p x = r \/ Tree.get (Tree.put r p x) p = Some x.
Proof.
  induction p as [|c p IH]; intros r x; [now right|]. simpl.
  destruct r as [d m|es|t]; try now left.
  destruct (Tree.entry c es) as [n|] eqn:E.
  - destruct (IH n x) as [H|H].
    + left. rewrite H. now rewrite set_entry_same.
    + right. simpl. now rewrite entry_set_entry_eq.
  - destruct p as [|c' p]; [|now left].
    right. simpl. now rewrite entry_set_entry_eq.
Qed.

Lemma get_put_other p : forall r x q,
  ~ p `prefix_of` q -> ~ q `prefix_of` p ->
  Tree.get (Tree.put r p x) q = Tree.get r q.
Proof.
  induction p as [|c p IH]; intros r x q Hpq Hqp.
  - exfalso. apply Hpq. apply prefix_nil.
  - destruct q as [|c' q]; [exfalso; apply Hqp; apply prefix_nil|].
    simpl. destruct r as [d m|es|t]; try reflexivity.
    destruct (Tree.entry c es) as [n|] eqn:E.
    + simpl. destruct (String.eqb_spec c c') as [->|Hne].
      * rewrite entry_set_entry_eq, E. apply IH.
        -- intros H. apply Hpq. now apply prefix_cons.
        -- intros H. apply Hqp. now apply prefix_cons.
      * now rewrite entry_set_entry_ne.
    + destruct p as [|c0 p]; [|reflexivity].
      simpl. destruct (String.eqb_spec c c') as [->|Hne].
      * exfalso. apply Hpq. exists q. reflexivity.
      * now rewrite entry_set_entry_ne.
Qed.

(** A leaf stored at a free name changes no path but that name and the
    directories above it. *)
Lemma get_put_free p r x q :
  Tree.get r p = None -> fresh_leaf x -> ~ q `prefix_of` p ->
  Tree.get (Tree.put r p x) q = Tree.get r q.
Proof.
  intros Hp Hx Hqp.
  destruct (decide (p `prefix_of` q)) as [ [k ->] | Hpq ];
    [|now apply get_put_other].
  destruct k as [|c k].
  { exfalso. apply Hqp. rewrite app_nil_r. reflexivity. }
  rewrite !get_app, Hp.
  destruct (put_effect p r x) as [ -> | -> ]; [now rewrite Hp|].
  now apply get_fresh_leaf.
Qed.

Lemma outside_refl D r : outside D r r.
Proof. intros q _ _. reflexivity. Qed.

Lemma outside_trans D r1 r2 r3 :
  outside D r1 r2 -> outside D r2 r3 -> outside D r1 r3.
Proof. intros H1 H2 q Ha Hb. now rewrite H2, H1. Qed.

Lemma keeps_dirs_refl w : keeps_dirs w w.
Proof. intros path q es H. exists es. exact H. Qed.

Lemma keeps_dirs_trans w1 w2 w3 :
  keeps_dirs w1 w2 -> keeps_dirs w2 w3 -> keeps_dirs w1 w3.
Proof.
  intros H1 H2 path q es H. destruct (H1 _ _ _ H) as (es' & H').
  exact (H2 _ _ _ H').
Qed.

Lemma grows_refl D w : tidy D w -> grows D w w.
Proof.
  intros H. split; [exact H|]. split; [apply outside_refl|apply keeps_dirs_refl].
Qed.

Lemma grows_trans D w1 w2 w3 :
  grows D w1 w2 -> grows D w2 w3 -> grows D w1 w3.
Proof.
  intros (_ & Ho1 & Hk1) (Ht & Ho2 & Hk2). split; [exact Ht|]. split.
  - exact (outside_trans _ _ _ _ Ho1 Ho2).
  - exact (keeps_dirs_trans _ _ _ Hk1 Hk2).
Qed.

End FrameFacts.

Section FrameWrites.

Import Kernel PyLib.

Lemma resolve_present w follow path p n :
  resolve w follow path = Ok (Present p n) -> Tree.get (root w) p = Some n.
Proof.
  unfold resolve. destruct (Path.is_empty path); [discriminate|].
  apply walk_present.
Qed.

Lemma resolve_writable w follow path p :
  wf w ->
  (resolve w follow path = Ok (Absent p) \/
   exists d m, resolve w follow path = Ok (Present p (File d m))) ->
  writable (root w) p.
Proof.
  intros Hwf [H|(d & m & H)].
  - left. now destruct (resolve_absent _ _ _ _ Hwf H) as (? & ? & ? & _ & _ & ?).
  - right. apply resolve_present in H. exists d, m. exact H.
Qed.

Lemma same_kind_some o n :
  same_kind o (Some n) -> exists n0, o = Some n0 /\ same_kind (Some n0) (Some n).
Proof. destruct o as [n0|]; [intros H; exists n0; now split|]. now destruct n. Qed.

(** A file or an empty directory stored below [D], under a plain name. *)
Lemma write_grows D w path0 follow0 pd c x :
  tidy D w ->
  (resolve w follow0 path0 = Ok (Absent (pd ++ [c])) \/
   exists d m, resolve w follow0 path0 = Ok (Present (pd ++ [c]) (File d m))) ->
  D `prefix_of` (pd ++ [c]) ->
  plain_name c = true ->
  fresh_leaf x ->
  grows D w (with_root w (Tree.put (root w) (pd ++ [c]) x)).
Proof.
  intros (Hwf & Hnames & Hlinks) Hres HD Hc Hx.
  set (p := pd ++ [c]) in *.
  pose proof (resolve_writable _ _ _ _ Hwf Hres) as Hw.
  pose proof (put_agree p (root w) x Hw Hx) as Hag.
  destruct (resolve_put w path0 follow0 p x Hwf Hres Hx) as (Hwf' & Hget & Hsim).
  split; [split; [exact Hwf'|split]|split].
  - intros q0 c0 n Hn. cbn [root with_root] in Hn.
    destruct (decide (q0 ++ [c0] = p)) as [Heq|Hne].
    + apply app_inj_tail in Heq. destruct Heq as [_ ->]. exact Hc.
    + pose proof (Hag _ Hne) as Hk. rewrite Hn in Hk.
      destruct (same_kind_some _ _ Hk) as (n0 & Hn0 & _).
      exact (Hnames _ _ _ Hn0).
  - intros q t Hq Hn. cbn [root with_root] in Hn.
    destruct (decide (q = p)) as [->|Hne].
    + cbn [root with_root] in Hget. rewrite Hget in Hn. injection Hn as ->.
      exact Hx.
    + pose proof (Hag _ Hne) as Hk. rewrite Hn in Hk.
      destruct (same_kind_some _ _ Hk) as (n0 & Hn0 & Hk0).
      destruct n0 as [| |t0]; simpl in Hk0; try contradiction.
      exact (Hlinks _ _ Hq Hn0).
  - intros q Ha Hb. cbn [root with_root]. apply get_put_other.
    + intros Hpq. apply Ha. now transitivity p.
    + intros Hqp. destruct (prefix_weak_total _ _ _ HD Hqp) as [H|H];
        [now apply Ha|now apply Hb].
  - intros path q es Hq.
    destruct (Hsim _ _ _ Hq) as (res' & H' & [[-> _]|[_ (n' & -> & Hk)]]).
    + exfalso. apply resolve_present in Hq.
      destruct Hw as [Hw|(d & m & Hw)]; rewrite Hw in Hq; discriminate.
    + destruct n' as [| es' |]; simpl in Hk; try contradiction.
      exists es'. exact H'.
Qed.

(** The child [item] of a directory, when it is no link. *)
Lemma resolve_child w d pd es item follow :
  wf w ->
  resolve w true d = Ok (Present pd (Dir es)) ->
  plain_name item = true ->
  (forall t, Tree.get (root w) (pd ++ [item]) <> Some (Link t)) ->
  resolve w follow (Path.join d item) =
  match Tree.get (root w) (pd ++ [item]) with
  | None => Ok (Absent (pd ++ [item]))
  | Some n => Ok (Present (pd ++ [item]) n)
  end.
Proof.
  intros Hwf Hd Hi Hnl.
  destruct (plain_name_inv item Hi) as (He & Hs & Hdot & Hdd).
  pose proof (resolve_nonempty _ _ _ _ Hd) as Hne.
  destruct (resolve_over w follow d item (Path.join d item) pd es Hwf Hne
              (join_nonempty d item He) (join_startswith d item Hne Hs)
              (components_join d item Hi) Hd) as (links' & ->).
  rewrite walk_cons, Hdot, Hdd.
  destruct (Tree.get (root w) (pd ++ [item])) as [[dd m|es'|t]|] eqn:E;
    try reflexivity.
  - rewrite walk_nil, E. reflexivity.
  - now destruct (Hnl t).
Qed.

Lemma entry_in c (n : node) es : In (c, n) es -> exists n', Tree.entry c es = Some n'.
Proof.
  induction es as [|[k x] es IH]; simpl; [contradiction|].
  intros [[= -> ->]|H].
  - rewrite String.eqb_refl. eauto.
  - destruct (String.eqb c k); eauto.
Qed.

(** The names a directory scan returns are plain. *)
Lemma scandir_plain w path es :
  names_ok (root w) ->
  scandir w path = Ok es ->
  Forall (fun e : string * kind => plain_name e.1 = true) es.
Proof.
  intros Hnames. unfold scandir.
  destruct (resolve w true path) as [[q [d m|es0|t]|q]|e] eqn:E;
    try discriminate.
  intros [= <-]. apply resolve_present in E.
  apply Forall_forall. intros [c k] Hin.
  apply list_elem_of_In, in_map_iff in Hin. destruct Hin as ([c0 n0] & [= -> _] & Hin).
  destruct (entry_in _ _ _ Hin) as (n' & Hn').
  apply (Hnames q c n'). now rewrite get_app, E; simpl; rewrite Hn'.
Qed.

End FrameWrites.

Section FrameCopies.

Import Kernel PyLib.

Lemma prefix_snoc (D pd : list string) c : D `prefix_of` pd -> D `prefix_of` (pd ++ [c]).
Proof. intros [k ->]. exists (k ++ [c]). now rewrite app_assoc. Qed.

(** A store to the child [c] of a directory at or below [D]. *)
Lemma store_grows D w dst pd c data m w' :
  tidy D w ->
  resolve w true dst =
    match Tree.get (root w) (pd ++ [c]) with
    | None => Ok (Absent (pd ++ [c]))
    | Some n => Ok (Present (pd ++ [c]) n)
    end ->
  D `prefix_of` (pd ++ [c]) ->
  plain_name c = true ->
  store w dst data m = Ok w' ->
  grows D w w'.
Proof.
  intros Ht Hres HD Hc Hs.
  destruct (store_ok _ _ _ _ _ Hs) as (p & Hp & ->).
  assert (Heq : p = pd ++ [c]).
  { destruct (Tree.get (root w) (pd ++ [c])) as [n|];
      destruct Hp as [Hp|(d0 & m0 & Hp)]; rewrite Hp in Hres;
      now injection Hres. }
  subst p. exact (write_grows D w dst true pd c (File data m) Ht Hp HD Hc I).
Qed.

Lemma copy2_grows D w s d pd es item r w' :
  tidy D w ->
  resolve w true d = Ok (Present pd (Dir es)) ->
  D `prefix_of` pd ->
  plain_name item = true ->
  copy2 (Path.join s item) (Path.join d item) w = (r, w') ->
  grows D w w'.
Proof.
  intros Ht Hd HD Hi. pose proof Ht as (Hwf & Hnames & Hlinks).
  assert (Hnl : forall t, Tree.get (root w) (pd ++ [item]) <> Some (Link t)).
  { intros t. apply Hlinks. now apply prefix_snoc. }
  pose proof (resolve_child w d pd es item true Hwf Hd Hi Hnl) as Hres.
  unfold copy2. rewrite (basename_join s item Hi).
  assert (Hcases :
    (isdir w (Path.join d item) = false) \/
    (isdir w (Path.join d item) = true /\
     exists es', resolve w true (Path.join d item) =
                 Ok (Present (pd ++ [item]) (Dir es')))).
  { unfold isdir, stat. rewrite Hres.
    destruct (Tree.get (root w) (pd ++ [item])) as [[dd m|es'|t]|] eqn:E;
      try (now left).
    right. split; [reflexivity|]. exists es'. reflexivity. }
  destruct Hcases as [Hnd|(Hyd & es' & Hsub)].
  - rewrite Hnd.
    destruct (samefile w (Path.join s item) (Path.join d item)).
    { intros [= _ <-]. now apply grows_refl. }
    destruct (Kernel.read w (Path.join s item)) as [[data m]|e].
    2:{ intros [= _ <-]. now apply grows_refl. }
    destruct (store w (Path.join d item) data m) as [w1|e] eqn:Hs.
    2:{ intros [= _ <-]. now apply grows_refl. }
    intros [= _ <-].
    exact (store_grows D w _ pd item data m w1 Ht Hres
             (prefix_snoc _ _ _ HD) Hi Hs).
  - rewrite Hyd.
    assert (Hnl2 : forall t,
               Tree.get (root w) ((pd ++ [item]) ++ [item]) <> Some (Link t)).
    { intros t. apply Hlinks. now apply prefix_snoc, prefix_snoc. }
    pose proof (resolve_child w (Path.join d item) (pd ++ [item]) es' item
                  true Hwf Hsub Hi Hnl2) as Hres2.
    destruct (samefile w (Path.join s item)
                (Path.join (Path.join d item) item)).
    { intros [= _ <-]. now apply grows_refl. }
    destruct (Kernel.read w (Path.join s item)) as [[data m]|e].
    2:{ intros [= _ <-]. now apply grows_refl. }
    destruct (store w (Path.join (Path.join d item) item) data m)
      as [w1|e] eqn:Hs.
    2:{ intros [= _ <-]. now apply grows_refl. }
    intros [= _ <-].
    exact (store_grows D w _ (pd ++ [item]) item data m w1 Ht Hres2
             (prefix_snoc _ _ _ (prefix_snoc _ _ _ HD)) Hi Hs).
Qed.

(** [os.makedirs] for the child [name] of an existing directory: at most
    one directory is made, the child itself. *)
Lemma makedirs_under D w d pd es name exist_ok r w' :
  tidy D w ->
  resolve w true d = Ok (Present pd (Dir es)) ->
  D `prefix_of` (pd ++ [name]) ->
  plain_name name = true ->
  makedirs (Path.join d name) exist_ok w = (r, w') ->
  grows D w w' /\
  (r = Ok tt ->
   exists es',
     resolve w' true (Path.join d name) = Ok (Present (pd ++ [name]) (Dir es'))).
Proof.
  intros Ht Hd HD Hb Hrun. pose proof Ht as (Hwf & Hnames & Hlinks).
  destruct (plain_name_inv name Hb) as (Hbe & Hbs & Hbdot & Hbdd).
  pose proof (resolve_nonempty _ _ _ _ Hd) as Hsd.
  destruct (split_join d name Hb) as (Htail & Hc & He & Hs).
  specialize (Hs Hsd). rewrite Hsd in He.
  assert (Hnl : forall t, Tree.get (root w) (pd ++ [name]) <> Some (Link t)).
  { intros t. now apply Hlinks. }
  pose proof (resolve_child w d pd es name false Hwf Hd Hb Hnl) as Hlres.
  pose proof (resolve_child w d pd es name true Hwf Hd Hb Hnl) as Hsres.
  revert Hrun. unfold makedirs. rewrite makedirs_rec_S. cbv zeta.
  rewrite Htail, Hbe. cbv iota. rewrite He, Hbe.
  assert (Hex : exists_ w (Path.split (Path.join d name)).1 = true).
  { apply exists_true. exists pd, (Dir es). rewrite <- Hd.
    apply resolve_ext; [exact Hc|exact Hs|]. now rewrite He, Hsd. }
  rewrite Hex. cbn [negb andb].
  unfold mkdir_leaf, mkdir, Kernel.mkdir. rewrite Hlres.
  destruct (Tree.get (root w) (pd ++ [name])) as [n|] eqn:E.
  - assert (Hsame : isdir w (Path.join d name) = true ->
                    exists es', resolve w true (Path.join d name) =
                                Ok (Present (pd ++ [name]) (Dir es'))).
    { unfold isdir, stat. rewrite Hsres.
      destruct n as [dd m|es'|t]; try discriminate.
      intros _. exists es'. reflexivity. }
    destruct (negb exist_ok || negb (isdir w (Path.join d name))) eqn:Hc2.
    + intros [= <- <-]. split; [now apply grows_refl|discriminate].
    + intros [= <- <-]. split; [now apply grows_refl|]. intros _.
      apply Hsame. apply orb_false_iff in Hc2. destruct Hc2 as [_ Hc2].
      now apply negb_false_iff in Hc2.
  - intros [= <- <-].
    assert (Hres : resolve w false (Path.join d name) = Ok (Absent (pd ++ [name]))
                   \/ exists d0 m0, resolve w false (Path.join d name) =
                                    Ok (Present (pd ++ [name]) (File d0 m0)))
      by now left.
    split.
    + exact (write_grows D w _ false pd name (Dir []) Ht Hres HD Hb I).
    + intros _.
      destruct (resolve_put w (Path.join d name) false (pd ++ [name]) (Dir [])
                  Hwf Hres I) as (_ & _ & Hsim).
      destruct (Hsim _ _ _ Hsres) as (res' & H' & [[_ ->]|[Hne _]]).
      * exists []. exact H'.
      * exfalso. apply Hne. reflexivity.
Qed.

Lemma copytree_rec_S levels src dst symlinks ignore :
  copytree_rec (S levels) src dst symlinks ignore =
  (let* entries :=
     (fun w =>
        match Kernel.scandir w src with
        | Ok es => (Ok es, w)
        | Raise e => (Raise (OSError e src), w)
        end) in
   let ignored_names :=
     match ignore with
     | Some f => f src (map fst entries)
     | None => []
     end in
   let* _ := makedirs dst false in
   let* errors :=
     copytree_loop
       (fun s d => copytree_rec levels s d symlinks ignore)
       src dst symlinks ignored_names entries [] in
   match errors with
   | [] => ret dst
   | _ :: _ => raise (ShutilError errors)
   end).
Proof. reflexivity. Qed.

(** The loop of [_copytree], given that the recursive call grows the
    destination. *)
Lemma copytree_loop_grows D rec src dst pdst ignored :
  D `prefix_of` pdst ->
  (forall name w r w' es,
     tidy D w ->
     resolve w true dst = Ok (Present pdst (Dir es)) ->
     plain_name name = true ->
     rec (Path.join src name) (Path.join dst name) w = (r, w') ->
     grows D w w') ->
  forall entries errors w r w' es,
    Forall (fun e : string * kind => plain_name e.1 = true) entries ->
    tidy D w ->
    resolve w true dst = Ok (Present pdst (Dir es)) ->
    copytree_loop rec src dst false ignored entries errors w = (r, w') ->
    grows D w w'.
Proof.
  intros HD Hrec. induction entries as [|[name k] entries IH];
    intros errors w r w' es Hplain Ht Hdst; simpl.
  - intros [= _ <-]. now apply grows_refl.
  - inversion Hplain as [|? ? Hname Hrest]; subst. cbn [fst] in Hname.
    destruct (existsb (String.eqb name) ignored).
    { exact (IH errors w r w' es Hrest Ht Hdst). }
    destruct (copytree_entry rec false (Path.join src name)
                (Path.join dst name) k w) as [r1 w1] eqn:Hstep.
    assert (Hg1 : grows D w w1).
    { revert Hstep. unfold copytree_entry. destruct k.
      - exact (copy2_grows D w src dst pdst es name r1 w1 Ht Hdst HD Hname).
      - exact (Hrec name w r1 w1 es Ht Hdst Hname).
      - unfold bind at 1. unfold readlink.
        destruct (Kernel.readlink w (Path.join src name)).
        + destruct (isdir w (Path.join src name)).
          * exact (Hrec name w r1 w1 es Ht Hdst Hname).
          * exact (copy2_grows D w src dst pdst es name r1 w1 Ht Hdst HD Hname).
        + intros [= _ <-]. now apply grows_refl. }
    destruct (collect (Path.join src name) (Path.join dst name) errors r1)
      as [errors'|e].
    + intros Hloop. destruct Hg1 as (Ht1 & Ho1 & Hk1).
      destruct (Hk1 _ _ _ Hdst) as (es1 & Hdst1).
      pose proof (IH errors' w1 r w' es1 Hrest Ht1 Hdst1 Hloop) as Hg2.
      exact (grows_trans D w w1 w' (conj Ht1 (conj Ho1 Hk1)) Hg2).
    + intros [= _ <-]. exact Hg1.
Qed.

(** [shutil.copytree] with [symlinks=False] into the child [name] of a
    directory at or below [D] writes at or below [D] only. *)
Lemma copytree_rec_grows D levels : forall src d pd es name ignore w r w',
  tidy D w ->
  resolve w true d = Ok (Present pd (Dir es)) ->
  D `prefix_of` pd ->
  plain_name name = true ->
  copytree_rec levels src (Path.join d name) false ignore w = (r, w') ->
  grows D w w'.
Proof.
  induction levels as [|levels IH];
    intros src d pd es name ignore w r w' Ht Hd HD Hname.
  - intros [= _ <-]. now apply grows_refl.
  - rewrite copytree_rec_S. unfold bind at 1.
    destruct (scandir w src) as [entries|e] eqn:Hscan.
    2:{ intros [= _ <-]. now apply grows_refl. }
    pose proof (scandir_plain w src entries (proj1 (proj2 Ht)) Hscan) as Hplain.
    cbv zeta. unfold bind at 1.
    destruct (makedirs (Path.join d name) false w) as [[[]|e] w1] eqn:Hmk.
    2:{ intros [= _ <-].
        exact (proj1 (makedirs_under D w d pd es name false _ _ Ht Hd
                        (prefix_snoc _ _ _ HD) Hname Hmk)). }
    destruct (makedirs_under D w d pd es name false _ _ Ht Hd
                (prefix_snoc _ _ _ HD) Hname Hmk) as (Hg1 & Hdst).
    destruct (Hdst eq_refl) as (es1 & Hdst1).
    unfold bind at 1.
    destruct (copytree_loop _ src (Path.join d name) false _ entries [] w1)
      as [r2 w2] eqn:Hloop.
    assert (Hrec : forall name0 x rx x' es0,
               tidy D x ->
               resolve x true (Path.join d name) =
                 Ok (Present (pd ++ [name]) (Dir es0)) ->
               plain_name name0 = true ->
               copytree_rec levels (Path.join src name0)
                 (Path.join (Path.join d name) name0) false ignore x =
                 (rx, x') ->
               grows D x x').
    { intros name0 x rx x' es0 Hx Hdx Hn0 Hrun.
      exact (IH _ _ _ _ _ _ _ _ _ Hx Hdx (prefix_snoc _ _ _ HD) Hn0 Hrun). }
    pose proof (copytree_loop_grows D
                  (fun s d => copytree_rec levels s d false ignore)
                  src (Path.join d name) (pd ++ [name]) _
                  (prefix_snoc _ _ _ HD) Hrec entries [] w1 r2 w2 es1
                  Hplain (proj1 Hg1) Hdst1 Hloop) as Hg2.
    pose proof (grows_trans D w w1 w2 Hg1 Hg2) as Hg.
    destruct r2 as [[|? ?]|e]; intros [= _ <-]; exact Hg.
Qed.

End FrameCopies.

Section FrameHooks.

Import Kernel PyLib Hooks.

Lemma listdir_plain w src items w' :
  names_ok (root w) ->
  listdir src w = (Ok items, w') ->
  Forall (fun item => plain_name item = true) items /\ w' = w.
Proof.
  intros Hnames. unfold listdir.
  destruct (scandir w src) as [es|e] eqn:Hscan; [|discriminate].
  intros [= <- <-]. split; [|reflexivity].
  pose proof (scandir_plain w src es Hnames Hscan) as H.
  clear Hscan. induction es as [|[c k] es IH]; simpl; [constructor|].
  inversion H as [|? ? Hc Hes]; subst. constructor; [exact Hc|exact (IH Hes)].
Qed.

(** One item of the loop of [copy_tree], copied into a directory at or
    below [D]. *)
Lemma copy_item_grows D src dst pd es ignore item w r w' :
  D `prefix_of` pd ->
  plain_name item = true ->
  tidy D (files w) ->
  resolve (files w) true dst = Ok (Present pd (Dir es)) ->
  (let s := os_path_join src item in
   let d := os_path_join dst item in
   let* is_dir := os_path_isdir s in
   if is_dir then
     let* _ := shutil_copytree s d false ignore in ret tt
   else
     let* _ := shutil_copy2 s d in ret tt) w = (r, w') ->
  grows D (files w) (files w').
Proof.
  intros HD Hitem Ht Hdst. cbv zeta.
  unfold bind at 1. unfold os_path_isdir at 1. rewrite invoke_eq.
  cbn [fst snd].
  destruct (isdir (files w) (os_path_join src item)).
  - unfold bind at 1. unfold shutil_copytree at 1. rewrite invoke_eq.
    cbn [files].
    destruct (copytree (os_path_join src item) (os_path_join dst item)
                false ignore (files w)) as [rc s1] eqn:Hc.
    cbn [fst snd].
    unfold copytree, os_path_join in Hc.
    pose proof (copytree_rec_grows D copytree_levels (Path.join src item)
                  dst pd es item ignore (files w) rc s1 Ht Hdst HD Hitem Hc)
      as Hg.
    destruct rc as [a|e]; intros [= _ <-]; exact Hg.
  - unfold bind at 1. unfold shutil_copy2 at 1. rewrite invoke_eq.
    cbn [files].
    destruct (copy2 (os_path_join src item) (os_path_join dst item)
                (files w)) as [rc s1] eqn:Hc.
    cbn [fst snd].
    unfold os_path_join in Hc.
    pose proof (copy2_grows D (files w) src dst pd es item rc s1
                  Ht Hdst HD Hitem Hc) as Hg.
    destruct rc as [a|e]; intros [= _ <-]; exact Hg.
Qed.

(** The loop of [copy_tree] into a directory at or below [D]. *)
Lemma copy_loop_grows D src dst pd ignore :
  D `prefix_of` pd ->
  forall items w r w' es,
    Forall (fun item => plain_name item = true) items ->
    tidy D (files w) ->
    resolve (files w) true dst = Ok (Present pd (Dir es)) ->
    for_each items (fun item =>
      let s := os_path_join src item in
      let d := os_path_join dst item in
      let* is_dir := os_path_isdir s in
      if is_dir then
        let* _ := shutil_copytree s d false ignore in ret tt
      else
        let* _ := shutil_copy2 s d in ret tt) w = (r, w') ->
    grows D (files w) (files w').
Proof.
  intros HD. induction items as [|item items IH];
    intros w r w' es Hplain Ht Hdst.
  - intros [= _ <-]. now apply grows_refl.
  - inversion Hplain as [|? ? Hitem Hrest]; subst.
    cbn [for_each]. unfold bind at 1.
    destruct ((let s := os_path_join src item in
               let d := os_path_join dst item in
               let* is_dir := os_path_isdir s in
               if is_dir then
                 let* _ := shutil_copytree s d false ignore in ret tt
               else
                 let* _ := shutil_copy2 s d in ret tt) w) as [r1 w1] eqn:Hbody.
    pose proof (copy_item_grows D src dst pd es ignore item w r1 w1
                  HD Hitem Ht Hdst Hbody) as Hg1.
    destruct r1 as [[]|e].
    + intros Hrun. destruct Hg1 as (Ht1 & Ho1 & Hk1).
      destruct (Hk1 _ _ _ Hdst) as (es1 & Hdst1).
      exact (grows_trans D _ _ _ (conj Ht1 (conj Ho1 Hk1))
               (IH w1 r w' es1 Hrest Ht1 Hdst1 Hrun)).
    + intros [= _ <-]. exact Hg1.
Qed.

Lemma copy_tree_grows D src dst pd es ignore w r w' :
  D `prefix_of` pd ->
  tidy D (files w) ->
  resolve (files w) true dst = Ok (Present pd (Dir es)) ->
  copy_tree src dst false ignore w = (r, w') ->
  grows D (files w) (files w').
Proof.
  intros HD Ht Hdst. unfold copy_tree. unfold bind at 1.
  rewrite os_listdir_eq.
  destruct (listdir src (files w)) as [[items|e] s1] eqn:Hl; cbn [fst snd].
  - destruct (listdir_plain _ _ _ _ (proj1 (proj2 Ht)) Hl) as (Hplain & ->).
    intros Hrun.
    exact (copy_loop_grows D src dst pd ignore HD items
             {| files := files w;
                log := log w ++ [(Listdir src, outcome_of RList (Ok items))] |}
             r w' es Hplain Ht Hdst Hrun).
  - pose proof (listdir_files src (files w)) as Hs. rewrite Hl in Hs.
    cbn [snd] in Hs. subst s1. intros [= _ <-]. now apply grows_refl.
Qed.

(** A copy job whose site directory exists writes in its destination
    only. *)
Lemma copy_directory_grows dir_path sd q es w r w' :
  plain_name dir_path = true ->
  tidy (q ++ [dir_path]) (files w) ->
  resolve (files w) true sd = Ok (Present q (Dir es)) ->
  copy_directory dir_path (PStr sd) w = (r, w') ->
  grows (q ++ [dir_path]) (files w) (files w').
Proof.
  intros Hb Ht Hsd. unfold copy_directory. cbn [os_path_join_val].
  unfold bind at 1. unfold ret at 1. unfold bind at 1.
  rewrite os_makedirs_eq.
  destruct (makedirs (Path.join sd dir_path) true (files w))
    as [rm s1] eqn:Hmk. cbn [fst snd].
  destruct (makedirs_under (q ++ [dir_path]) (files w) sd q es dir_path true
              rm s1 Ht Hsd ltac:(reflexivity) Hb Hmk) as (Hg1 & Hdst).
  destruct rm as [[]|e].
  - destruct (Hdst eq_refl) as (es1 & Hdst1). intros Hrun.
    refine (grows_trans _ _ _ _ Hg1 _).
    refine (copy_tree_grows (q ++ [dir_path]) _ _ (q ++ [dir_path]) es1 None
              _ r w' ltac:(reflexivity) _ _ Hrun).
    + exact (proj1 Hg1).
    + exact Hdst1.
  - intros [= _ <-]. exact Hg1.
Qed.

End FrameHooks.

Section FrameFresh.

Import Kernel PyLib Hooks.

Lemma fields_no_sep_all p : Forall (fun f => Path.has_sep f = false) (Path.fields p).
Proof.
  induction p as [|c p IH]; simpl; [repeat constructor|].
  destruct (Path.is_sep c) eqn:Hc; [constructor; [reflexivity|exact IH]|].
  destruct (Path.fields p) as [|f fs]; [repeat constructor; simpl; now rewrite Hc|].
  inversion IH as [|? ? Hf Hfs]; subst. constructor; [|exact Hfs].
  simpl. now rewrite Hc, Hf.
Qed.

Lemma components_ok p :
  Forall (fun c => Path.is_empty c = false /\ Path.has_sep c = false)
         (Path.components p).
Proof.
  unfold Path.components. pose proof (fields_no_sep_all p) as H.
  induction H as [|f fs Hf _ IH]; simpl; [constructor|].
  destruct (Path.is_empty f) eqn:E; simpl; [exact IH|].
  constructor; [now split|exact IH].
Qed.

(** The free name a resolution reports is a plain one. *)
Lemma walk_absent_plain links r : forall follow cur cs p,
  Forall (fun c => Path.is_empty c = false /\ Path.has_sep c = false) cs ->
  walk links r follow cur cs = Ok (Absent p) ->
  exists q c, p = q ++ [c] /\ plain_name c = true.
Proof.
  induction links as [links IHl] using lt_wf_ind.
  intros follow cur cs. revert cur.
  induction cs as [|c rest IH]; intros cur p Hok.
  - rewrite walk_nil. destruct (Tree.get r cur); discriminate.
  - inversion Hok as [|? ? [Hce Hcs] Hrest]; subst. rewrite walk_cons.
    destruct (String.eqb c ".") eqn:Hdot; [now apply IH|].
    destruct (String.eqb c "..") eqn:Hdd; [now apply IH|].
    destruct (Tree.get r (cur ++ [c])) as [[d m|es|t]|] eqn:E.
    + destruct rest; discriminate.
    + now apply IH.
    + assert (Hfollow :
        match links with
        | O => Raise ELOOP
        | S links' =>
            if Path.is_empty t then Raise ENOENT
            else walk links' r follow
                   (if Path.startswith_sep t then [] else cur)
                   (Path.components t ++ rest)
        end = Ok (Absent p) ->
        exists q c, p = q ++ [c] /\ plain_name c = true).
      { destruct links as [|links']; [discriminate|].
        destruct (Path.is_empty t); [discriminate|]. apply IHl; [lia|].
        apply Forall_app. split; [apply components_ok|exact Hrest]. }
      destruct rest, follow; try exact Hfollow. discriminate.
    + destruct rest; [|discriminate]. intros [= <-].
      exists cur, c. split; [reflexivity|].
      unfold plain_name. now rewrite Hce, Hcs, Hdot, Hdd.
Qed.

Lemma resolve_absent_plain w follow path p :
  resolve w follow path = Ok (Absent p) ->
  exists q c, p = q ++ [c] /\ plain_name c = true.
Proof.
  unfold resolve. destruct (Path.is_empty path); [discriminate|].
  apply walk_absent_plain, components_ok.
Qed.

(** A file or an empty directory stored under a plain name keeps the file
    system tidy, wherever it is stored. *)
Lemma write_tidy D w path0 follow0 pd c x :
  tidy D w ->
  (resolve w follow0 path0 = Ok (Absent (pd ++ [c])) \/
   exists d m, resolve w follow0 path0 = Ok (Present (pd ++ [c]) (File d m))) ->
  plain_name c = true ->
  fresh_leaf x ->
  tidy D (with_root w (Tree.put (root w) (pd ++ [c]) x)).
Proof.
  intros (Hwf & Hnames & Hlinks) Hres Hc Hx.
  set (p := pd ++ [c]) in *.
  pose proof (resolve_writable _ _ _ _ Hwf Hres) as Hw.
  pose proof (put_agree p (root w) x Hw Hx) as Hag.
  destruct (resolve_put w path0 follow0 p x Hwf Hres Hx) as (Hwf' & Hget & _).
  split; [exact Hwf'|split].
  - intros q0 c0 n Hn. cbn [root with_root] in Hn.
    destruct (decide (q0 ++ [c0] = p)) as [Heq|Hne].
    + apply app_inj_tail in Heq. destruct Heq as [_ ->]. exact Hc.
    + pose proof (Hag _ Hne) as Hk. rewrite Hn in Hk.
      destruct (same_kind_some _ _ Hk) as (n0 & Hn0 & _).
      exact (Hnames _ _ _ Hn0).
  - intros q t Hq Hn. cbn [root with_root] in Hn.
    destruct (decide (q = p)) as [->|Hne].
    + cbn [root with_root] in Hget. rewrite Hget in Hn. injection Hn as ->.
      exact Hx.
    + pose proof (Hag _ Hne) as Hk. rewrite Hn in Hk.
      destruct (same_kind_some _ _ Hk) as (n0 & Hn0 & Hk0).
      destruct n0 as [| |t0]; simpl in Hk0; try contradiction.
      exact (Hlinks _ _ Hq Hn0).
Qed.

Lemma get_below_absent r q k : Tree.get r q = None -> Tree.get r (q ++ k) = None.
Proof. intros H. now rewrite get_app, H. Qed.

(** A copy job whose site directory is a free name in an existing
    directory: the site directory is made, and nothing is written in it but
    the destination of the job. *)
Lemma copy_directory_fresh dir_path sd q w r w' :
  plain_name dir_path = true ->
  wf (files w) ->
  names_ok (root (files w)) ->
  resolve (files w) false sd = Ok (Absent q) ->
  copy_directory dir_path (PStr sd) w = (r, w') ->
  outside (q ++ [dir_path]) (root (files w)) (root (files w')).
Proof.
  intros Hb Hwf Hnames Habs.
  set (D := q ++ [dir_path]).
  destruct (resolve_absent _ _ _ _ Hwf Habs) as (q0 & c0 & es0 & Hq & _ & Hfree).
  destruct (resolve_absent_plain _ _ _ _ Habs) as (q1 & c1 & Hq1 & Hc1).
  assert (Ht : tidy D (files w)).
  { split; [exact Hwf|]. split; [exact Hnames|].
    intros q' t [k ->] Hn. unfold D in Hn.
    rewrite <- app_assoc, (get_below_absent _ _ _ Hfree) in Hn. discriminate. }
  (* the site directory *)
  set (s1 := with_root (files w) (Tree.put (root (files w)) q (Dir []))).
  assert (Ht1 : tidy D s1).
  { unfold s1. rewrite Hq1. rewrite Hq1 in Habs.
    exact (write_tidy D (files w) sd false q1 c1 (Dir []) Ht (or_introl Habs)
             Hc1 I). }
  assert (Ho1 : outside D (root (files w)) (root s1)).
  { intros q' Ha Hb'. cbn [s1 root with_root]. apply get_put_free;
      [exact Hfree|exact I|].
    intros Hq'. apply Hb'. unfold D. now apply prefix_app_r. }
  destruct (resolve_put (files w) sd false q (Dir []) Hwf (or_introl Habs) I)
    as (_ & Hget1 & Hsim). fold s1 in Hget1, Hsim.
  assert (Hsd1 : resolve s1 true sd = Ok (Present q (Dir []))).
  { assert (Htrue : resolve (files w) true sd = Ok (Absent q))
      by (apply resolve_follow; [exact Habs|discriminate]).
    destruct (Hsim _ _ _ Htrue) as (res' & H' & [[_ ->]|[Hne _]]);
      [exact H'|exfalso; apply Hne; reflexivity]. }
  (* the destination of the job *)
  assert (Hfree1 : Tree.get (root s1) (q ++ [dir_path]) = None).
  { rewrite get_app, Hget1. reflexivity. }
  assert (Hnl1 : forall t, Tree.get (root s1) (q ++ [dir_path]) <> Some (Link t))
    by (intros t; rewrite Hfree1; discriminate).
  pose proof (resolve_child s1 sd q [] dir_path false (proj1 Ht1) Hsd1 Hb Hnl1)
    as Hl1. rewrite Hfree1 in Hl1.
  pose proof (resolve_child s1 sd q [] dir_path true (proj1 Ht1) Hsd1 Hb Hnl1)
    as Hr1. rewrite Hfree1 in Hr1.
  set (s2 := with_root s1 (Tree.put (root s1) (q ++ [dir_path]) (Dir []))).
  assert (Hg2 : grows D s1 s2).
  { exact (write_grows D s1 (Path.join sd dir_path) false q dir_path (Dir [])
             Ht1 (or_introl Hl1) ltac:(reflexivity) Hb I). }
  destruct (resolve_put s1 (Path.join sd dir_path) false (q ++ [dir_path])
              (Dir []) (proj1 Ht1) (or_introl Hl1) I) as (_ & _ & Hsim2).
  fold s2 in Hsim2.
  assert (Hdst2 : resolve s2 true (Path.join sd dir_path) =
                  Ok (Present (q ++ [dir_path]) (Dir []))).
  { destruct (Hsim2 _ _ _ Hr1) as (res' & H' & [[_ ->]|[Hne _]]);
      [exact H'|exfalso; apply Hne; reflexivity]. }
  destruct (makedirs_fresh sd dir_path (files w) q Hwf Hb Habs)
    as (s2' & Hmk & Hs2' & _).
  assert (Heq : s2' = s2) by (rewrite Hs2'; reflexivity).
  rewrite Heq in Hmk. clear Heq Hs2' s2'.
  unfold copy_directory. cbn [os_path_join_val].
  unfold bind at 1. unfold ret at 1. unfold bind at 1.
  rewrite os_makedirs_eq, Hmk. cbn [fst snd]. intros Hrun.
  pose proof (copy_tree_grows D _ _ (q ++ [dir_path]) [] None
                {| files := s2;
                   log := log w ++
                          [(Makedirs (Path.join sd dir_path) true,
                            outcome_of (fun _ : unit => RNone) (Ok tt))] |}
                r w' ltac:(reflexivity) (proj1 Hg2) Hdst2 Hrun) as Hg3.
  cbn [files] in Hg3.
  exact (outside_trans D _ _ _ Ho1
           (outside_trans D _ _ _ (proj1 (proj2 Hg2)) (proj1 (proj2 Hg3)))).
Qed.

End FrameFresh.

Section MissingSource.

Import Kernel PyLib Hooks.

(** [os.makedirs] for the child [name] of an existing directory changes
    nothing or makes that child, on any file system. *)
Lemma makedirs_at w d pd es name exist_ok r w' :
  wf w ->
  resolve w true d = Ok (Present pd (Dir es)) ->
  plain_name name = true ->
  makedirs (Path.join d name) exist_ok w = (r, w') ->
  w' = w \/
  (Tree.get (root w) (pd ++ [name]) = None /\
   w' = with_root w (Tree.put (root w) (pd ++ [name]) (Dir []))).
Proof.
  intros Hwf Hd Hb.
  destruct (plain_name_inv name Hb) as (Hbe & Hbs & Hbdot & Hbdd).
  pose proof (resolve_nonempty _ _ _ _ Hd) as Hsd.
  destruct (split_join d name Hb) as (Htail & Hc & He & Hs).
  specialize (Hs Hsd). rewrite Hsd in He.
  destruct (resolve_over w false d name (Path.join d name) pd es Hwf Hsd
              (join_nonempty d name Hbe) (join_startswith d name Hsd Hbs)
              (components_join d name Hb) Hd) as (links' & Hres).
  rewrite walk_cons, Hbdot, Hbdd in Hres.
  unfold makedirs. rewrite makedirs_rec_S. cbv zeta.
  rewrite Htail, Hbe. cbv iota. rewrite He, Hbe.
  assert (Hex : exists_ w (Path.split (Path.join d name)).1 = true).
  { apply exists_true. exists pd, (Dir es). rewrite <- Hd.
    apply resolve_ext; [exact Hc|exact Hs|]. now rewrite He, Hsd. }
  rewrite Hex. cbn [negb andb].
  unfold mkdir_leaf, mkdir, Kernel.mkdir. rewrite Hres.
  destruct (Tree.get (root w) (pd ++ [name])) as [[dd m|es'|t]|] eqn:E.
  - destruct (negb exist_ok || negb (isdir w (Path.join d name)));
      intros [= _ <-]; now left.
  - rewrite walk_nil, E.
    destruct (negb exist_ok || negb (isdir w (Path.join d name)));
      intros [= _ <-]; now left.
  - destruct (negb exist_ok || negb (isdir w (Path.join d name)));
      intros [= _ <-]; now left.
  - intros [= _ <-]. right. now split.
Qed.

(** A source that is missing stays missing while the destination of a job
    is made in an existing site directory. *)
Lemma makedirs_keeps_missing w sd q es b src r w' :
  wf w ->
  resolve w true sd = Ok (Present q (Dir es)) ->
  plain_name b = true ->
  cwd w ++ [src] <> q ++ [b] ->
  makedirs (Path.join sd b) true w = (r, w') ->
  missing w src ->
  missing w' src.
Proof.
  intros Hwf Hq Hb Hne Hmk Hm.
  destruct (makedirs_at w sd q es b true r w' Hwf Hq Hb Hmk) as [->|[Hfree ->]];
    [exact Hm|].
  unfold missing in *. cbn [root cwd with_root].
  assert (Hw : writable (root w) (q ++ [b])) by now left.
  pose proof (put_agree (q ++ [b]) (root w) (Dir []) Hw I (cwd w ++ [src]))
    as Hk.
  rewrite Hm in Hk.
  destruct (Tree.get (Tree.put (root w) (q ++ [b]) (Dir [])) (cwd w ++ [src]));
    [|reflexivity].
  exfalso. apply Hk. exact Hne.
Qed.

End MissingSource.

(** ** No link is made *)

Section LinkFacts.

Import Kernel PyLib Hooks.

Lemma no_new_links_refl w : wf w -> no_new_links w w.
Proof. intros H. split; [exact H|]. intros q t Hq. exact Hq. Qed.

Lemma no_new_links_trans w1 w2 w3 :
  no_new_links w1 w2 -> no_new_links w2 w3 -> no_new_links w1 w3.
Proof.
  intros [_ H1] [Hwf H2]. split; [exact Hwf|].
  intros q t Hq. exact (H1 q t (H2 q t Hq)).
Qed.

(** A file or an empty directory stored where a system call writes. *)
Lemma write_no_new_links w path0 follow0 p x :
  wf w ->
  (resolve w follow0 path0 = Ok (Absent p) \/
   exists d m, resolve w follow0 path0 = Ok (Present p (File d m))) ->
  fresh_leaf x ->
  no_new_links w (with_root w (Tree.put (root w) p x)).
Proof.
  intros Hwf Hres Hx.
  pose proof (resolve_writable _ _ _ _ Hwf Hres) as Hw.
  pose proof (put_agree p (root w) x Hw Hx) as Hag.
  destruct (resolve_put w path0 follow0 p x Hwf Hres Hx) as (Hwf' & Hget & _).
  split; [exact Hwf'|].
  intros q t Hn. cbn [root with_root] in Hn.
  destruct (decide (q = p)) as [->|Hne].
  - cbn [root with_root] in Hget. rewrite Hget in Hn. injection Hn as ->.
    contradiction.
  - pose proof (Hag _ Hne) as Hk. rewrite Hn in Hk.
    destruct (same_kind_some _ _ Hk) as (n0 & Hn0 & Hk0).
    destruct n0 as [| |t0]; simpl in Hk0; try contradiction.
    now subst t0.
Qed.

Lemma mkdir_leaf_no_new_links name exist_ok w r w' :
  wf w -> mkdir_leaf name exist_ok w = (r, w') -> no_new_links w w'.
Proof.
  intros Hwf. unfold mkdir_leaf.
  destruct (mkdir name w) as [[[]|e] w1] eqn:E.
  - intros [= _ <-]. destruct (mkdir_ok _ _ _ E) as (p & Hres & ->).
    exact (write_no_new_links w name false p (Dir []) Hwf (or_introl Hres) I).
  - apply mkdir_raise in E. subst w1.
    destruct (negb exist_ok || negb (isdir w name)); intros [= _ <-];
      now apply no_new_links_refl.
Qed.

Lemma makedirs_rec_no_new_links fuel : forall name exist_ok w r w',
  wf w -> makedirs_rec fuel name exist_ok w = (r, w') -> no_new_links w w'.
Proof.
  induction fuel as [|fuel IH]; intros name exist_ok w r w' Hwf.
  - change (makedirs_rec 0 name exist_ok w)
      with (@Raise exn unit RecursionError, w).
    intros [= _ <-]. now apply no_new_links_refl.
  - rewrite makedirs_rec_S. cbv zeta.
    set (head' := if Path.is_empty (Path.split name).2
                  then (Path.split (Path.split name).1).1
                  else (Path.split name).1).
    set (tail' := if Path.is_empty (Path.split name).2
                  then (Path.split (Path.split name).1).2
                  else (Path.split name).2).
    destruct (negb (Path.is_empty head') && negb (Path.is_empty tail')
              && negb (exists_ w head')).
    2:{ exact (mkdir_leaf_no_new_links name exist_ok w r w' Hwf). }
    destruct (makedirs_rec fuel head' exist_ok w) as [r1 w1] eqn:Hrec.
    pose proof (IH head' exist_ok w r1 w1 Hwf Hrec) as H1.
    assert (Hleaf : forall r2 w2,
               (if String.eqb tail' "." then (Ok tt, w1)
                else mkdir_leaf name exist_ok w1) = (r2, w2) ->
               no_new_links w w2).
    { intros r2 w2. destruct (String.eqb tail' ".").
      - intros [= _ <-]. exact H1.
      - intros Hl. refine (no_new_links_trans _ _ _ H1 _).
        exact (mkdir_leaf_no_new_links name exist_ok w1 r2 w2 (proj1 H1) Hl). }
    destruct r1 as [[]|e]; [exact (Hleaf r w')|].
    destruct e as [[] f| | | | |];
      try (intros [= _ <-]; exact H1).
    exact (Hleaf r w').
Qed.

Lemma copy2_no_new_links src dst w r w' :
  wf w -> copy2 src dst w = (r, w') -> no_new_links w w'.
Proof.
  intros Hwf. unfold copy2.
  set (dst' := if isdir w dst then Path.join dst (Path.basename src) else dst).
  destruct (samefile w src dst').
  { intros [= _ <-]. now apply no_new_links_refl. }
  destruct (Kernel.read w src) as [[data m]|e].
  2:{ intros [= _ <-]. now apply no_new_links_refl. }
  destruct (store w dst' data m) as [w1|e] eqn:Hs.
  2:{ intros [= _ <-]. now apply no_new_links_refl. }
  intros [= _ <-]. destruct (store_ok _ _ _ _ _ Hs) as (p & Hres & ->).
  exact (write_no_new_links w dst' true p (File data m) Hwf Hres I).
Qed.

(** The loop of [_copytree] with [symlinks=False], given that the recursive
    call makes no link. *)
Lemma copytree_loop_no_new_links rec src dst ignored :
  (forall s d w r w', wf w -> rec s d w = (r, w') -> no_new_links w w') ->
  forall entries errors w r w',
    wf w ->
    copytree_loop rec src dst false ignored entries errors w = (r, w') ->
    no_new_links w w'.
Proof.
  intros Hrec. induction entries as [|[name k] entries IH];
    intros errors w r w' Hwf; simpl.
  - intros [= _ <-]. now apply no_new_links_refl.
  - destruct (existsb (String.eqb name) ignored).
    { exact (IH errors w r w' Hwf). }
    destruct (copytree_entry rec false (Path.join src name)
                (Path.join dst name) k w) as [r1 w1] eqn:Hstep.
    assert (H1 : no_new_links w w1).
    { revert Hstep. unfold copytree_entry. destruct k.
      - exact (copy2_no_new_links _ _ w r1 w1 Hwf).
      - exact (Hrec _ _ w r1 w1 Hwf).
      - unfold bind at 1. unfold readlink.
        destruct (Kernel.readlink w (Path.join src name)).
        + destruct (isdir w (Path.join src name)).
          * exact (Hrec _ _ w r1 w1 Hwf).
          * exact (copy2_no_new_links _ _ w r1 w1 Hwf).
        + intros [= _ <-]. now apply no_new_links_refl. }
    destruct (collect (Path.join src name) (Path.join dst name) errors r1)
      as [errors'|e].
    + intros Hloop.
      exact (no_new_links_trans _ _ _ H1
               (IH errors' w1 r w' (proj1 H1) Hloop)).
    + intros [= _ <-]. exact H1.
Qed.

(** [shutil.copytree] with [symlinks=False] makes directories and regular
    files only. *)
Lemma copytree_rec_no_new_links levels : forall src dst ignore w r w',
  wf w ->
  copytree_rec levels src dst false ignore w = (r, w') ->
  no_new_links w w'.
Proof.
  induction levels as [|levels IH]; intros src dst ignore w r w' Hwf.
  - intros [= _ <-]. now apply no_new_links_refl.
  - rewrite copytree_rec_S. unfold bind at 1.
    destruct (scandir w src) as [entries|e] eqn:Hscan.
    2:{ intros [= _ <-]. now apply no_new_links_refl. }
    cbv zeta. unfold bind at 1.
    destruct (makedirs dst false w) as [rm w1] eqn:Hmk.
    pose proof (makedirs_rec_no_new_links (S (String.length dst)) dst false
                  w rm w1 Hwf Hmk) as H1.
    destruct rm as [[]|e].
    2:{ intros [= _ <-]. exact H1. }
    unfold bind at 1.
    destruct (copytree_loop _ src dst false _ entries [] w1)
      as [r2 w2] eqn:Hloop.
    pose proof (copytree_loop_no_new_links
                  (fun s d => copytree_rec levels s d false ignore)
                  src dst _
                  (fun s d x rx x' Hx Hrun => IH s d ignore x rx x' Hx Hrun)
                  entries [] w1 r2 w2 (proj1 H1) Hloop) as H2.
    pose proof (no_new_links_trans _ _ _ H1 H2) as H.
    destruct r2 as [[|? ?]|e]; intros [= _ <-]; exact H.
Qed.

Lemma copy_loop_no_new_links src dst ignore :
  forall items w r w',
    wf (files w) ->
    for_each items (fun item =>
      let s := os_path_join src item in
      let d := os_path_join dst item in
      let* is_dir := os_path_isdir s in
      if is_dir then
        let* _ := shutil_copytree s d false ignore in ret tt
      else
        let* _ := shutil_copy2 s d in ret tt) w = (r, w') ->
    no_new_links (files w) (files w').
Proof.
  induction items as [|item items IH]; intros w r w' Hwf.
  - intros [= _ <-]. now apply no_new_links_refl.
  - cbn [for_each]. unfold bind at 1.
    destruct ((let s := os_path_join src item in
               let d := os_path_join dst item in
               let* is_dir := os_path_isdir s in
               if is_dir then
                 let* _ := shutil_copytree s d false ignore in ret tt
               else
                 let* _ := shutil_copy2 s d in ret tt) w) as [r1 w1] eqn:Hbody.
    assert (H1 : no_new_links (files w) (files w1)).
    { revert Hbody. cbv zeta.
      unfold bind at 1. unfold os_path_isdir at 1. rewrite invoke_eq.
      cbn [fst snd].
      destruct (isdir (files w) (os_path_join src item)).
      - unfold bind at 1. unfold shutil_copytree at 1. rewrite invoke_eq.
        cbn [files].
        destruct (copytree (os_path_join src item) (os_path_join dst item)
                    false ignore (files w)) as [rc s1] eqn:Hc.
        cbn [fst snd]. unfold copytree in Hc.
        pose proof (copytree_rec_no_new_links copytree_levels _ _ ignore
                      (files w) rc s1 Hwf Hc) as Hg.
        destruct rc as [a|e]; intros [= _ <-]; exact Hg.
      - unfold bind at 1. unfold shutil_copy2 at 1. rewrite invoke_eq.
        cbn [files].
        destruct (copy2 (os_path_join src item) (os_path_join dst item)
                    (files w)) as [rc s1] eqn:Hc.
        cbn [fst snd].
        pose proof (copy2_no_new_links _ _ (files w) rc s1 Hwf Hc) as Hg.
        destruct rc as [a|e]; intros [= _ <-]; exact Hg. }
    destruct r1 as [[]|e].
    + intros Hrun.
      exact (no_new_links_trans _ _ _ H1 (IH w1 r w' (proj1 H1) Hrun)).
    + intros [= _ <-]. exact H1.
Qed.

Lemma copy_tree_no_new_links src dst ignore w r w' :
  wf (files w) ->
  copy_tree src dst false ignore w = (r, w') ->
  no_new_links (files w) (files w').
Proof.
  intros Hwf. unfold copy_tree. unfold bind at 1.
  rewrite os_listdir_eq.
  pose proof (listdir_files src (files w)) as Hs.
  destruct (listdir src (files w)) as [[items|e] s1] eqn:Hl; cbn [fst snd];
    cbn [snd] in Hs; subst s1.
  - intros Hrun.
    exact (copy_loop_no_new_links src dst ignore items
             {| files := files w;
                log := log w ++ [(Listdir src, outcome_of RList (Ok items))] |}
             r w' Hwf Hrun).
  - intros [= _ <-]. now apply no_new_links_refl.
Qed.

Lemma copy_directory_no_new_links dir_path sd w r w' :
  wf (files w) ->
  copy_directory dir_path (PStr sd) w = (r, w') ->
  no_new_links (files w) (files w').
Proof.
  intros Hwf. unfold copy_directory. cbn [os_path_join_val].
  unfold bind at 1. unfold ret at 1. unfold bind at 1.
  rewrite os_makedirs_eq.
  destruct (makedirs (Path.join sd dir_path) true (files w))
    as [rm s1] eqn:Hmk. cbn [fst snd].
  pose proof (makedirs_rec_no_new_links _ _ true (files w) rm s1 Hwf Hmk)
    as H1.
  destruct rm as [[]|e].
  - intros Hrun. refine (no_new_links_trans _ _ _ H1 _).
    exact (copy_tree_no_new_links _ _ None
             {| files := s1;
                log := log w ++
                       [(Makedirs (Path.join sd dir_path) true,
                         outcome_of (fun _ : unit => RNone) (Ok tt))] |}
             r w' (proj1 H1) Hrun).
  - intros [= _ <-]. exact H1.
Qed.

Lemma copy_static_files_no_new_links config kwargs sd w r w' :
  config !! "site_dir" = Some (PStr sd) ->
  wf (files w) ->
  copy_static_files config kwargs w = (r, w') ->
  no_new_links (files w) (files w').
Proof.
  intros Hsd Hwf. unfold copy_static_files, getitem. rewrite Hsd.
  unfold bind at 1. unfold ret at 1. unfold bind at 1.
  destruct (copy_directory "dist" (PStr sd) w) as [r1 w1] eqn:H1.
  pose proof (copy_directory_no_new_links "dist" sd w r1 w1 Hwf H1) as Hg1.
  destruct r1 as [[]|e].
  - intros Hrun. refine (no_new_links_trans _ _ _ Hg1 _).
    exact (copy_directory_no_new_links "demos" sd w1 r w' (proj1 Hg1) Hrun).
  - intros [= _ <-]. exact Hg1.
Qed.

End LinkFacts.

Section MissingLater.

Import Kernel PyLib Hooks.

Lemma keeps_dirs_cwd w w' : wf w -> keeps_dirs w w' -> cwd w' = cwd w.
Proof.
  intros [es Hwf] Hk.
  assert (H : resolve w true "." = Ok (Present (cwd w) (Dir es))).
  { unfold resolve.
    change (Path.is_empty ".") with false.
    change (Path.startswith_sep ".") with false.
    change (Path.components ".") with ["."]. cbv iota.
    rewrite walk_cons. change (String.eqb "." ".") with true. cbv iota.
    rewrite walk_nil, Hwf. reflexivity. }
  destruct (Hk _ _ _ H) as (es' & H').
  revert H'. unfold resolve.
  change (Path.is_empty ".") with false.
  change (Path.startswith_sep ".") with false.
  change (Path.components ".") with ["."]. cbv iota.
  rewrite walk_cons. change (String.eqb "." ".") with true. cbv iota.
  rewrite walk_nil.
  destruct (Tree.get (root w') (cwd w')); [|discriminate].
  now intros [= -> _].
Qed.

(** A source that is missing stays missing while a job copies into another
    place. *)
Lemma copy_directory_keeps_missing dir_path sd q es src w r w' :
  plain_name dir_path = true ->
  src <> dir_path ->
  tidy (q ++ [dir_path]) (files w) ->
  resolve (files w) true sd = Ok (Present q (Dir es)) ->
  ~ (q ++ [dir_path]) `prefix_of` cwd (files w) ->
  missing (files w) src ->
  copy_directory dir_path (PStr sd) w = (r, w') ->
  missing (files w') src /\ wf (files w') /\
  cwd (files w') = cwd (files w) /\
  exists es', resolve (files w') true sd = Ok (Present q (Dir es')).
Proof.
  intros Hb Hne Ht Hsd Hcwd Hm Hrun.
  destruct (copy_directory_grows dir_path sd q es w r w' Hb Ht Hsd Hrun)
    as ((Hwf' & _) & Hout & Hk).
  pose proof (keeps_dirs_cwd _ _ (proj1 Ht) Hk) as Hc.
  split; [|split; [exact Hwf'|split; [exact Hc|exact (Hk _ _ _ Hsd)]]].
  unfold missing in *. rewrite Hc.
  destruct (decide ((cwd (files w) ++ [src]) `prefix_of` (q ++ [dir_path])))
    as [ [k Hpre] |Hnp].
  - exfalso. apply resolve_present in Hsd.
    destruct k as [|c k] using rev_ind.
    + rewrite app_nil_r in Hpre. apply app_inj_tail in Hpre.
      destruct Hpre as [_ Heq]. now subst.
    + rewrite !app_assoc in Hpre. apply app_inj_tail in Hpre.
      destruct Hpre as [Hq _]. rewrite Hq, get_app, Hm in Hsd. discriminate.
  - rewrite (Hout (cwd (files w) ++ [src])); [exact Hm| |exact Hnp].
    intros [k Hpre]. destruct k as [|c k _] using rev_ind.
    + rewrite app_nil_r in Hpre. apply app_inj_tail in Hpre.
      destruct Hpre as [_ Heq]. now subst.
    + rewrite !app_assoc in Hpre. apply app_inj_tail in Hpre.
      destruct Hpre as [Hq _]. apply Hcwd. exists k. exact Hq.
Qed.

End MissingLater.

(** ** Copying a subtree *)

Section SubtreeFacts.

Import Kernel PyLib Hooks.

Lemma clean_cons c x l :
  clean (Dir ((c, x) :: l)) <->
  plain_name c = true /\ Tree.entry c l = None /\ clean x /\ clean (Dir l).
Proof. reflexivity. Qed.

Lemma height_cons c x l n :
  height (Dir ((c, x) :: l)) <= S n <-> height x <= n /\ height (Dir l) <= S n.
Proof. simpl. lia. Qed.

Lemma entry_app c a b :
  Tree.entry c (a ++ b) =
  match Tree.entry c a with Some n => Some n | None => Tree.entry c b end.
Proof.
  induction a as [|[k x] a IH]; simpl; [reflexivity|].
  destruct (String.eqb c k); [reflexivity|exact IH].
Qed.

Lemma entry_none_In c l e :
  Tree.entry c l = None -> In e l -> e.1 <> c.
Proof.
  induction l as [|[k x] l IH]; simpl; [contradiction|].
  destruct (String.eqb_spec c k) as [->|Hne]; [discriminate|].
  intros H [<-|Hin]; [simpl; congruence|exact (IH H Hin)].
Qed.

Lemma set_entry_fresh c x es :
  Tree.entry c es = None -> Tree.set_entry c x es = es ++ [(c, x)].
Proof.
  induction es as [|[k n] es IH]; simpl; [reflexivity|].
  destruct (String.eqb c k); [discriminate|].
  intros H. now rewrite IH.
Qed.

Lemma set_entry_twice c a b es :
  Tree.set_entry c a (Tree.set_entry c b es) = Tree.set_entry c a es.
Proof.
  induction es as [|[k n] es IH]; simpl.
  - now rewrite String.eqb_refl.
  - destruct (String.eqb c k) eqn:E; simpl.
    + now rewrite String.eqb_refl.
    + now rewrite E, IH.
Qed.

(** Storing a child of a directory is storing the directory with the
    child. *)
Lemma put_child p : forall r es1 c x,
  Tree.get r p = Some (Dir es1) ->
  Tree.put r (p ++ [c]) x = Tree.put r p (Dir (Tree.set_entry c x es1)).
Proof.
  induction p as [|c0 p IH]; intros r es1 c x Hget.
  - simpl in Hget. injection Hget as ->. simpl.
    now destruct (Tree.entry c es1).
  - destruct r as [d m|es0|t]; try (simpl in Hget; discriminate).
    simpl in Hget |- *.
    destruct (Tree.entry c0 es0) as [n'|] eqn:E; [|discriminate].
    now rewrite (IH n' es1 c x Hget).
Qed.

Lemma put_put_same p : forall r a b,
  Tree.put (Tree.put r p a) p b = Tree.put r p b.
Proof.
  induction p as [|c0 p IH]; intros r a b; [reflexivity|].
  destruct r as [d m|es0|t]; try reflexivity.
  simpl. destruct (Tree.entry c0 es0) as [n'|] eqn:E.
  - simpl. rewrite entry_set_entry_eq, set_entry_twice. now rewrite IH.
  - destruct p as [|c1 p].
    + simpl. now rewrite entry_set_entry_eq, set_entry_twice.
    + simpl. now rewrite E.
Qed.

Lemma get_put_at p : forall r n0 x,
  Tree.get r p = Some n0 -> Tree.get (Tree.put r p x) p = Some x.
Proof.
  induction p as [|c0 p IH]; intros r n0 x Hget; [reflexivity|].
  destruct r as [d m|es0|t]; try (simpl in Hget; discriminate).
  simpl in Hget |- *.
  destruct (Tree.entry c0 es0) as [n'|] eqn:E; [|discriminate].
  simpl. rewrite entry_set_entry_eq. exact (IH n' n0 x Hget).
Qed.

(** [shutil.copy2] of a regular file to a free name. *)
Lemma copy2_fresh x s d p data m q :
  resolve x true s = Ok (Present p (File data m)) ->
  resolve x true d = Ok (Absent q) ->
  copy2 s d x =
  (Ok d, with_root x (Tree.put (root x) q (File data m))).
Proof.
  intros Hs Hd.
  unfold copy2, isdir, samefile, Kernel.stat, Kernel.read, Kernel.store.
  rewrite Hd. cbv beta iota zeta. rewrite Hs, Hd. reflexivity.
Qed.

(** [os.makedirs] for a free name in an existing directory. *)
Lemma makedirs_child sd b exist_ok w q es :
  wf w ->
  plain_name b = true ->
  resolve w true sd = Ok (Present q (Dir es)) ->
  Tree.get (root w) (q ++ [b]) = None ->
  makedirs (Path.join sd b) exist_ok w =
  (Ok tt, with_root w (Tree.put (root w) (q ++ [b]) (Dir []))).
Proof.
  intros Hwf Hb Hq Hfree.
  destruct (plain_name_inv b Hb) as (Hbe & Hbs & Hbdot & Hbdd).
  pose proof (resolve_nonempty _ _ _ _ Hq) as Hsd.
  destruct (split_join sd b Hb) as (Htail & Hc & He & Hs).
  specialize (Hs Hsd). rewrite Hsd in He.
  destruct (resolve_over w false sd b (Path.join sd b) q es Hwf Hsd
              (join_nonempty sd b Hbe) (join_startswith sd b Hsd Hbs)
              (components_join sd b Hb) Hq) as (links' & Hres).
  rewrite walk_cons, Hbdot, Hbdd, Hfree in Hres.
  unfold makedirs. rewrite makedirs_rec_S. cbv zeta.
  rewrite Htail, Hbe. cbv iota. rewrite He, Hbe.
  assert (Hex : exists_ w (Path.split (Path.join sd b)).1 = true).
  { apply exists_true. exists q, (Dir es). rewrite <- Hq.
    apply resolve_ext; [exact Hc|exact Hs|]. now rewrite He, Hsd. }
  rewrite Hex. cbn [negb andb].
  unfold mkdir_leaf, mkdir, Kernel.mkdir. rewrite Hres. reflexivity.
Qed.

(** A directory beside the destination is the same after writes below the
    destination. *)
Lemma source_kept D w x src ps esT :
  grows D w x ->
  resolve w true src = Ok (Present ps (Dir esT)) ->
  ~ D `prefix_of` ps -> ~ ps `prefix_of` D ->
  resolve x true src = Ok (Present ps (Dir esT)).
Proof.
  intros (_ & Hout & Hk) Hsrc H1 H2.
  destruct (Hk _ _ _ Hsrc) as (es' & Hx).
  pose proof (resolve_present _ _ _ _ _ Hx) as Hg.
  rewrite (Hout ps H1 H2), (resolve_present _ _ _ _ _ Hsrc) in Hg.
  injection Hg as <-. exact Hx.
Qed.

Lemma put_same p : forall r n, Tree.get r p = Some n -> Tree.put r p n = r.
Proof.
  induction p as [|c0 p IH]; intros r n Hget.
  - simpl in Hget. now injection Hget as ->.
  - destruct r as [d m|es0|t]; try reflexivity.
    simpl in Hget |- *.
    destruct (Tree.entry c0 es0) as [n'|] eqn:E; [|discriminate].
    rewrite (IH n' n Hget). now rewrite set_entry_same.
Qed.

Lemma with_root_root x : with_root x (root x) = x.
Proof. now destruct x. Qed.

Lemma tidy_below D c w : tidy D w -> tidy (D ++ [c]) w.
Proof.
  intros (Hwf & Hn & Hl). split; [exact Hwf|]. split; [exact Hn|].
  intros q t Hq. apply Hl. transitivity (D ++ [c]); [|exact Hq].
  now exists [c].
Qed.

Lemma prefix_snoc_both (a b : list string) c :
  (a ++ [c]) `prefix_of` (b ++ [c]) -> a `prefix_of` b.
Proof.
  intros [k Hk]. destruct k as [|c' k _] using rev_ind.
  - rewrite app_nil_r in Hk. apply app_inj_tail in Hk.
    destruct Hk as [-> _]. reflexivity.
  - rewrite !app_assoc in Hk. apply app_inj_tail in Hk.
    destruct Hk as [-> _]. exists ([c] ++ k). now rewrite app_assoc.
Qed.

(** What one entry copied into the destination [D] leaves for the next
    one. *)
Lemma copied_entry D x x1 src dst ps esT es1 c n :
  grows D x x1 ->
  x1 = with_root x (Tree.put (root x) (D ++ [c]) n) ->
  ~ D `prefix_of` ps -> ~ ps `prefix_of` D ->
  resolve x true src = Ok (Present ps (Dir esT)) ->
  resolve x true dst = Ok (Present D (Dir es1)) ->
  Tree.entry c es1 = None ->
  x1 = with_root x (Tree.put (root x) D (Dir (es1 ++ [(c, n)]))) /\
  tidy D x1 /\
  resolve x1 true src = Ok (Present ps (Dir esT)) /\
  resolve x1 true dst = Ok (Present D (Dir (es1 ++ [(c, n)]))).
Proof.
  intros Hg Hx1 H1 H2 Hsrc Hdst He1.
  pose proof (resolve_present _ _ _ _ _ Hdst) as HgetD.
  assert (Hx1' : x1 = with_root x (Tree.put (root x) D (Dir (es1 ++ [(c, n)])))).
  { rewrite Hx1, (put_child D (root x) es1 c n HgetD).
    now rewrite (set_entry_fresh c n es1 He1). }
  split; [exact Hx1'|]. split; [exact (proj1 Hg)|]. split.
  - exact (source_kept D x x1 src ps esT Hg Hsrc H1 H2).
  - destruct Hg as (_ & _ & Hk). destruct (Hk _ _ _ Hdst) as (es' & Hd1).
    pose proof (resolve_present _ _ _ _ _ Hd1) as Hget1.
    rewrite Hx1' in Hget1. cbn [root with_root] in Hget1.
    rewrite (get_put_at D (root x) _ _ HgetD) in Hget1.
    injection Hget1 as <-. exact Hd1.
Qed.

(** The loop of [_copytree] over the entries of a clean source directory,
    into a destination that holds the entries copied so far. *)
Lemma copytree_loop_copies levels src dst ps esT D :
  ~ D `prefix_of` ps -> ~ ps `prefix_of` D ->
  (forall c esc x es1,
     tidy D x ->
     resolve x true (Path.join src c) = Ok (Present (ps ++ [c]) (Dir esc)) ->
     clean (Dir esc) -> height (Dir esc) <= levels ->
     resolve x true dst = Ok (Present D (Dir es1)) ->
     Tree.get (root x) (D ++ [c]) = None ->
     plain_name c = true ->
     copytree_rec levels (Path.join src c) (Path.join dst c) false None x =
     (Ok (Path.join dst c),
      with_root x (Tree.put (root x) (D ++ [c]) (Dir esc)))) ->
  forall rest es1 x,
    esT = es1 ++ rest ->
    tidy D x ->
    resolve x true src = Ok (Present ps (Dir esT)) ->
    resolve x true dst = Ok (Present D (Dir es1)) ->
    Forall (fun e : string * node => Tree.entry e.1 es1 = None) rest ->
    clean (Dir rest) ->
    height (Dir rest) <= S levels ->
    copytree_loop (fun s d => copytree_rec levels s d false None)
      src dst false [] (map (fun e => (e.1, kind_of e.2)) rest) [] x =
    (Ok [], with_root x (Tree.put (root x) D (Dir (es1 ++ rest)))).
Proof.
  intros H1 H2 Hrec.
  induction rest as [|[c n] rest IH];
    intros es1 x HesT Ht Hsrc Hdst Hfresh Hclean Hh.
  - cbn [map copytree_loop]. unfold ret. rewrite app_nil_r.
    rewrite (put_same D (root x) _ (resolve_present _ _ _ _ _ Hdst)).
    now rewrite with_root_root.
  - apply clean_cons in Hclean. destruct Hclean as (Hc & Hlater & Hn & Hclean).
    apply height_cons in Hh. destruct Hh as (Hhn & Hh).
    inversion Hfresh as [|? ? He1 Hfresh']; subst. cbn [fst] in He1.
    pose proof Ht as (Hwf & _ & _).
    assert (Hsget : Tree.get (root x) (ps ++ [c]) = Some n).
    { rewrite get_app, (resolve_present _ _ _ _ _ Hsrc). simpl.
      rewrite entry_app, He1. simpl. now rewrite String.eqb_refl. }
    assert (Hdget : Tree.get (root x) (D ++ [c]) = None).
    { rewrite get_app, (resolve_present _ _ _ _ _ Hdst). simpl.
      now rewrite He1. }
    assert (Hsc : resolve x true (Path.join src c) =
                  Ok (Present (ps ++ [c]) n)).
    { rewrite (resolve_child x src ps (es1 ++ (c, n) :: rest) c true
                 Hwf Hsrc Hc).
      - now rewrite Hsget.
      - intros t. rewrite Hsget. intros [= ->]. exact Hn. }
    assert (Hdc : resolve x true (Path.join dst c) = Ok (Absent (D ++ [c]))).
    { rewrite (resolve_child x dst D es1 c true Hwf Hdst Hc).
      - now rewrite Hdget.
      - intros t. now rewrite Hdget. }
    set (x1 := with_root x (Tree.put (root x) (D ++ [c]) n)).
    assert (Hstep :
      copytree_entry (fun s d => copytree_rec levels s d false None) false
        (Path.join src c) (Path.join dst c) (kind_of n) x =
      (Ok (Path.join dst c), x1) /\ grows D x x1).
    { destruct n as [data m|esc|t]; [| |contradiction].
      - cbn [kind_of copytree_entry].
        pose proof (copy2_fresh x _ _ _ data m _ Hsc Hdc) as Hrun.
        split; [exact Hrun|].
        exact (copy2_grows D x src dst D es1 c _ _ Ht Hdst
                 ltac:(reflexivity) Hc Hrun).
      - cbn [kind_of copytree_entry].
        pose proof (Hrec c esc x es1 Ht Hsc Hn Hhn Hdst Hdget Hc) as Hrun.
        split; [exact Hrun|].
        exact (copytree_rec_grows D levels (Path.join src c) dst D es1 c None
                 x _ _ Ht Hdst ltac:(reflexivity) Hc Hrun). }
    destruct Hstep as (Hstep & Hg).
    destruct (copied_entry D x x1 src dst ps _ es1 c n Hg eq_refl H1 H2
                Hsrc Hdst He1) as (Hx1 & Ht1 & Hsrc1 & Hdst1).
    cbn [map fst snd copytree_loop existsb]. rewrite Hstep.
    cbn [collect].
    rewrite (IH (es1 ++ [(c, n)]) x1); try assumption.
    + rewrite Hx1. cbn [root with_root]. unfold with_root. cbn [cwd].
      rewrite put_put_same. now rewrite <- app_assoc.
    + now rewrite <- app_assoc.
    + apply Forall_forall. intros e Hin. rewrite entry_app.
      rewrite (proj1 (Forall_forall _ _) Hfresh' e Hin). simpl.
      apply list_elem_of_In in Hin.
      pose proof (entry_none_In c rest e Hlater Hin) as Hne.
      destruct (String.eqb_spec e.1 c); [contradiction|reflexivity].
Qed.

(** [shutil.copytree] of a clean source directory to a free name in an
    existing directory: the destination becomes the source tree, and nothing
    else changes. *)
Lemma copytree_rec_copies levels : forall src ps esT d pd es name w,
  tidy (pd ++ [name]) w ->
  resolve w true src = Ok (Present ps (Dir esT)) ->
  clean (Dir esT) ->
  height (Dir esT) <= levels ->
  resolve w true d = Ok (Present pd (Dir es)) ->
  Tree.get (root w) (pd ++ [name]) = None ->
  plain_name name = true ->
  ~ (pd ++ [name]) `prefix_of` ps ->
  ~ ps `prefix_of` (pd ++ [name]) ->
  copytree_rec levels src (Path.join d name) false None w =
  (Ok (Path.join d name),
   with_root w (Tree.put (root w) (pd ++ [name]) (Dir esT))).
Proof.
  induction levels as [|levels IH];
    intros src ps esT d pd es name w Ht Hsrc Hclean Hh Hd Hfree Hname H1 H2.
  { simpl in Hh. lia. }
  pose proof Ht as (Hwf & _ & _).
  set (D := pd ++ [name]) in *.
  rewrite copytree_rec_S. unfold bind at 1.
  unfold scandir. rewrite Hsrc. cbv zeta. unfold bind at 1.
  pose proof (makedirs_child d name false w pd es Hwf Hname Hd Hfree) as Hmk.
  rewrite Hmk. cbv beta iota.
  set (w1 := with_root w (Tree.put (root w) D (Dir []))).
  destruct (makedirs_under D w d pd es name false (Ok tt) w1 Ht Hd
              ltac:(reflexivity) Hname Hmk) as (Hg1 & Hdst).
  destruct (Hdst eq_refl) as (es' & Hdst1).
  assert (Hes' : es' = []).
  { pose proof (resolve_present _ _ _ _ _ Hdst1) as Hget.
    unfold w1 in Hget. cbn [root with_root] in Hget. unfold D in Hget.
    rewrite (get_put pd (root w) es name (Dir [])
               (resolve_present _ _ _ _ _ Hd)) in Hget.
    now injection Hget as <-. }
  subst es'.
  pose proof (source_kept D w w1 src ps esT Hg1 Hsrc H1 H2) as Hsrc1.
  assert (Hrec : forall c esc x es1,
     tidy D x ->
     resolve x true (Path.join src c) = Ok (Present (ps ++ [c]) (Dir esc)) ->
     clean (Dir esc) -> height (Dir esc) <= levels ->
     resolve x true (Path.join d name) = Ok (Present D (Dir es1)) ->
     Tree.get (root x) (D ++ [c]) = None ->
     plain_name c = true ->
     copytree_rec levels (Path.join src c) (Path.join (Path.join d name) c)
       false None x =
     (Ok (Path.join (Path.join d name) c),
      with_root x (Tree.put (root x) (D ++ [c]) (Dir esc)))).
  { intros c esc x es1 Hx Hsc Hcl Hhc Hdx Hfx Hc.
    refine (IH (Path.join src c) (ps ++ [c]) esc (Path.join d name) D es1 c x
              (tidy_below D c x Hx) Hsc Hcl Hhc Hdx Hfx Hc _ _).
    - intros Hp. apply H1. exact (prefix_snoc_both _ _ _ Hp).
    - intros Hp. apply H2. exact (prefix_snoc_both _ _ _ Hp). }
  unfold bind at 1.
  change (with_root w (Tree.put (root w) (pd ++ [name]) (Dir []))) with w1.
  rewrite (copytree_loop_copies levels src (Path.join d name) ps esT D H1 H2
             Hrec esT [] w1 eq_refl (proj1 Hg1) Hsrc1 Hdst1).
  - unfold ret. cbn [app]. unfold w1. cbn [root with_root].
    unfold with_root. cbn [cwd]. rewrite put_put_same.
    destruct esT; reflexivity.
  - apply Forall_forall. intros e _. reflexivity.
  - exact Hclean.
  - exact Hh.
Qed.

End SubtreeFacts.

Section MirrorFacts.

Import Kernel PyLib Hooks.

(** One item of the loop of [copy_tree], from a clean source directory to a
    name that is free in the destination. *)
Lemma copy_item_copies src dst ps esT D es1 c n w :
  ~ D `prefix_of` ps -> ~ ps `prefix_of` D ->
  tidy D (files w) ->
  resolve (files w) true src = Ok (Present ps (Dir esT)) ->
  resolve (files w) true dst = Ok (Present D (Dir es1)) ->
  Tree.entry c esT = Some n ->
  Tree.entry c es1 = None ->
  plain_name c = true ->
  clean n ->
  height n <= copytree_levels ->
  exists w',
    (let s := os_path_join src c in
     let d := os_path_join dst c in
     let* is_dir := os_path_isdir s in
     if is_dir then
       let* _ := shutil_copytree s d false None in ret tt
     else
       let* _ := shutil_copy2 s d in ret tt) w = (Ok tt, w') /\
    files w' =
      with_root (files w) (Tree.put (root (files w)) (D ++ [c]) n).
Proof.
  intros H1 H2 Ht Hsrc Hdst Hn He1 Hc Hcl Hh.
  pose proof Ht as (Hwf & _ & _).
  assert (Hsget : Tree.get (root (files w)) (ps ++ [c]) = Some n).
  { rewrite get_app, (resolve_present _ _ _ _ _ Hsrc). simpl. now rewrite Hn. }
  assert (Hdget : Tree.get (root (files w)) (D ++ [c]) = None).
  { rewrite get_app, (resolve_present _ _ _ _ _ Hdst). simpl.
    now rewrite He1. }
  assert (Hsc : resolve (files w) true (Path.join src c) =
                Ok (Present (ps ++ [c]) n)).
  { rewrite (resolve_child (files w) src ps esT c true Hwf Hsrc Hc).
    - now rewrite Hsget.
    - intros t. rewrite Hsget. intros [= ->]. exact Hcl. }
  assert (Hdc : resolve (files w) true (Path.join dst c) =
                Ok (Absent (D ++ [c]))).
  { rewrite (resolve_child (files w) dst D es1 c true Hwf Hdst Hc).
    - now rewrite Hdget.
    - intros t. now rewrite Hdget. }
  cbv zeta. unfold os_path_join.
  unfold bind at 1. unfold os_path_isdir at 1. rewrite invoke_eq.
  cbn [fst snd].
  unfold isdir at 1. unfold Kernel.stat. rewrite Hsc.
  destruct n as [data m|esc|t]; [| |contradiction]; cbv iota.
  - unfold bind at 1. unfold shutil_copy2 at 1. rewrite invoke_eq.
    cbn [files].
    rewrite (copy2_fresh (files w) _ _ _ data m _ Hsc Hdc).
    cbn [fst snd]. eexists. split; reflexivity.
  - unfold bind at 1. unfold shutil_copytree at 1. rewrite invoke_eq.
    cbn [files]. unfold copytree.
    rewrite (copytree_rec_copies copytree_levels (Path.join src c)
               (ps ++ [c]) esc dst D es1 c (files w)
               (tidy_below D c _ Ht) Hsc Hcl Hh Hdst Hdget Hc
               (fun Hp => H1 (prefix_snoc_both _ _ _ Hp))
               (fun Hp => H2 (prefix_snoc_both _ _ _ Hp))).
    cbn [fst snd]. eexists. split; reflexivity.
Qed.

(** The loop of [copy_tree] over the entries of a clean source directory
    whose names are free in the destination. *)
Lemma copy_loop_copies src dst ps esT D esD :
  ~ D `prefix_of` ps -> ~ ps `prefix_of` D ->
  forall rest done w,
    esT = done ++ rest ->
    tidy D (files w) ->
    resolve (files w) true src = Ok (Present ps (Dir esT)) ->
    resolve (files w) true dst = Ok (Present D (Dir (esD ++ done))) ->
    Forall (fun e : string * node => Tree.entry e.1 (esD ++ done) = None)
      rest ->
    clean (Dir rest) ->
    height (Dir rest) <= S copytree_levels ->
    exists w',
      for_each (map fst rest) (fun item =>
        let s := os_path_join src item in
        let d := os_path_join dst item in
        let* is_dir := os_path_isdir s in
        if is_dir then
          let* _ := shutil_copytree s d false None in ret tt
        else
          let* _ := shutil_copy2 s d in ret tt) w = (Ok tt, w') /\
      files w' =
        with_root (files w)
          (Tree.put (root (files w)) D (Dir (esD ++ done ++ rest))).
Proof.
  intros H1 H2.
  induction rest as [|[c n] rest IH];
    intros done w HesT Ht Hsrc Hdst Hfresh Hclean Hh.
  - exists w. split; [reflexivity|]. rewrite app_nil_r.
    rewrite (put_same D (root (files w)) _ (resolve_present _ _ _ _ _ Hdst)).
    now rewrite with_root_root.
  - apply clean_cons in Hclean. destruct Hclean as (Hc & Hlater & Hn & Hclean).
    apply height_cons in Hh. destruct Hh as (Hhn & Hh).
    inversion Hfresh as [|? ? He1 Hfresh']; subst. cbn [fst] in He1.
    assert (Hentry : Tree.entry c (done ++ (c, n) :: rest) = Some n).
    { rewrite entry_app. rewrite entry_app in He1.
      destruct (Tree.entry c esD); [discriminate|].
      rewrite He1. simpl. now rewrite String.eqb_refl. }
    destruct (copy_item_copies src dst ps _ D (esD ++ done) c n w
                H1 H2 Ht Hsrc Hdst Hentry He1 Hc Hn Hhn)
      as (w1 & Hrun & Hfiles).
    pose proof (copy_item_grows D src dst D (esD ++ done) None c w (Ok tt) w1
                  ltac:(reflexivity) Hc Ht Hdst Hrun) as Hg.
    destruct (copied_entry D (files w) (files w1) src dst ps _ (esD ++ done)
                c n Hg Hfiles H1 H2 Hsrc Hdst He1)
      as (Hx1 & Ht1 & Hsrc1 & Hdst1).
    rewrite <- app_assoc in Hdst1.
    destruct (IH (done ++ [(c, n)]) w1) as (w' & Hrest & Hfiles').
    + now rewrite <- app_assoc.
    + exact Ht1.
    + exact Hsrc1.
    + exact Hdst1.
    + apply Forall_forall. intros e Hin. rewrite app_assoc, entry_app.
      rewrite (proj1 (Forall_forall _ _) Hfresh' e Hin). simpl.
      apply list_elem_of_In in Hin.
      pose proof (entry_none_In c rest e Hlater Hin) as Hne.
      destruct (String.eqb_spec e.1 c); [contradiction|reflexivity].
    + exact Hclean.
    + exact Hh.
    + exists w'. split.
      * cbn [map fst for_each]. unfold bind at 1.
        cbv zeta in Hrun. cbv zeta. rewrite Hrun. exact Hrest.
      * rewrite Hfiles', Hx1. cbn [root with_root]. unfold with_root.
        cbn [cwd]. rewrite put_put_same. now rewrite <- !app_assoc.
Qed.

(** [copy_tree] from a clean source directory into a directory where the
    names of the source are free: the destination gets the entries of the
    source after its own, as they are in the source. *)
Lemma copy_tree_copies src dst ps esT D esD w :
  ~ D `prefix_of` ps -> ~ ps `prefix_of` D ->
  tidy D (files w) ->
  resolve (files w) true src = Ok (Present ps (Dir esT)) ->
  resolve (files w) true dst = Ok (Present D (Dir esD)) ->
  Forall (fun e : string * node => Tree.entry e.1 esD = None) esT ->
  clean (Dir esT) ->
  height (Dir esT) <= S copytree_levels ->
  exists w',
    copy_tree src dst false None w = (Ok tt, w') /\
    files w' =
      with_root (files w) (Tree.put (root (files w)) D (Dir (esD ++ esT))).
Proof.
  intros H1 H2 Ht Hsrc Hdst Hfresh Hclean Hh.
  unfold copy_tree. unfold bind at 1. rewrite os_listdir_eq.
  unfold listdir, scandir. rewrite Hsrc. cbn [fst snd].
  rewrite map_map. cbn [fst].
  destruct (copy_loop_copies src dst ps esT D esD H1 H2 esT []
              {| files := files w;
                 log := log w ++
                        [(Listdir src,
                          outcome_of RList (Ok (map fst esT)))] |}
              eq_refl Ht Hsrc) as (w' & Hrun & Hfiles).
  - now rewrite app_nil_r.
  - now rewrite app_nil_r.
  - exact Hclean.
  - exact Hh.
  - exists w'. split; [exact Hrun|exact Hfiles].
Qed.

End MirrorFacts.

Section PublishFacts.

Import Kernel PyLib Hooks.

Lemma free_tidy D w :
  wf w -> names_ok (root w) -> Tree.get (root w) D = None -> tidy D w.
Proof.
  intros Hwf Hn Hfree. split; [exact Hwf|]. split; [exact Hn|].
  intros q t [k ->]. now rewrite get_app, Hfree.
Qed.

(** A copy job from a clean source into a site directory where the name of
    its destination is free: the destination becomes the source tree. *)
Lemma copy_directory_copies dir_path sd q es ps esT w :
  plain_name dir_path = true ->
  wf (files w) -> names_ok (root (files w)) ->
  resolve (files w) true sd = Ok (Present q (Dir es)) ->
  Tree.get (root (files w)) (q ++ [dir_path]) = None ->
  resolve (files w) true
    (if negb (String.eqb dir_path "dist") then dir_path else "build") =
    Ok (Present ps (Dir esT)) ->
  clean (Dir esT) ->
  height (Dir esT) <= S copytree_levels ->
  ~ (q ++ [dir_path]) `prefix_of` ps ->
  ~ ps `prefix_of` (q ++ [dir_path]) ->
  exists w',
    copy_directory dir_path (PStr sd) w = (Ok tt, w') /\
    files w' =
      with_root (files w)
        (Tree.put (root (files w)) (q ++ [dir_path]) (Dir esT)) /\
    grows (q ++ [dir_path]) (files w) (files w').
Proof.
  intros Hb Hwf Hnames Hsd Hfree Hsrc Hclean Hh H1 H2.
  set (D := q ++ [dir_path]) in *.
  pose proof (free_tidy D (files w) Hwf Hnames Hfree) as Ht.
  assert (Hrun : forall r w',
             copy_directory dir_path (PStr sd) w = (r, w') ->
             grows D (files w) (files w')).
  { intros r w'. exact (copy_directory_grows dir_path sd q es w r w' Hb Ht Hsd). }
  unfold copy_directory in *. cbn [os_path_join_val] in *.
  unfold bind at 1. unfold ret at 1. unfold bind at 1.
  rewrite os_makedirs_eq.
  pose proof (makedirs_child sd dir_path true (files w) q es Hwf Hb Hsd Hfree)
    as Hmk.
  rewrite Hmk. cbn [fst snd].
  set (x1 := with_root (files w) (Tree.put (root (files w)) D (Dir []))).
  destruct (makedirs_under D (files w) sd q es dir_path true (Ok tt) x1
              Ht Hsd ltac:(reflexivity) Hb Hmk) as (Hg1 & Hdst).
  destruct (Hdst eq_refl) as (es' & Hdst1).
  assert (Hes' : es' = []).
  { pose proof (resolve_present _ _ _ _ _ Hdst1) as Hget.
    unfold x1 in Hget. cbn [root with_root] in Hget. unfold D in Hget.
    rewrite (get_put q (root (files w)) es dir_path (Dir [])
               (resolve_present _ _ _ _ _ Hsd)) in Hget.
    now injection Hget as <-. }
  subst es'.
  pose proof (source_kept D (files w) x1 _ ps esT Hg1 Hsrc H1 H2) as Hsrc1.
  destruct (copy_tree_copies
              (if negb (String.eqb dir_path "dist") then dir_path else "build")
              (Path.join sd dir_path) ps esT D []
              {| files := x1;
                 log := log w ++
                        [(Makedirs (Path.join sd dir_path) true,
                          outcome_of (fun _ : unit => RNone) (Ok tt))] |}
              H1 H2 (proj1 Hg1) Hsrc1 Hdst1)
    as (w' & Hcopy & Hfiles).
  - apply Forall_forall. intros e _. reflexivity.
  - exact Hclean.
  - exact Hh.
  - exists w'. split; [exact Hcopy|].
    assert (Hf : files w' = with_root (files w)
                              (Tree.put (root (files w)) D (Dir esT))).
    { rewrite Hfiles. cbn [files app]. unfold x1. cbn [root with_root].
      unfold with_root. cbn [cwd]. now rewrite put_put_same. }
    split; [exact Hf|].
    apply (Hrun (Ok tt) w').
    unfold bind at 1. unfold ret at 1. unfold bind at 1.
    rewrite os_makedirs_eq, Hmk. exact Hcopy.
Qed.

Lemma prefix_snoc_same (a : list string) c c' :
  (a ++ [c]) `prefix_of` (a ++ [c']) -> c = c'.
Proof.
  intros [k Hk]. pose proof (f_equal (@length string) Hk) as Hlen.
  rewrite !length_app in Hlen. simpl in Hlen.
  destruct k as [|x k]; [|simpl in Hlen; lia].
  rewrite app_nil_r in Hk. apply app_inj_tail in Hk. now destruct Hk.
Qed.

(** An invocation on clean sources and a site directory in which [dist] and
    [demos] are free names: the two destinations become the two source
    trees, and nothing else changes. *)
Lemma copy_static_files_copies config kwargs sd q es pb esB pd esD w :
  config !! "site_dir" = Some (PStr sd) ->
  wf (files w) -> names_ok (root (files w)) ->
  resolve (files w) true sd = Ok (Present q (Dir es)) ->
  Tree.get (root (files w)) (q ++ ["dist"]) = None ->
  Tree.get (root (files w)) (q ++ ["demos"]) = None ->
  resolve (files w) true "build" = Ok (Present pb (Dir esB)) ->
  clean (Dir esB) -> height (Dir esB) <= S copytree_levels ->
  resolve (files w) true "demos" = Ok (Present pd (Dir esD)) ->
  clean (Dir esD) -> height (Dir esD) <= S copytree_levels ->
  ~ (q ++ ["dist"]) `prefix_of` pb -> ~ pb `prefix_of` (q ++ ["dist"]) ->
  ~ (q ++ ["dist"]) `prefix_of` pd -> ~ pd `prefix_of` (q ++ ["dist"]) ->
  ~ (q ++ ["demos"]) `prefix_of` pd -> ~ pd `prefix_of` (q ++ ["demos"]) ->
  exists w',
    copy_static_files config kwargs w = (Ok tt, w') /\
    files w' =
      with_root (files w)
        (Tree.put (Tree.put (root (files w)) (q ++ ["dist"]) (Dir esB))
           (q ++ ["demos"]) (Dir esD)).
Proof.
  intros Hsd Hwf Hnames Hq Hf1 Hf2 Hb Hcb Hhb Hd Hcd Hhd B1 B2 D1 D2 E1 E2.
  destruct (copy_directory_copies "dist" sd q es pb esB w eq_refl Hwf Hnames
              Hq Hf1 Hb Hcb Hhb B1 B2) as (w1 & Hrun1 & Hfiles1 & Hg1).
  pose proof Hg1 as ((Hwf1 & Hnames1 & _) & Hout1 & Hk1).
  destruct (Hk1 _ _ _ Hq) as (es1 & Hq1).
  assert (Hfree1 : Tree.get (root (files w1)) (q ++ ["demos"]) = None).
  { rewrite (Hout1 (q ++ ["demos"])); [exact Hf2| |].
    - intros Hp. apply prefix_snoc_same in Hp. discriminate.
    - intros Hp. apply prefix_snoc_same in Hp. discriminate. }
  pose proof (source_kept _ (files w) (files w1) "demos" pd esD Hg1 Hd D1 D2)
    as Hd1.
  destruct (copy_directory_copies "demos" sd q es1 pd esD w1 eq_refl Hwf1
              Hnames1 Hq1 Hfree1 Hd1 Hcd Hhd E1 E2)
    as (w2 & Hrun2 & Hfiles2 & _).
  exists w2. split.
  - unfold copy_static_files, getitem. rewrite Hsd.
    unfold bind at 1. unfold ret at 1. unfold bind at 1.
    rewrite Hrun1. exact Hrun2.
  - rewrite Hfiles2, Hfiles1. reflexivity.
Qed.

End PublishFacts.

Section CleanFacts.

Import Kernel PyLib Hooks.

Lemma clean_entry es : forall c n,
  clean (Dir es) -> Tree.entry c es = Some n ->
  plain_name c = true /\ clean n.
Proof.
  induction es as [|[k x] es IH]; intros c n Hcl; simpl; [discriminate|].
  apply clean_cons in Hcl. destruct Hcl as (Hk & _ & Hx & Hes).
  destruct (String.eqb_spec c k) as [->|Hne].
  - intros [= <-]. now split.
  - exact (IH c n Hes).
Qed.

Lemma clean_get q : forall r n,
  clean r -> Tree.get r q = Some n -> clean n.
Proof.
  induction q as [|c q IH]; intros r n Hcl; simpl.
  - now intros [= <-].
  - destruct r as [d m|es|t]; try discriminate.
    destruct (Tree.entry c es) as [n'|] eqn:E; [|discriminate].
    exact (IH n' n (proj2 (clean_entry es c n' Hcl E))).
Qed.

(** A tree without links and with distinct plain names is tidy
    everywhere. *)
Lemma clean_tidy D w : wf w -> clean (root w) -> tidy D w.
Proof.
  intros Hwf Hcl. split; [exact Hwf|]. split.
  - intros q c n Hn. rewrite get_app in Hn.
    destruct (Tree.get (root w) q) as [r|] eqn:Hq; [|discriminate].
    pose proof (clean_get q _ _ Hcl Hq) as Hr. simpl in Hn.
    destruct r as [d m|es|t]; try discriminate.
    destruct (Tree.entry c es) as [n'|] eqn:E; [|discriminate].
    exact (proj1 (clean_entry es c n' Hr E)).
  - intros q t _ Hn. exact (clean_get q _ _ Hcl Hn).
Qed.

End CleanFacts.

(** ** Invariants of the writes

    Every write of an invocation makes an empty directory at a free name or
    stores a regular file at a free name or over a regular file.  A relation
    between file systems that these writes keep is kept by the library calls
    and by the three functions. *)

Section Writes.

Import Kernel PyLib Hooks.

Variable R : fs -> fs -> Prop.

Hypothesis R_refl : forall w, wf w -> R w w.
Hypothesis R_trans : forall w1 w2 w3, R w1 w2 -> R w2 w3 -> R w1 w3.
Hypothesis R_wf : forall w w', R w w' -> wf w'.
Hypothesis R_make : forall w path p,
  wf w -> resolve w false path = Ok (Absent p) ->
  R w (with_root w (Tree.put (root w) p (Dir []))).
Hypothesis R_store : forall w path p d m,
  wf w ->
  (resolve w true path = Ok (Absent p) \/
   exists d0 m0, resolve w true path = Ok (Present p (File d0 m0))) ->
  R w (with_root w (Tree.put (root w) p (File d m))).

Lemma mkdir_leaf_inv name exist_ok w r w' :
  wf w -> mkdir_leaf name exist_ok w = (r, w') -> R w w'.
Proof.
  intros Hwf. unfold mkdir_leaf.
  destruct (mkdir name w) as [[[]|e] w1] eqn:E.
  - intros [= _ <-]. destruct (mkdir_ok _ _ _ E) as (p & Hres & ->).
    exact (R_make w name p Hwf Hres).
  - apply mkdir_raise in E. subst w1.
    destruct (negb exist_ok || negb (isdir w name)); intros [= _ <-];
      now apply R_refl.
Qed.

Lemma makedirs_rec_inv fuel : forall name exist_ok w r w',
  wf w -> makedirs_rec fuel name exist_ok w = (r, w') -> R w w'.
Proof.
  induction fuel as [|fuel IH]; intros name exist_ok w r w' Hwf.
  - change (makedirs_rec 0 name exist_ok w)
      with (@Raise exn unit RecursionError, w).
    intros [= _ <-]. now apply R_refl.
  - rewrite makedirs_rec_S. cbv zeta.
    set (head' := if Path.is_empty (Path.split name).2
                  then (Path.split (Path.split name).1).1
                  else (Path.split name).1).
    set (tail' := if Path.is_empty (Path.split name).2
                  then (Path.split (Path.split name).1).2
                  else (Path.split name).2).
    destruct (negb (Path.is_empty head') && negb (Path.is_empty tail')
              && negb (exists_ w head')).
    2:{ exact (mkdir_leaf_inv name exist_ok w r w' Hwf). }
    destruct (makedirs_rec fuel head' exist_ok w) as [r1 w1] eqn:Hrec.
    pose proof (IH head' exist_ok w r1 w1 Hwf Hrec) as H1.
    assert (Hleaf : forall r2 w2,
               (if String.eqb tail' "." then (Ok tt, w1)
                else mkdir_leaf name exist_ok w1) = (r2, w2) ->
               R w w2).
    { intros r2 w2. destruct (String.eqb tail' ".").
      - intros [= _ <-]. exact H1.
      - intros Hl. refine (R_trans _ _ _ H1 _).
        exact (mkdir_leaf_inv name exist_ok w1 r2 w2 (R_wf _ _ H1) Hl). }
    destruct r1 as [[]|e]; [exact (Hleaf r w')|].
    destruct e as [[] f| | | | |];
      try (intros [= _ <-]; exact H1).
    exact (Hleaf r w').
Qed.

Lemma copy2_inv src dst w r w' :
  wf w -> copy2 src dst w = (r, w') -> R w w'.
Proof.
  intros Hwf. unfold copy2.
  set (dst' := if isdir w dst then Path.join dst (Path.basename src) else dst).
  destruct (samefile w src dst').
  { intros [= _ <-]. now apply R_refl. }
  destruct (Kernel.read w src) as [[data m]|e].
  2:{ intros [= _ <-]. now apply R_refl. }
  destruct (store w dst' data m) as [w1|e] eqn:Hs.
  2:{ intros [= _ <-]. now apply R_refl. }
  intros [= _ <-]. destruct (store_ok _ _ _ _ _ Hs) as (p & Hres & ->).
  exact (R_store w dst' p data m Hwf Hres).
Qed.

(** The loop of [_copytree] with [symlinks=False], given that the recursive
    call keeps the invariant. *)
Lemma copytree_loop_inv rec src dst ignored :
  (forall s d w r w', wf w -> rec s d w = (r, w') -> R w w') ->
  forall entries errors w r w',
    wf w ->
    copytree_loop rec src dst false ignored entries errors w = (r, w') ->
    R w w'.
Proof.
  intros Hrec. induction entries as [|[name k] entries IH];
    intros errors w r w' Hwf; simpl.
  - intros [= _ <-]. now apply R_refl.
  - destruct (existsb (String.eqb name) ignored).
    { exact (IH errors w r w' Hwf). }
    destruct (copytree_entry rec false (Path.join src name)
                (Path.join dst name) k w) as [r1 w1] eqn:Hstep.
    assert (H1 : R w w1).
    { revert Hstep. unfold copytree_entry. destruct k.
      - exact (copy2_inv _ _ w r1 w1 Hwf).
      - exact (Hrec _ _ w r1 w1 Hwf).
      - unfold bind at 1. unfold readlink.
        destruct (Kernel.readlink w (Path.join src name)).
        + destruct (isdir w (Path.join src name)).
          * exact (Hrec _ _ w r1 w1 Hwf).
          * exact (copy2_inv _ _ w r1 w1 Hwf).
        + intros [= _ <-]. now apply R_refl. }
    destruct (collect (Path.join src name) (Path.join dst name) errors r1)
      as [errors'|e].
    + intros Hloop.
      exact (R_trans _ _ _ H1
               (IH errors' w1 r w' (R_wf _ _ H1) Hloop)).
    + intros [= _ <-]. exact H1.
Qed.

(** [shutil.copytree] with [symlinks=False] keeps the invariant. *)
Lemma copytree_rec_inv levels : forall src dst ignore w r w',
  wf w ->
  copytree_rec levels src dst false ignore w = (r, w') ->
  R w w'.
Proof.
  induction levels as [|levels IH]; intros src dst ignore w r w' Hwf.
  - intros [= _ <-]. now apply R_refl.
  - rewrite copytree_rec_S. unfold bind at 1.
    destruct (scandir w src) as [entries|e] eqn:Hscan.
    2:{ intros [= _ <-]. now apply R_refl. }
    cbv zeta. unfold bind at 1.
    destruct (makedirs dst false w) as [rm w1] eqn:Hmk.
    pose proof (makedirs_rec_inv (S (String.length dst)) dst false
                  w rm w1 Hwf Hmk) as H1.
    destruct rm as [[]|e].
    2:{ intros [= _ <-]. exact H1. }
    unfold bind at 1.
    destruct (copytree_loop _ src dst false _ entries [] w1)
      as [r2 w2] eqn:Hloop.
    pose proof (copytree_loop_inv
                  (fun s d => copytree_rec levels s d false ignore)
                  src dst _
                  (fun s d x rx x' Hx Hrun => IH s d ignore x rx x' Hx Hrun)
                  entries [] w1 r2 w2 (R_wf _ _ H1) Hloop) as H2.
    pose proof (R_trans _ _ _ H1 H2) as H.
    destruct r2 as [[|? ?]|e]; intros [= _ <-]; exact H.
Qed.

Lemma copy_loop_inv src dst ignore :
  forall items w r w',
    wf (files w) ->
    for_each items (fun item =>
      let s := os_path_join src item in
      let d := os_path_join dst item in
      let* is_dir := os_path_isdir s in
      if is_dir then
        let* _ := shutil_copytree s d false ignore in ret tt
      else
        let* _ := shutil_copy2 s d in ret tt) w = (r, w') ->
    R (files w) (files w').
Proof.
  induction items as [|item items IH]; intros w r w' Hwf.
  - intros [= _ <-]. now apply R_refl.
  - cbn [for_each]. unfold bind at 1.
    destruct ((let s := os_path_join src item in
               let d := os_path_join dst item in
               let* is_dir := os_path_isdir s in
               if is_dir then
                 let* _ := shutil_copytree s d false ignore in ret tt
               else
                 let* _ := shutil_copy2 s d in ret tt) w) as [r1 w1] eqn:Hbody.
    assert (H1 : R (files w) (files w1)).
    { revert Hbody. cbv zeta.
      unfold bind at 1. unfold os_path_isdir at 1. rewrite invoke_eq.
      cbn [fst snd].
      destruct (isdir (files w) (os_path_join src item)).
      - unfold bind at 1. unfold shutil_copytree at 1. rewrite invoke_eq.
        cbn [files].
        destruct (copytree (os_path_join src item) (os_path_join dst item)
                    false ignore (files w)) as [rc s1] eqn:Hc.
        cbn [fst snd]. unfold copytree in Hc.
        pose proof (copytree_rec_inv copytree_levels _ _ ignore
                      (files w) rc s1 Hwf Hc) as Hg.
        destruct rc as [a|e]; intros [= _ <-]; exact Hg.
      - unfold bind at 1. unfold shutil_copy2 at 1. rewrite invoke_eq.
        cbn [files].
        destruct (copy2 (os_path_join src item) (os_path_join dst item)
                    (files w)) as [rc s1] eqn:Hc.
        cbn [fst snd].
        pose proof (copy2_inv _ _ (files w) rc s1 Hwf Hc) as Hg.
        destruct rc as [a|e]; intros [= _ <-]; exact Hg. }
    destruct r1 as [[]|e].
    + intros Hrun.
      exact (R_trans _ _ _ H1 (IH w1 r w' (R_wf _ _ H1) Hrun)).
    + intros [= _ <-]. exact H1.
Qed.

Lemma copy_tree_inv src dst ignore w r w' :
  wf (files w) ->
  copy_tree src dst false ignore w = (r, w') ->
  R (files w) (files w').
Proof.
  intros Hwf. unfold copy_tree. unfold bind at 1.
  rewrite os_listdir_eq.
  pose proof (listdir_files src (files w)) as Hs.
  destruct (listdir src (files w)) as [[items|e] s1] eqn:Hl; cbn [fst snd];
    cbn [snd] in Hs; subst s1.
  - intros Hrun.
    exact (copy_loop_inv src dst ignore items
             {| files := files w;
                log := log w ++ [(Listdir src, outcome_of RList (Ok items))] |}
             r w' Hwf Hrun).
  - intros [= _ <-]. now apply R_refl.
Qed.

Lemma copy_directory_inv dir_path sd w r w' :
  wf (files w) ->
  copy_directory dir_path (PStr sd) w = (r, w') ->
  R (files w) (files w').
Proof.
  intros Hwf. unfold copy_directory. cbn [os_path_join_val].
  unfold bind at 1. unfold ret at 1. unfold bind at 1.
  rewrite os_makedirs_eq.
  destruct (makedirs (Path.join sd dir_path) true (files w))
    as [rm s1] eqn:Hmk. cbn [fst snd].
  pose proof (makedirs_rec_inv _ _ true (files w) rm s1 Hwf Hmk)
    as H1.
  destruct rm as [[]|e].
  - intros Hrun. refine (R_trans _ _ _ H1 _).
    exact (copy_tree_inv _ _ None
             {| files := s1;
                log := log w ++
                       [(Makedirs (Path.join sd dir_path) true,
                         outcome_of (fun _ : unit => RNone) (Ok tt))] |}
             r w' (R_wf _ _ H1) Hrun).
  - intros [= _ <-]. exact H1.
Qed.

Lemma copy_static_files_inv config kwargs sd w r w' :
  config !! "site_dir" = Some (PStr sd) ->
  wf (files w) ->
  copy_static_files config kwargs w = (r, w') ->
  R (files w) (files w').
Proof.
  intros Hsd Hwf. unfold copy_static_files, getitem. rewrite Hsd.
  unfold bind at 1. unfold ret at 1. unfold bind at 1.
  destruct (copy_directory "dist" (PStr sd) w) as [r1 w1] eqn:H1.
  pose proof (copy_directory_inv "dist" sd w r1 w1 Hwf H1) as Hg1.
  destruct r1 as [[]|e].
  - intros Hrun. refine (R_trans _ _ _ Hg1 _).
    exact (copy_directory_inv "demos" sd w1 r w' (R_wf _ _ Hg1) Hrun).
  - intros [= _ <-]. exact Hg1.
Qed.

End Writes.
Section KeptFacts.

Import Kernel PyLib Hooks.

Lemma kept_refl n : kept n n.
Proof. now destruct n. Qed.

Lemma kept_trans a b c : kept a b -> kept b c -> kept a c.
Proof. destruct a, b, c; simpl; try tauto. congruence. Qed.

Lemma same_kind_kept n o : same_kind (Some n) o -> exists n', o = Some n' /\ kept n n'.
Proof.
  destruct o as [n'|]; [|now destruct n].
  intros H. exists n'. split; [reflexivity|].
  destruct n, n'; simpl in *; tauto.
Qed.

Lemma nothing_lost_refl w : wf w -> nothing_lost w w.
Proof.
  intros H. split; [exact H|]. intros p n Hp. exists n.
  split; [exact Hp|apply kept_refl].
Qed.

Lemma nothing_lost_trans w1 w2 w3 :
  nothing_lost w1 w2 -> nothing_lost w2 w3 -> nothing_lost w1 w3.
Proof.
  intros [_ H1] [Hwf H2]. split; [exact Hwf|].
  intros p n Hp. destruct (H1 p n Hp) as (n' & Hp' & Hk).
  destruct (H2 p n' Hp') as (n'' & Hp'' & Hk').
  exists n''. split; [exact Hp''|exact (kept_trans _ _ _ Hk Hk')].
Qed.

Lemma nothing_lost_write w path follow p x :
  wf w ->
  (resolve w follow path = Ok (Absent p) \/
   exists d0 m0, resolve w follow path = Ok (Present p (File d0 m0)) /\
                 exists d m, x = File d m) ->
  fresh_leaf x ->
  nothing_lost w (with_root w (Tree.put (root w) p x)).
Proof.
  intros Hwf Hres Hx.
  assert (Hres' : resolve w follow path = Ok (Absent p) \/
                  exists d0 m0, resolve w follow path =
                                Ok (Present p (File d0 m0))).
  { destruct Hres as [H|(d0 & m0 & H & _)]; [now left|right].
    exists d0, m0. exact H. }
  pose proof (resolve_writable _ _ _ _ Hwf Hres') as Hw.
  pose proof (put_agree p (root w) x Hw Hx) as Hag.
  destruct (resolve_put w path follow p x Hwf Hres' Hx) as (Hwf' & Hget & _).
  split; [exact Hwf'|].
  intros q n Hq. cbn [root with_root] in *.
  destruct (decide (q = p)) as [->|Hne].
  - exists x. split; [exact Hget|].
    destruct Hres as [H|(d0 & m0 & H & d & m & ->)].
    + destruct (resolve_absent _ _ _ _ Hwf H) as (? & ? & ? & _ & _ & Hnone).
      rewrite Hnone in Hq. discriminate.
    + apply resolve_present in H. rewrite H in Hq. now injection Hq as <-.
  - pose proof (Hag _ Hne) as Hk. rewrite Hq in Hk.
    exact (same_kind_kept _ _ Hk).
Qed.

Lemma dirs_kept_write w path follow p x :
  wf w ->
  (resolve w follow path = Ok (Absent p) \/
   exists d0 m0, resolve w follow path = Ok (Present p (File d0 m0))) ->
  fresh_leaf x ->
  dirs_kept w (with_root w (Tree.put (root w) p x)).
Proof.
  intros Hwf Hres Hx.
  pose proof (resolve_writable _ _ _ _ Hwf Hres) as Hw.
  destruct (resolve_put w path follow p x Hwf Hres Hx) as (Hwf' & _ & Hsim).
  split; [exact Hwf'|].
  intros path' q es Hq.
  destruct (Hsim _ _ _ Hq) as (res' & H' & [[-> _]|[_ (n' & -> & Hk)]]).
  - exfalso. apply resolve_present in Hq.
    destruct Hw as [Hw|(d & m & Hw)]; rewrite Hw in Hq; discriminate.
  - destruct n' as [| es' |]; simpl in Hk; try contradiction.
    exists es'. exact H'.
Qed.

(** An invocation removes nothing. *)
Lemma copy_static_files_nothing_lost config kwargs sd w r w' :
  config !! "site_dir" = Some (PStr sd) ->
  wf (files w) ->
  copy_static_files config kwargs w = (r, w') ->
  nothing_lost (files w) (files w').
Proof.
  apply (copy_static_files_inv nothing_lost nothing_lost_refl
           nothing_lost_trans (fun w w' H => proj1 H)).
  - intros x path p Hwf Hres.
    exact (nothing_lost_write x path false p (Dir []) Hwf (or_introl Hres) I).
  - intros x path p d m Hwf Hres.
    refine (nothing_lost_write x path true p (File d m) Hwf _ I).
    destruct Hres as [H|(d0 & m0 & H)]; [now left|right].
    exists d0, m0. split; [exact H|]. now exists d, m.
Qed.

Lemma dirs_kept_refl w : wf w -> dirs_kept w w.
Proof. intros H. split; [exact H|apply keeps_dirs_refl]. Qed.

Lemma dirs_kept_trans w1 w2 w3 :
  dirs_kept w1 w2 -> dirs_kept w2 w3 -> dirs_kept w1 w3.
Proof.
  intros [_ H1] [Hwf H2]. split; [exact Hwf|].
  exact (keeps_dirs_trans _ _ _ H1 H2).
Qed.

Lemma dirs_kept_make x path p :
  wf x -> resolve x false path = Ok (Absent p) ->
  dirs_kept x (with_root x (Tree.put (root x) p (Dir []))).
Proof.
  intros Hwf Hres.
  exact (dirs_kept_write x path false p (Dir []) Hwf (or_introl Hres) I).
Qed.

Lemma dirs_kept_store x path p d m :
  wf x ->
  (resolve x true path = Ok (Absent p) \/
   exists d0 m0, resolve x true path = Ok (Present p (File d0 m0))) ->
  dirs_kept x (with_root x (Tree.put (root x) p (File d m))).
Proof.
  intros Hwf Hres. exact (dirs_kept_write x path true p (File d m) Hwf Hres I).
Qed.

Lemma dirs_kept_isdir w w' path :
  dirs_kept w w' -> isdir w path = true -> isdir w' path = true.
Proof.
  intros [_ Hk] Hd. apply isdir_true in Hd. destruct Hd as (p & es & Hd).
  destruct (Hk _ _ _ Hd) as (es' & Hd'). apply isdir_true.
  exists p, es'. exact Hd'.
Qed.

End KeptFacts.

Section Rerun.

Import Kernel PyLib Hooks.

(** [os.makedirs(name)] without [exist_ok] on a name that exists. *)
Lemma makedirs_existing_strict name w :
  wf w ->
  Path.is_empty (Path.split name).2 = false ->
  exists_ w name = true ->
  makedirs name false w = (Raise (FileExistsError name), w).
Proof.
  intros Hwf Ht Hex. pose proof Hex as Hex'. apply exists_true in Hex'.
  destruct Hex' as (p & n & Hres).
  assert (Hleaf : mkdir_leaf name false w = (Raise (FileExistsError name), w)).
  { unfold mkdir_leaf, mkdir, Kernel.mkdir.
    destruct (resolve_lstat _ _ _ _ Hres) as (q' & n' & ->). reflexivity. }
  unfold makedirs. rewrite makedirs_rec_S. cbv zeta.
  rewrite Ht. cbv iota. rewrite Ht.
  destruct (Path.is_empty (Path.split name).1) eqn:Hh.
  - cbn [negb andb]. exact Hleaf.
  - rewrite (head_exists w true name _ Hwf Ht Hh Hres).
    cbn [negb andb]. exact Hleaf.
Qed.

(** [shutil.copytree] to a destination that exists raises
    [FileExistsError] and writes nothing. *)
Lemma copytree_existing src dst symlinks ignore w :
  wf w ->
  Path.is_empty (Path.split dst).2 = false ->
  isdir w src = true ->
  exists_ w dst = true ->
  copytree src dst symlinks ignore w = (Raise (FileExistsError dst), w).
Proof.
  intros Hwf Ht Hs Hd. apply isdir_true in Hs. destruct Hs as (p & es & Hs).
  unfold copytree. change copytree_levels with (S 499).
  rewrite copytree_rec_S. unfold bind at 1. unfold scandir. rewrite Hs.
  cbv zeta. unfold bind at 1.
  rewrite (makedirs_existing_strict dst w Hwf Ht Hd). reflexivity.
Qed.

Lemma entry_In_names c es n :
  Tree.entry c es = Some n -> In c (map fst es).
Proof.
  induction es as [|[k x] es IH]; simpl; [discriminate|].
  destruct (String.eqb_spec c k) as [->|Hne]; [now left|].
  intros H. right. exact (IH H).
Qed.

(** A directory [src/c] is among the names [os.listdir(src)] returns. *)
Lemma listdir_has w src c items w' :
  wf w ->
  plain_name c = true ->
  isdir w (Path.join src c) = true ->
  listdir src w = (Ok items, w') ->
  In c items.
Proof.
  intros Hwf Hc Hd. unfold listdir, scandir.
  destruct (resolve w true src) as [[ps [dd m|esS|t]|ps]|e] eqn:Hsrc;
    try discriminate.
  intros [= <- _]. rewrite map_map. cbn [fst].
  destruct (plain_name_inv c Hc) as (He & Hsep & Hdot & Hdd).
  pose proof (resolve_nonempty _ _ _ _ Hsrc) as Hne.
  apply isdir_true in Hd. destruct Hd as (p & es & Hd).
  destruct (resolve_over w true src c (Path.join src c) ps esS Hwf Hne
              (join_nonempty src c He) (join_startswith src c Hne Hsep)
              (components_join src c Hc) Hsrc) as (links' & Hres).
  rewrite Hd, walk_cons, Hdot, Hdd in Hres.
  rewrite get_app, (resolve_present _ _ _ _ _ Hsrc) in Hres. simpl in Hres.
  destruct (Tree.entry c esS) as [n|] eqn:E; [|discriminate].
  exact (entry_In_names c esS n E).
Qed.

(** The loop of [copy_tree] does not return when an item is a directory
    in the source and in the destination. *)
Lemma copy_loop_existing src dst ignore c :
  plain_name c = true ->
  forall items w r w',
    wf (files w) ->
    In c items ->
    isdir (files w) (Path.join src c) = true ->
    isdir (files w) (Path.join dst c) = true ->
    for_each items (fun item =>
      let s := os_path_join src item in
      let d := os_path_join dst item in
      let* is_dir := os_path_isdir s in
      if is_dir then
        let* _ := shutil_copytree s d false ignore in ret tt
      else
        let* _ := shutil_copy2 s d in ret tt) w = (r, w') ->
    exists e, r = Raise e.
Proof.
  intros Hc. induction items as [|item items IH];
    intros w r w' Hwf Hin Hs Hd; [contradiction|].
  cbn [for_each]. unfold bind at 1.
  destruct ((let s := os_path_join src item in
             let d := os_path_join dst item in
             let* is_dir := os_path_isdir s in
             if is_dir then
               let* _ := shutil_copytree s d false ignore in ret tt
             else
               let* _ := shutil_copy2 s d in ret tt) w) as [r1 w1] eqn:Hbody.
  destruct r1 as [[]|e]; [|intros [= <- _]; now exists e].
  destruct (String.eqb_spec item c) as [->|Hne].
  - exfalso. revert Hbody. cbv zeta. unfold os_path_join.
    unfold bind at 1. unfold os_path_isdir at 1. rewrite invoke_eq.
    cbn [fst snd]. rewrite Hs.
    unfold bind at 1. unfold shutil_copytree at 1. rewrite invoke_eq.
    cbn [files].
    rewrite (copytree_existing (Path.join src c) (Path.join dst c) false
               ignore (files w) Hwf); [discriminate| |exact Hs|].
    + rewrite (proj1 (split_join dst c Hc)).
      exact (proj1 (plain_name_inv c Hc)).
    + now apply isdir_exists.
  - destruct Hin as [Heq|Hin]; [contradiction|].
    assert (Hone : for_each [item] (fun item =>
              let s := os_path_join src item in
              let d := os_path_join dst item in
              let* is_dir := os_path_isdir s in
              if is_dir then
                let* _ := shutil_copytree s d false ignore in ret tt
              else
                let* _ := shutil_copy2 s d in ret tt) w = (Ok tt, w1)).
    { cbn [for_each]. unfold bind at 1. cbv zeta in Hbody |- *.
      rewrite Hbody. reflexivity. }
    pose proof (copy_loop_inv dirs_kept dirs_kept_refl dirs_kept_trans
                  (fun a b H => proj1 H) dirs_kept_make dirs_kept_store
                  src dst ignore [item] w (Ok tt) w1 Hwf Hone) as Hk.
    exact (IH w1 r w' (proj1 Hk) Hin
             (dirs_kept_isdir _ _ _ Hk Hs) (dirs_kept_isdir _ _ _ Hk Hd)).
Qed.

Lemma copy_tree_existing src dst ignore c w r w' :
  plain_name c = true ->
  wf (files w) ->
  isdir (files w) (Path.join src c) = true ->
  isdir (files w) (Path.join dst c) = true ->
  copy_tree src dst false ignore w = (r, w') ->
  exists e, r = Raise e.
Proof.
  intros Hc Hwf Hs Hd. unfold copy_tree. unfold bind at 1.
  rewrite os_listdir_eq.
  pose proof (listdir_files src (files w)) as Hf.
  destruct (listdir src (files w)) as [[items|e] s1] eqn:Hl; cbn [fst snd];
    cbn [snd] in Hf; subst s1.
  - intros Hrun.
    exact (copy_loop_existing src dst ignore c Hc items
             {| files := files w;
                log := log w ++ [(Listdir src, outcome_of RList (Ok items))] |}
             r w' Hwf (listdir_has _ _ _ _ _ Hwf Hc Hs Hl) Hs Hd Hrun).
  - intros [= <- _]. now exists e.
Qed.

Lemma copy_directory_existing dir_path sd c w r w' :
  plain_name c = true ->
  wf (files w) ->
  isdir (files w)
    (Path.join (if negb (String.eqb dir_path "dist") then dir_path
                else "build") c) = true ->
  isdir (files w) (Path.join (Path.join sd dir_path) c) = true ->
  copy_directory dir_path (PStr sd) w = (r, w') ->
  exists e, r = Raise e.
Proof.
  intros Hc Hwf Hs Hd. unfold copy_directory. cbn [os_path_join_val].
  unfold bind at 1. unfold ret at 1. unfold bind at 1.
  rewrite os_makedirs_eq.
  destruct (makedirs (Path.join sd dir_path) true (files w))
    as [rm s1] eqn:Hmk. cbn [fst snd].
  pose proof (makedirs_rec_inv dirs_kept dirs_kept_refl dirs_kept_trans
                (fun a b H => proj1 H) dirs_kept_make _ _ true (files w) rm s1
                Hwf Hmk) as Hk.
  destruct rm as [[]|e]; [|intros [= <- _]; now exists e].
  intros Hrun.
  exact (copy_tree_existing _ _ None c
           {| files := s1;
              log := log w ++
                     [(Makedirs (Path.join sd dir_path) true,
                       outcome_of (fun _ : unit => RNone) (Ok tt))] |}
           r w' Hc (proj1 Hk)
           (dirs_kept_isdir _ _ _ Hk Hs) (dirs_kept_isdir _ _ _ Hk Hd) Hrun).
Qed.

End Rerun.

Section RerunPublish.

Import Kernel PyLib Hooks.

Lemma copy_static_files_existing config kwargs sd c w r w' :
  config !! "site_dir" = Some (PStr sd) ->
  wf (files w) ->
  plain_name c = true ->
  (isdir (files w) (Path.join "build" c) = true /\
   isdir (files w) (Path.join (Path.join sd "dist") c) = true) \/
  (isdir (files w) (Path.join "demos" c) = true /\
   isdir (files w) (Path.join (Path.join sd "demos") c) = true) ->
  copy_static_files config kwargs w = (r, w') ->
  exists e, r = Raise e.
Proof.
  intros Hsd Hwf Hc Hcase. unfold copy_static_files, getitem. rewrite Hsd.
  unfold bind at 1. unfold ret at 1. unfold bind at 1.
  destruct (copy_directory "dist" (PStr sd) w) as [r1 w1] eqn:H1.
  destruct Hcase as [[Hs Hd]|[Hs Hd]].
  - destruct (copy_directory_existing "dist" sd c w r1 w1 Hc Hwf Hs Hd H1)
      as (e & ->).
    intros [= <- _]. now exists e.
  - destruct r1 as [[]|e]; [|intros [= <- _]; now exists e].
    pose proof (copy_directory_inv dirs_kept dirs_kept_refl dirs_kept_trans
                  (fun a b H => proj1 H) dirs_kept_make dirs_kept_store
                  "dist" sd w (Ok tt) w1 Hwf H1) as Hk.
    exact (copy_directory_existing "demos" sd c w1 r w' Hc (proj1 Hk)
             (dirs_kept_isdir _ _ _ Hk Hs) (dirs_kept_isdir _ _ _ Hk Hd)).
Qed.

(** Where a directory entry of a directory is. *)
Lemma isdir_child w d pd es c esc :
  wf w ->
  resolve w true d = Ok (Present pd (Dir es)) ->
  plain_name c = true ->
  Tree.entry c es = Some (Dir esc) ->
  resolve w true (Path.join d c) = Ok (Present (pd ++ [c]) (Dir esc)).
Proof.
  intros Hwf Hd Hc He.
  assert (Hget : Tree.get (root w) (pd ++ [c]) = Some (Dir esc)).
  { rewrite get_app, (resolve_present _ _ _ _ _ Hd). simpl. now rewrite He. }
  rewrite (resolve_child w d pd es c true Hwf Hd Hc).
  - now rewrite Hget.
  - intros t. now rewrite Hget.
Qed.

Lemma isdir_of_resolve w path p es :
  resolve w true path = Ok (Present p (Dir es)) -> isdir w path = true.
Proof. intros H. apply isdir_true. exists p, es. exact H. Qed.

(** After an invocation on clean sources and a fresh site, a second one
    raises when a source has a subdirectory. *)
Lemma copy_static_files_twice config kwargs sd q es pb esB pd esD c esc w :
  config !! "site_dir" = Some (PStr sd) ->
  wf (files w) -> names_ok (root (files w)) ->
  resolve (files w) true sd = Ok (Present q (Dir es)) ->
  Tree.get (root (files w)) (q ++ ["dist"]) = None ->
  Tree.get (root (files w)) (q ++ ["demos"]) = None ->
  resolve (files w) true "build" = Ok (Present pb (Dir esB)) ->
  clean (Dir esB) -> height (Dir esB) <= S copytree_levels ->
  resolve (files w) true "demos" = Ok (Present pd (Dir esD)) ->
  clean (Dir esD) -> height (Dir esD) <= S copytree_levels ->
  ~ (q ++ ["dist"]) `prefix_of` pb -> ~ pb `prefix_of` (q ++ ["dist"]) ->
  ~ (q ++ ["dist"]) `prefix_of` pd -> ~ pd `prefix_of` (q ++ ["dist"]) ->
  ~ (q ++ ["demos"]) `prefix_of` pd -> ~ pd `prefix_of` (q ++ ["demos"]) ->
  Tree.entry c esB = Some (Dir esc) \/ Tree.entry c esD = Some (Dir esc) ->
  exists w1 e w2,
    copy_static_files config kwargs w = (Ok tt, w1) /\
    copy_static_files config kwargs w1 = (Raise e, w2).
Proof.
  intros Hsd Hwf Hnames Hq Hf1 Hf2 Hb Hcb Hhb Hd Hcd Hhd B1 B2 D1 D2 E1 E2 Hsub.
  destruct (copy_static_files_copies config kwargs sd q es pb esB pd esD w
              Hsd Hwf Hnames Hq Hf1 Hf2 Hb Hcb Hhb Hd Hcd Hhd
              B1 B2 D1 D2 E1 E2) as (w1 & Hrun & Hfiles).
  pose proof (copy_static_files_inv dirs_kept dirs_kept_refl dirs_kept_trans
                (fun a b H => proj1 H) dirs_kept_make dirs_kept_store
                config kwargs sd w (Ok tt) w1 Hsd Hwf Hrun) as Hk.
  pose proof (proj1 Hk) as Hwf1.
  destruct (proj2 Hk _ _ _ Hq) as (es1 & Hq1).
  pose proof (resolve_present _ _ _ _ _ Hq) as Hgq.
  assert (Hdist : Tree.get (root (files w1)) (q ++ ["dist"]) = Some (Dir esB)).
  { rewrite Hfiles. cbn [root with_root]. rewrite get_put_other.
    - exact (get_put q _ es "dist" (Dir esB) Hgq).
    - intros Hp. apply prefix_snoc_same in Hp. discriminate.
    - intros Hp. apply prefix_snoc_same in Hp. discriminate. }
  assert (Hdemos : Tree.get (root (files w1)) (q ++ ["demos"]) =
                   Some (Dir esD)).
  { rewrite Hfiles. cbn [root with_root].
    rewrite (put_child q (root (files w)) es "dist" (Dir esB) Hgq).
    exact (get_put q _ _ "demos" (Dir esD)
             (get_put_at q (root (files w)) _ _ Hgq)). }
  assert (Hsite : forall name esT,
             plain_name name = true ->
             Tree.get (root (files w1)) (q ++ [name]) = Some (Dir esT) ->
             resolve (files w1) true (Path.join sd name) =
             Ok (Present (q ++ [name]) (Dir esT))).
  { intros name esT Hn Hg.
    rewrite (resolve_child (files w1) sd q es1 name true Hwf1 Hq1 Hn).
    - now rewrite Hg.
    - intros t. now rewrite Hg. }
  destruct (copy_static_files config kwargs w1) as [r2 w2] eqn:Hrun2.
  assert (Hc : plain_name c = true).
  { destruct Hsub as [He|He].
    - exact (proj1 (clean_entry esB c _ Hcb He)).
    - exact (proj1 (clean_entry esD c _ Hcd He)). }
  destruct (copy_static_files_existing config kwargs sd c w1 r2 w2 Hsd Hwf1
              Hc) as (e & ->); [|exact Hrun2|].
  - destruct Hsub as [He|He]; [left|right]; split.
    + apply (dirs_kept_isdir _ _ _ Hk).
      exact (isdir_of_resolve _ _ _ _ (isdir_child _ _ _ _ _ _ Hwf Hb Hc He)).
    + exact (isdir_of_resolve _ _ _ _
               (isdir_child _ _ _ _ _ _ Hwf1
                  (Hsite "dist" esB eq_refl Hdist) Hc He)).
    + apply (dirs_kept_isdir _ _ _ Hk).
      exact (isdir_of_resolve _ _ _ _ (isdir_child _ _ _ _ _ _ Hwf Hd Hc He)).
    + exact (isdir_of_resolve _ _ _ _
               (isdir_child _ _ _ _ _ _ Hwf1
                  (Hsite "demos" esD eq_refl Hdemos) Hc He)).
  - exists w1, e, w2. split; [exact Hrun|exact Hrun2].
Qed.

End RerunPublish.

Section FramePublish.

Import Kernel PyLib Hooks.

(** What lies below a sibling of the destination is as it was. *)
Lemma grows_sibling q a b w w' :
  a <> b ->
  grows (q ++ [a]) w w' ->
  link_free_below (q ++ [b]) (root w) ->
  tidy (q ++ [b]) w'.
Proof.
  intros Hab ((Hwf & Hnames & _) & Hout & _) Hl.
  split; [exact Hwf|]. split; [exact Hnames|].
  intros p t Hp. rewrite (Hout p).
  - exact (Hl p t Hp).
  - intros Ha. destruct (prefix_weak_total _ _ _ Ha Hp) as [H|H];
      apply prefix_snoc_same in H; congruence.
  - intros Ha. apply Hab. symmetry.
    exact (prefix_snoc_same q b a (transitivity Hp Ha)).
Qed.

(** An invocation whose site directory exists writes below the two
    destinations only, whether it returns or raises. *)
Lemma copy_static_files_frame config kwargs sd q es w r w' :
  config !! "site_dir" = Some (PStr sd) ->
  resolve (files w) true sd = Ok (Present q (Dir es)) ->
  tidy (q ++ ["dist"]) (files w) ->
  link_free_below (q ++ ["demos"]) (root (files w)) ->
  copy_static_files config kwargs w = (r, w') ->
  forall p,
    ~ (q ++ ["dist"]) `prefix_of` p -> ~ p `prefix_of` (q ++ ["dist"]) ->
    ~ (q ++ ["demos"]) `prefix_of` p -> ~ p `prefix_of` (q ++ ["demos"]) ->
    Tree.get (root (files w')) p = Tree.get (root (files w)) p.
Proof.
  intros Hsd Hq Ht Hl. unfold copy_static_files, getitem. rewrite Hsd.
  unfold bind at 1. unfold ret at 1. unfold bind at 1.
  destruct (copy_directory "dist" (PStr sd) w) as [r1 w1] eqn:H1.
  pose proof (copy_directory_grows "dist" sd q es w r1 w1 eq_refl Ht Hq H1)
    as Hg1.
  destruct r1 as [[]|e].
  - intros H2 p A1 A2 B1 B2.
    pose proof (grows_sibling q "dist" "demos" _ _ ltac:(discriminate) Hg1 Hl)
      as Ht1.
    destruct (proj2 (proj2 Hg1) _ _ _ Hq) as (es1 & Hq1).
    pose proof (copy_directory_grows "demos" sd q es1 w1 r w' eq_refl Ht1 Hq1
                  H2) as Hg2.
    rewrite (proj1 (proj2 Hg2) p B1 B2).
    exact (proj1 (proj2 Hg1) p A1 A2).
  - intros [= _ <-] p A1 A2 _ _.
    exact (proj1 (proj2 Hg1) p A1 A2).
Qed.

End FramePublish.

Section Collisions.

Import Kernel PyLib Hooks.

(** Going on from a regular file is [ENOTDIR]. *)
Lemma walk_app_file links r :
  (exists es0, r = Dir es0) ->
  forall follow cur cs rest q d m,
    rest <> [] ->
    (exists es, Tree.get r cur = Some (Dir es)) ->
    walk links r true cur cs = Ok (Present q (File d m)) ->
    walk links r follow cur (cs ++ rest) = Raise ENOTDIR.
Proof.
  intros Hr. induction links as [links IHl] using lt_wf_ind.
  intros follow cur cs rest q d m Hrest. revert cur.
  induction cs as [|c cs IH]; intros cur Hcur.
  - rewrite walk_nil. destruct Hcur as [es ->]. discriminate.
  - rewrite <- app_comm_cons, !walk_cons.
    destruct (String.eqb c "."); [now apply IH|].
    destruct (String.eqb c "..").
    { apply IH. destruct Hcur as [es Hcur]. eapply get_removelast; eauto. }
    assert (Hne : exists x l, cs ++ rest = x :: l).
    { destruct cs as [|x l]; [|simpl; eauto].
      destruct rest as [|x l]; [congruence|simpl; eauto]. }
    destruct Hne as (x & l & Hxl).
    destruct (Tree.get r (cur ++ [c])) as [[d0 m0|es|t]|] eqn:E.
    + rewrite Hxl. destruct cs; [reflexivity|discriminate].
    + apply IH. eauto.
    + rewrite Hxl.
      assert (Hlink :
        match links with
        | O => Raise ELOOP
        | S links' =>
            if Path.is_empty t then Raise ENOENT
            else walk links' r true
                   (if Path.startswith_sep t then [] else cur)
                   (Path.components t ++ cs)
        end = Ok (Present q (File d m)) ->
        match links with
        | O => Raise ELOOP
        | S links0 =>
            if Path.is_empty t then Raise ENOENT
            else walk links0 r follow
                   (if Path.startswith_sep t then [] else cur)
                   (Path.components t ++ x :: l)
        end = Raise ENOTDIR).
      { destruct links as [|links']; [discriminate|].
        destruct (Path.is_empty t); [discriminate|].
        rewrite <- Hxl, app_assoc. apply IHl; [lia|exact Hrest|].
        destruct (Path.startswith_sep t); [|exact Hcur].
        destruct Hr as [es0 ->]. simpl. eauto. }
      destruct cs; exact Hlink.
    + destruct cs; discriminate.
Qed.

Lemma resolve_over_file w follow a b path q d m :
  wf w ->
  Path.is_empty a = false ->
  Path.is_empty path = false ->
  Path.startswith_sep path = Path.startswith_sep a ->
  Path.components path = Path.components a ++ [b] ->
  resolve w true a = Ok (Present q (File d m)) ->
  resolve w follow path = Raise ENOTDIR.
Proof.
  intros Hwf Ha Hp Hs Hc. unfold resolve. rewrite Ha, Hp, Hs, Hc.
  exact (walk_app_file MAXSYMLINKS (root w) (wf_root w Hwf) follow
           (if Path.startswith_sep a then [] else cwd w)
           (Path.components a) [b] q d m ltac:(discriminate)
           (start_dir w a Hwf)).
Qed.

(** [os.makedirs] for a destination that is a regular file. *)
Lemma makedirs_on_file name w p d m :
  wf w ->
  Path.is_empty (Path.split name).2 = false ->
  resolve w true name = Ok (Present p (File d m)) ->
  makedirs name true w = (Raise (FileExistsError name), w).
Proof.
  intros Hwf Ht Hres.
  assert (Hleaf : mkdir_leaf name true w = (Raise (FileExistsError name), w)).
  { unfold mkdir_leaf, mkdir, Kernel.mkdir.
    destruct (resolve_lstat _ _ _ _ Hres) as (q' & n' & ->).
    unfold isdir, Kernel.stat. rewrite Hres. reflexivity. }
  unfold makedirs. rewrite makedirs_rec_S. cbv zeta.
  rewrite Ht. cbv iota. rewrite Ht.
  destruct (Path.is_empty (Path.split name).1) eqn:Hh.
  - cbn [negb andb]. exact Hleaf.
  - rewrite (head_exists w true name _ Hwf Ht Hh Hres).
    cbn [negb andb]. exact Hleaf.
Qed.

(** [os.makedirs] for a destination in a site directory that is a
    regular file. *)
Lemma makedirs_in_file sd b w q d m :
  wf w ->
  plain_name b = true ->
  resolve w true sd = Ok (Present q (File d m)) ->
  makedirs (Path.join sd b) true w =
  (Raise (NotADirectoryError (Path.join sd b)), w).
Proof.
  intros Hwf Hb Hq.
  destruct (plain_name_inv b Hb) as (Hbe & Hbs & Hbdot & Hbdd).
  pose proof (resolve_nonempty _ _ _ _ Hq) as Hsd.
  destruct (split_join sd b Hb) as (Htail & Hc & He & Hs).
  specialize (Hs Hsd). rewrite Hsd in He.
  assert (Hres : forall follow,
             resolve w follow (Path.join sd b) = Raise ENOTDIR).
  { intros follow.
    exact (resolve_over_file w follow sd b (Path.join sd b) q d m Hwf Hsd
             (join_nonempty sd b Hbe) (join_startswith sd b Hsd Hbs)
             (components_join sd b Hb) Hq). }
  unfold makedirs. rewrite makedirs_rec_S. cbv zeta.
  rewrite Htail, Hbe. cbv iota. rewrite He, Hbe.
  assert (Hex : exists_ w (Path.split (Path.join sd b)).1 = true).
  { apply exists_true. exists q, (File d m). rewrite <- Hq.
    apply resolve_ext; [exact Hc|exact Hs|]. now rewrite He, Hsd. }
  rewrite Hex. cbn [negb andb].
  unfold mkdir_leaf, mkdir, Kernel.mkdir. rewrite (Hres false).
  unfold isdir, Kernel.stat. rewrite (Hres true). reflexivity.
Qed.

End Collisions.

(** ** The parameters of copy_tree *)

Section Parameters.

Import Kernel PyLib Hooks.

Variables src dst : string.

(** The body of the loop of [copy_tree]. *)
Let step (symlinks : bool) (ignore : option ignore_fn) (item : string)
  : M world unit :=
  let s := os_path_join src item in
  let d := os_path_join dst item in
  let* is_dir := os_path_isdir s in
  if is_dir then
    let* _ := shutil_copytree s d symlinks ignore in ret tt
  else
    let* _ := shutil_copy2 s d in ret tt.

Lemma step_file symlinks ignore symlinks' ignore' item w :
  isdir (files w) (os_path_join src item) = false ->
  step symlinks ignore item w = step symlinks' ignore' item w.
Proof.
  intros Hd. unfold step. cbv zeta.
  change (match os_path_isdir (os_path_join src item) w with
          | (Ok a, s') =>
              (if a
               then let* _ := shutil_copytree (os_path_join src item)
                                (os_path_join dst item) symlinks ignore
                    in ret tt
               else let* _ := shutil_copy2 (os_path_join src item)
                                (os_path_join dst item)
                    in ret tt) s'
          | (Raise e, s') => (Raise e, s')
          end =
          match os_path_isdir (os_path_join src item) w with
          | (Ok a, s') =>
              (if a
               then let* _ := shutil_copytree (os_path_join src item)
                                (os_path_join dst item) symlinks' ignore'
                    in ret tt
               else let* _ := shutil_copy2 (os_path_join src item)
                                (os_path_join dst item)
                    in ret tt) s'
          | (Raise e, s') => (Raise e, s')
          end).
  unfold os_path_isdir. rewrite invoke_eq. cbn [fst snd]. now rewrite Hd.
Qed.

Lemma step_dir symlinks ignore item w r1 w1 :
  isdir (files w) (os_path_join src item) = true ->
  step symlinks ignore item w = (r1, w1) ->
  exists o,
    log w1 =
    log w ++
    [(Isdir (os_path_join src item), Returned (RBool true));
     (Copytree (os_path_join src item) (os_path_join dst item)
        symlinks ignore, o)].
Proof.
  intros Hd. unfold step. cbv zeta.
  unfold bind at 1. unfold os_path_isdir. rewrite invoke_eq.
  cbn [fst snd]. rewrite Hd.
  unfold bind at 1. unfold shutil_copytree. rewrite invoke_eq.
  cbn [files log].
  destruct (copytree (os_path_join src item) (os_path_join dst item)
              symlinks ignore (files w)) as [[a|e] s1]; cbn [fst snd];
    intros [= _ <-]; cbn [log]; rewrite <- app_assoc; eauto.
Qed.

Lemma step_log symlinks ignore item w r1 w1 :
  step symlinks ignore item w = (r1, w1) -> exists l1, log w1 = log w ++ l1.
Proof.
  intros H.
  assert (Hone : for_each [item] (step symlinks ignore) w =
                 (match r1 with Ok _ => Ok tt | Raise e => Raise e end, w1)).
  { cbn [for_each]. unfold bind at 1. rewrite H. now destruct r1 as [[]|e]. }
  destruct (loop_shape src dst symlinks ignore [item] _ _ _ Hone)
    as (l & [Hl _] & _).
  eauto.
Qed.

(** The loop of [copy_tree] in a run that never calls [shutil.copytree]
    does the same with any other [symlinks] and [ignore]. *)
Lemma copy_loop_params symlinks ignore symlinks' ignore' :
  forall items w r w',
    for_each items (step symlinks ignore) w = (r, w') ->
    (forall l, log w' = log w ++ l ->
               Forall (fun ev : event => ~ is_copytree ev.1) l) ->
    for_each items (step symlinks' ignore') w = (r, w').
Proof.
  induction items as [|item items IH]; intros w r w'; [now intros H _|].
  cbn [for_each]. unfold bind at 1. unfold bind at 1.
  destruct (step symlinks ignore item w) as [r1 w1] eqn:Hb.
  intros Hrun Hno.
  assert (Hrest : exists l2, log w' = log w1 ++ l2).
  { destruct r1 as [[]|e].
    - destruct (loop_shape src dst symlinks ignore items _ _ _ Hrun)
        as (l2 & [Hl _] & _). eauto.
    - injection Hrun as _ <-. exists []. now rewrite app_nil_r. }
  destruct Hrest as (l2 & Hl2).
  destruct (isdir (files w) (os_path_join src item)) eqn:Hd.
  - exfalso. destruct (step_dir _ _ _ _ _ _ Hd Hb) as (o & Hl1).
    assert (HF : Forall (fun ev : event => ~ is_copytree ev.1)
                   ([(Isdir (os_path_join src item), Returned (RBool true));
                     (Copytree (os_path_join src item)
                        (os_path_join dst item) symlinks ignore, o)] ++ l2)).
    { apply Hno. rewrite Hl2, Hl1. now rewrite <- app_assoc. }
    inversion HF as [|? ? _ HF']; subst.
    inversion HF' as [|? ? Hct _]; subst. apply Hct. exact I.
  - rewrite <- (step_file symlinks ignore symlinks' ignore' item w Hd), Hb.
    destruct r1 as [[]|e]; [|exact Hrun].
    apply IH; [exact Hrun|].
    intros l Hl. destruct (step_log _ _ _ _ _ _ Hb) as (l1 & Hl1).
    assert (HF : Forall (fun ev : event => ~ is_copytree ev.1) (l1 ++ l)).
    { apply Hno. rewrite Hl, Hl1. now rewrite <- app_assoc. }
    apply Forall_app in HF. exact (proj2 HF).
Qed.

Lemma copy_tree_eq symlinks ignore w :
  copy_tree src dst symlinks ignore w =
  match os_listdir src w with
  | (Ok items, w1) => for_each items (step symlinks ignore) w1
  | (Raise e, w1) => (Raise e, w1)
  end.
Proof. reflexivity. Qed.

Lemma copy_tree_params symlinks ignore symlinks' ignore' w r w' :
  copy_tree src dst symlinks ignore w = (r, w') ->
  (forall l, log w' = log w ++ l ->
             Forall (fun ev : event => ~ is_copytree ev.1) l) ->
  copy_tree src dst symlinks' ignore' w = (r, w').
Proof.
  rewrite !copy_tree_eq, os_listdir_eq.
  destruct (listdir src (files w)) as [[items|e] s1]; cbn [fst snd];
    [|now intros H _].
  intros Hrun Hno.
  apply (copy_loop_params symlinks ignore symlinks' ignore' items _
           r w' Hrun).
  intros l Hl. cbn [log] in Hl. rewrite <- app_assoc in Hl.
  pose proof (Hno _ Hl) as HF. inversion HF; subst. assumption.
Qed.

End Parameters.

(** ** Copying into a directory that has entries *)

Section MergeFacts.

Import Kernel PyLib Hooks.









End MergeFacts.

(** ** Running twice *)

Section Idempotence.

Import Kernel PyLib Hooks.











End Idempotence.

(** ** Several missing directories *)

Section Chain.

Import Kernel PyLib Hooks.

Lemma endswith_has_sep p : Path.endswith_sep p = true -> Path.has_sep p = true.
Proof.
  induction p as [|c p IH]; simpl; [discriminate|].
  destruct p as [|c' p'].
  - intros ->. reflexivity.
  - intros H. rewrite (IH H). apply orb_true_r.
Qed.

(** The tail of [split] is empty for the empty path and for paths that end
    with a separator only. *)
Lemma cut_tail p :
  Path.is_empty (Path.cut p).2 = Path.is_empty p || Path.endswith_sep p.
Proof.
  induction p as [|c p IH]; [reflexivity|].
  cbn [Path.cut Path.is_empty orb].
  destruct (Path.has_sep p) eqn:Hs.
  - cbn [snd]. rewrite IH. destruct p as [|c' p']; [discriminate|].
    reflexivity.
  - assert (He : Path.endswith_sep p = false).
    { destruct (Path.endswith_sep p) eqn:E; [|reflexivity].
      apply endswith_has_sep in E. congruence. }
    destruct (Path.is_sep c) eqn:Hc; cbn [snd].
    + destruct p as [|c' p']; simpl; [now rewrite Hc|exact (eq_sym He)].
    + destruct p as [|c' p']; simpl; [now rewrite Hc|exact (eq_sym He)].
Qed.

Lemma components_empty : Path.components "" = [].
Proof. reflexivity. Qed.

(** The head of a path with a tail and at least two components is a path
    with a tail. *)
Lemma head_has_tail name :
  Path.components (Path.split name).1 <> [] ->
  Path.is_empty (Path.split (Path.split name).1).2 = false.
Proof.
  intros Hc. unfold Path.split at 1. cbn [snd]. rewrite cut_tail.
  destruct (split_head name) as (Hcomp & _).
  unfold Path.split in *. cbn [fst] in *.
  destruct (Path.is_empty (Path.rstrip_sep (Path.cut name).1)) eqn:E.
  - exfalso. apply Hc. exact (rstrip_empty_components _ E).
  - rewrite E, endswith_rstrip. reflexivity.
Qed.

Lemma resolve_over_list w follow a rest path q es :
  wf w ->
  rest <> [] ->
  Path.is_empty a = false ->
  Path.is_empty path = false ->
  Path.startswith_sep path = Path.startswith_sep a ->
  Path.components path = Path.components a ++ rest ->
  resolve w true a = Ok (Present q (Dir es)) ->
  exists links', resolve w follow path = walk links' (root w) follow q rest.
Proof.
  intros Hwf Hrest Ha Hp Hs Hc. unfold resolve. rewrite Ha, Hp, Hs, Hc.
  pose proof (walk_app MAXSYMLINKS (root w) (wf_root w Hwf) follow
                (if Path.startswith_sep a then [] else cwd w)
                (Path.components a) rest Hrest
                (start_dir w a Hwf)) as H.
  intros Hq. rewrite Hq in H. exact H.
Qed.

(** A path whose first component under a directory is missing does not
    exist. *)
Lemma missing_below w base q es n1 ns0 path :
  wf w ->
  resolve w true base = Ok (Present q (Dir es)) ->
  plain_name n1 = true ->
  Tree.get (root w) (q ++ [n1]) = None ->
  Path.is_empty path = false ->
  Path.startswith_sep path = Path.startswith_sep base ->
  Path.components path = Path.components base ++ n1 :: ns0 ->
  exists_ w path = false.
Proof.
  intros Hwf Hq Hn1 Hfree Hp Hs Hc.
  destruct (plain_name_inv n1 Hn1) as (_ & _ & Hdot & Hdd).
  destruct (resolve_over_list w true base (n1 :: ns0) path q es Hwf
              ltac:(discriminate) (resolve_nonempty _ _ _ _ Hq) Hp Hs Hc Hq)
    as (links' & Hres).
  unfold exists_, Kernel.stat. rewrite Hres, walk_cons, Hdot, Hdd, Hfree.
  now destruct ns0.
Qed.

(** [os.makedirs] makes the directories a path names below an existing
    directory when the first of them is missing: all of them, one in the
    other, and nothing else. *)
Lemma makedirs_rec_chain base q es n1 :
  plain_name n1 = true ->
  forall ns0 fuel name exist_ok w,
    S (length ns0) < fuel ->
    Forall (fun n => plain_name n = true) ns0 ->
    wf w ->
    resolve w true base = Ok (Present q (Dir es)) ->
    Tree.get (root w) (q ++ [n1]) = None ->
    Path.is_empty name = false ->
    Path.startswith_sep name = Path.startswith_sep base ->
    Path.components name = Path.components base ++ n1 :: ns0 ->
    Path.is_empty (Path.split name).2 = false ->
    exists w',
      makedirs_rec fuel name exist_ok w = (Ok tt, w') /\
      wf w' /\
      resolve w' true name = Ok (Present (q ++ n1 :: ns0) (Dir [])) /\
      keeps_dirs w w' /\
      (forall p, ~ p `prefix_of` (q ++ n1 :: ns0) -> ~ (q ++ [n1]) `prefix_of` p ->
                 Tree.get (root w') p = Tree.get (root w) p).
Proof.
  intros Hn1. pose proof (plain_name_inv n1 Hn1) as (Hn1e & _ & Hn1dot & Hn1dd).
  induction ns0 as [|n ns0 IH] using rev_ind;
    intros fuel name exist_ok w Hfuel Hplain Hwf Hq Hfree Hne Hst Hcomp Htail.
  - (* one directory to make: its parent is there *)
    destruct fuel as [|fuel]; [lia|].
    destruct (split_components name Htail) as (Hsc & _ & Hss).
    rewrite Hcomp in Hsc. apply app_inj_tail in Hsc.
    destruct Hsc as [Hhc Htl].
    assert (Hcond : negb (Path.is_empty (Path.split name).1)
                    && negb (Path.is_empty (Path.split name).2)
                    && negb (exists_ w (Path.split name).1) = false).
    { destruct (Path.is_empty (Path.split name).1) eqn:Hh; [reflexivity|].
      assert (Hex : exists_ w (Path.split name).1 = true).
      { apply exists_true. exists q, (Dir es). rewrite <- Hq.
        apply resolve_ext.
        - now symmetry.
        - rewrite (Hss eq_refl). exact Hst.
        - now rewrite (resolve_nonempty _ _ _ _ Hq). }
      rewrite Hex. now rewrite andb_false_r. }
    rewrite makedirs_rec_S. cbv zeta. rewrite Htail. cbv iota. rewrite Hcond.
    assert (Hres : forall follow,
               resolve w follow name = Ok (Absent (q ++ [n1]))).
    { intros follow.
      destruct (resolve_over w follow base n1 name q es Hwf
                  (resolve_nonempty _ _ _ _ Hq) Hne Hst Hcomp Hq)
        as (links' & ->).
      now rewrite walk_cons, Hn1dot, Hn1dd, Hfree. }
    unfold mkdir_leaf, mkdir, Kernel.mkdir. rewrite (Hres false).
    eexists. split; [reflexivity|].
    destruct (resolve_put w name false (q ++ [n1]) (Dir []) Hwf
                (or_introl (Hres false)) I) as (Hwf' & _ & Hsim).
    split; [exact Hwf'|]. split; [|split].
    + destruct (Hsim _ _ _ (Hres true)) as (res' & H' & [[_ ->]|[Hx _]]);
        [exact H'|now destruct Hx].
    + exact (proj2 (dirs_kept_write w name false (q ++ [n1]) (Dir []) Hwf
                      (or_introl (Hres false)) I)).
    + intros p Hp _. cbn [root with_root].
      exact (get_put_free (q ++ [n1]) (root w) (Dir []) p Hfree I Hp).
  - (* the directories above are made first *)
    destruct fuel as [|fuel]; [lia|].
    rewrite length_app in Hfuel. simpl in Hfuel.
    apply Forall_app in Hplain. destruct Hplain as [Hplain Hn].
    inversion Hn as [|? ? Hnp _]; subst.
    destruct (plain_name_inv n Hnp) as (Hnne & _ & Hndot & Hndd).
    destruct (split_components name Htail) as (Hsc & _ & Hss).
    rewrite Hcomp in Hsc.
    change (n1 :: ns0 ++ [n]) with ((n1 :: ns0) ++ [n]) in Hsc.
    rewrite app_assoc in Hsc. apply app_inj_tail in Hsc.
    destruct Hsc as [Hhc Htl].
    assert (Hhne : Path.is_empty (Path.split name).1 = false).
    { destruct (Path.split name).1; [|reflexivity].
      rewrite components_empty in Hhc.
      destruct (Path.components base); discriminate. }
    assert (Hhst : Path.startswith_sep (Path.split name).1 =
                   Path.startswith_sep base).
    { rewrite (Hss Hhne). exact Hst. }
    assert (Hhtail : Path.is_empty (Path.split (Path.split name).1).2 = false).
    { apply head_has_tail. rewrite <- Hhc.
      destruct (Path.components base); discriminate. }
    assert (Hmiss : exists_ w (Path.split name).1 = false).
    { exact (missing_below w base q es n1 ns0 _ Hwf Hq Hn1 Hfree Hhne Hhst
               (eq_sym Hhc)). }
    destruct (IH fuel (Path.split name).1 exist_ok w ltac:(lia) Hplain Hwf Hq
                Hfree Hhne Hhst (eq_sym Hhc) Hhtail)
      as (w1 & Hrec & Hwf1 & Hhead1 & Hk1 & Hout1).
    rewrite makedirs_rec_S. cbv zeta. rewrite Htail. cbv iota.
    rewrite Hhne, Htail, Hmiss. cbn [negb andb]. rewrite Hrec.
    rewrite <- Htl, Hndot.
    assert (Hfree1 : Tree.get (root w1) ((q ++ n1 :: ns0) ++ [n]) = None).
    { now rewrite get_app, (resolve_present _ _ _ _ _ Hhead1). }
    assert (Hres : forall follow,
               resolve w1 follow name = Ok (Absent ((q ++ n1 :: ns0) ++ [n]))).
    { intros follow.
      destruct (resolve_over w1 follow (Path.split name).1 n name
                  (q ++ n1 :: ns0) [] Hwf1 Hhne Hne (eq_sym (Hss Hhne)))
        as (links' & ->).
      - rewrite Hcomp, <- Hhc.
        change (n1 :: ns0 ++ [n]) with ((n1 :: ns0) ++ [n]).
        now rewrite app_assoc.
      - exact Hhead1.
      - now rewrite walk_cons, Hndot, Hndd, Hfree1. }
    unfold mkdir_leaf, mkdir, Kernel.mkdir. rewrite (Hres false).
    eexists. split; [reflexivity|].
    destruct (resolve_put w1 name false _ (Dir []) Hwf1
                (or_introl (Hres false)) I) as (Hwf' & _ & Hsim).
    assert (Hpath : (q ++ n1 :: ns0) ++ [n] = q ++ n1 :: ns0 ++ [n]).
    { now rewrite <- app_assoc. }
    split; [exact Hwf'|]. split; [|split].
    + destruct (Hsim _ _ _ (Hres true)) as (res' & H' & [[_ ->]|[Hx _]]);
        [now rewrite <- Hpath|now destruct Hx].
    + refine (keeps_dirs_trans _ _ _ Hk1 _).
      exact (proj2 (dirs_kept_write w1 name false _ (Dir []) Hwf1
                      (or_introl (Hres false)) I)).
    + intros p Hp Hd. cbn [root with_root].
      rewrite (get_put_free _ (root w1) (Dir []) p Hfree1 I).
      * apply Hout1; [|exact Hd]. intros Hpp. apply Hp. rewrite <- Hpath.
        now apply prefix_app_r.
      * now rewrite Hpath.
Qed.

Lemma components_length p : length (Path.components p) <= String.length p.
Proof.
  unfold Path.components.
  induction p as [|c p IH]; [simpl; lia|].
  cbn [Path.fields String.length].
  destruct (Path.is_sep c).
  - cbn [List.filter Path.is_empty negb]. lia.
  - destruct (Path.fields p) as [|f fs].
    + simpl. lia.
    + cbn [List.filter Path.is_empty negb length] in *.
      destruct (negb (Path.is_empty f)); cbn [length] in IH; lia.
Qed.

Lemma joins_shape ns : forall base,
  Path.is_empty base = false ->
  Forall (fun n => plain_name n = true) ns ->
  Path.is_empty (joins base ns) = false /\
  Path.startswith_sep (joins base ns) = Path.startswith_sep base /\
  Path.components (joins base ns) = Path.components base ++ ns.
Proof.
  induction ns as [|n ns IH]; intros base Hb Hp.
  - cbn. now rewrite app_nil_r.
  - inversion Hp as [|? ? Hn Hns]; subst.
    destruct (plain_name_inv n Hn) as (Hne & Hsep & _).
    destruct (IH (Path.join base n) (join_nonempty base n Hne) Hns)
      as (H1 & H2 & H3).
    change (joins base (n :: ns)) with (joins (Path.join base n) ns).
    split; [exact H1|]. split.
    + rewrite H2. exact (join_startswith base n Hb Hsep).
    + rewrite H3, (components_join base n Hn). now rewrite <- app_assoc.
Qed.

(** The [os.makedirs] of a copy job whose site directory lies several
    missing levels below an existing directory. *)
Lemma makedirs_nested base q es n1 ns0 dir_path w :
  wf w ->
  resolve w true base = Ok (Present q (Dir es)) ->
  plain_name n1 = true ->
  Forall (fun n => plain_name n = true) ns0 ->
  plain_name dir_path = true ->
  Tree.get (root w) (q ++ [n1]) = None ->
  exists w',
    makedirs (Path.join (joins base (n1 :: ns0)) dir_path) true w =
      (Ok tt, w') /\
    wf w' /\
    resolve w' true (Path.join (joins base (n1 :: ns0)) dir_path) =
      Ok (Present (q ++ n1 :: ns0 ++ [dir_path]) (Dir [])) /\
    isdir w' (joins base (n1 :: ns0)) = true /\
    keeps_dirs w w' /\
    (forall p,
       ~ p `prefix_of` (q ++ n1 :: ns0 ++ [dir_path]) ->
       ~ (q ++ [n1]) `prefix_of` p ->
       Tree.get (root w') p = Tree.get (root w) p).
Proof.
  intros Hwf Hq Hn1 Hns Hd Hfree.
  set (sd := joins base (n1 :: ns0)).
  assert (Hall : Forall (fun n => plain_name n = true) (n1 :: ns0))
    by (constructor; assumption).
  destruct (joins_shape (n1 :: ns0) base (resolve_nonempty _ _ _ _ Hq) Hall)
    as (Hsde & Hsds & Hsdc).
  fold sd in Hsde, Hsds, Hsdc.
  destruct (plain_name_inv dir_path Hd) as (Hde & Hdsep & _).
  set (name := Path.join sd dir_path).
  assert (Hcomp : Path.components name =
                  Path.components base ++ n1 :: ns0 ++ [dir_path]).
  { unfold name. rewrite (components_join sd dir_path Hd), Hsdc.
    now rewrite <- app_assoc. }
  assert (Hlen : S (length (ns0 ++ [dir_path])) < S (String.length name)).
  { pose proof (components_length name) as H. rewrite Hcomp in H.
    rewrite !length_app in H. cbn [length] in H. rewrite length_app in H |- *.
    cbn [length] in *. lia. }
  destruct (makedirs_rec_chain base q es n1 Hn1 (ns0 ++ [dir_path])
              (S (String.length name)) name true w Hlen)
    as (w' & Hrun & Hwf' & Hres & Hk & Hout).
  - apply Forall_app. split; [exact Hns|]. now constructor.
  - exact Hwf.
  - exact Hq.
  - exact Hfree.
  - exact (join_nonempty sd dir_path Hde).
  - unfold name. rewrite (join_startswith sd dir_path Hsde Hdsep). exact Hsds.
  - exact Hcomp.
  - unfold name. rewrite (proj1 (split_join sd dir_path Hd)). exact Hde.
  - exists w'. split; [exact Hrun|]. split; [exact Hwf'|].
    split; [exact Hres|]. split; [|split; [exact Hk|exact Hout]].
    exact (isdir_join_parent w' sd dir_path Hwf' Hd Hsde
             (isdir_of_resolve _ _ _ _ Hres)).
Qed.

End Chain.

(** ** A file whose name is a directory in the destination *)

Section IntoDirectory.

Import Kernel PyLib Hooks.

(** [shutil.copy2] to a destination that is a directory: the file goes
    into it, under the base name of the source. *)
Lemma copy2_into_dir x s d p data m pd esc q :
  resolve x true s = Ok (Present p (File data m)) ->
  resolve x true d = Ok (Present pd (Dir esc)) ->
  resolve x true (Path.join d (Path.basename s)) = Ok (Absent q) ->
  copy2 s d x =
  (Ok (Path.join d (Path.basename s)),
   with_root x (Tree.put (root x) q (File data m))).
Proof.
  intros Hs Hd Hdb.
  unfold copy2, isdir, samefile, Kernel.stat, Kernel.read, Kernel.store.
  rewrite Hd. cbv beta iota zeta. rewrite Hs, Hdb. reflexivity.
Qed.

(** [copy_tree] of a source that holds one regular file whose name is a
    directory in the destination. *)
Lemma copy_tree_into_dir src dst ps D es1 c data m esc w :
  wf (files w) ->
  resolve (files w) true src = Ok (Present ps (Dir [(c, File data m)])) ->
  resolve (files w) true dst = Ok (Present D (Dir es1)) ->
  plain_name c = true ->
  Tree.entry c es1 = Some (Dir esc) ->
  Tree.entry c esc = None ->
  exists w',
    copy_tree src dst false None w = (Ok tt, w') /\
    files w' =
      with_root (files w)
        (Tree.put (root (files w)) (D ++ [c; c]) (File data m)) /\
    Tree.get (root (files w')) (D ++ [c; c]) = Some (File data m).
Proof.
  intros Hwf Hsrc Hdst Hc He1 Hesc.
  assert (Hsget : Tree.get (root (files w)) (ps ++ [c]) =
                  Some (File data m)).
  { rewrite get_app, (resolve_present _ _ _ _ _ Hsrc). simpl.
    now rewrite String.eqb_refl. }
  assert (Hdget : Tree.get (root (files w)) (D ++ [c]) = Some (Dir esc)).
  { rewrite get_app, (resolve_present _ _ _ _ _ Hdst). simpl.
    now rewrite He1. }
  assert (Higet : Tree.get (root (files w)) ((D ++ [c]) ++ [c]) = None).
  { rewrite get_app, Hdget. simpl. now rewrite Hesc. }
  assert (Hsc : resolve (files w) true (Path.join src c) =
                Ok (Present (ps ++ [c]) (File data m))).
  { rewrite (resolve_child (files w) src ps _ c true Hwf Hsrc Hc).
    - now rewrite Hsget.
    - intros t. now rewrite Hsget. }
  assert (Hdc : resolve (files w) true (Path.join dst c) =
                Ok (Present (D ++ [c]) (Dir esc))).
  { rewrite (resolve_child (files w) dst D es1 c true Hwf Hdst Hc).
    - now rewrite Hdget.
    - intros t. now rewrite Hdget. }
  assert (Hic : resolve (files w) true (Path.join (Path.join dst c) c) =
                Ok (Absent ((D ++ [c]) ++ [c]))).
  { rewrite (resolve_child (files w) (Path.join dst c) (D ++ [c]) esc c true
               Hwf Hdc Hc).
    - now rewrite Higet.
    - intros t. now rewrite Higet. }
  pose proof (copy2_into_dir (files w) (Path.join src c) (Path.join dst c)
                _ data m _ esc ((D ++ [c]) ++ [c]) Hsc Hdc) as Hcopy.
  rewrite (basename_join src c Hc) in Hcopy. specialize (Hcopy Hic).
  assert (Hpath : (D ++ [c]) ++ [c] = D ++ [c; c])
    by now rewrite <- app_assoc.
  rewrite Hpath in Hcopy.
  eexists. split; [|split].
  - unfold copy_tree. unfold bind at 1. rewrite os_listdir_eq.
    unfold listdir, scandir. rewrite Hsrc. cbn [fst snd map for_each].
    unfold bind at 1. cbv zeta. unfold os_path_join.
    unfold bind at 1. unfold os_path_isdir at 1. rewrite invoke_eq.
    cbn [fst snd files].
    unfold isdir at 1. unfold Kernel.stat. rewrite Hsc. cbv iota.
    unfold bind at 1. unfold shutil_copy2 at 1. rewrite invoke_eq.
    cbn [files]. rewrite Hcopy. cbn [fst snd]. reflexivity.
  - reflexivity.
  - cbn [files root with_root]. rewrite <- Hpath.
    exact (get_put (D ++ [c]) (root (files w)) esc c (File data m) Hdget).
Qed.

End IntoDirectory.

(** ** An item that does not resolve *)

Section Unreadable.

Import Kernel PyLib Hooks.

(** [shutil.copy2] of a source for which [stat] fails. *)
Lemma copy2_unresolved src dst x e :
  Kernel.stat x src = Raise e ->
  copy2 src dst x = (Raise (OSError e src), x).
Proof.
  unfold copy2, samefile, Kernel.stat, Kernel.read. cbv zeta.
  destruct (resolve x true src) as [[p n|p]|e'];
    [destruct n; discriminate|now intros [= <-]..].
Qed.

(** [copy_tree] whose first item fails [stat], as a link that leads
    nowhere. *)
Lemma copy_tree_unresolved src dst symlinks ignore c rest e w :
  (listdir src (files w)).1 = Ok (c :: rest) ->
  Kernel.stat (files w) (Path.join src c) = Raise e ->
  copy_tree src dst symlinks ignore w =
  (Raise (OSError e (Path.join src c)),
   {| files := files w;
      log := log w ++
             [(Listdir src, Returned (RList (c :: rest)));
              (Isdir (Path.join src c), Returned (RBool false));
              (Copy2 (Path.join src c) (Path.join dst c),
               Raised (OSError e (Path.join src c)))] |}).
Proof.
  intros Hl Hs. unfold copy_tree. unfold bind at 1. rewrite os_listdir_eq.
  rewrite Hl, (listdir_files src (files w)). cbn [outcome_of for_each].
  unfold bind at 1. cbv zeta. unfold os_path_join.
  unfold bind at 1. unfold os_path_isdir at 1. rewrite invoke_eq.
  cbn [fst snd files log].
  assert (Hd : isdir (files w) (Path.join src c) = false).
  { unfold isdir. now rewrite Hs. }
  rewrite Hd.
  unfold bind at 1. unfold shutil_copy2 at 1. rewrite invoke_eq.
  cbn [files log]. rewrite (copy2_unresolved _ _ _ e Hs).
  cbn [fst snd outcome_of]. now rewrite <- !app_assoc.
Qed.

End Unreadable.

(** * The claims *)

Section Claims.

Import Kernel PyLib Hooks.

(** C1: with the site directory [/out], a [build] holding [app.js] and a
    [demos] holding [demo1/index.html], [copy_static_files] returns, and
    afterwards [/out/dist/app.js] and [/out/demos/demo1/index.html] are
    regular files with the bytes and the metadata of [build/app.js] and
    [demos/demo1/index.html], which are unchanged.  This holds whatever the
    two files contain, whether [/out] existed before or not, and whatever
    keyword arguments are passed. *)
Theorem scenario_published (out_exists : bool) (d1 : list byte) (m1 : meta)
    (d2 : list byte) (m2 : meta) (kwargs : gmap string pyval) :
  exists w1,
    copy_static_files Scenario.config kwargs
      (Scenario.start out_exists d1 m1 d2 m2) = (Ok tt, w1) /\
    Kernel.read (files w1) "/out/dist/app.js" = Ok (d1, m1) /\
    Kernel.read (files w1) "/out/demos/demo1/index.html" = Ok (d2, m2) /\
    Kernel.read (files w1) "build/app.js" = Ok (d1, m1) /\
    Kernel.read (files w1) "demos/demo1/index.html" = Ok (d2, m2) /\
    Tree.get (root (files w1)) ["out"] =
      Some (Dir [("dist", Dir [("app.js", File d1 m1)]);
                 ("demos",
                  Dir [("demo1", Dir [("index.html", File d2 m2)])])]).
Proof.
  destruct out_exists; eexists;
    (split; [vm_compute; reflexivity|]); vm_compute; repeat split.
Qed.

(** C3 (the code at the failing input): in the scenario of C1 the first
    invocation returns; the second one, on the file system the first one
    left and with the same configuration, overwrites [/out/dist/app.js] and
    then raises [FileExistsError] for [/out/demos/demo1], because
    [shutil.copytree] is called without [dirs_exist_ok] on a destination the
    first invocation made. *)
Theorem second_invocation_raises (out_exists : bool) (d1 : list byte)
    (m1 : meta) (d2 : list byte) (m2 : meta) (kwargs : gmap string pyval) :
  exists w1 w2,
    copy_static_files Scenario.config kwargs
      (Scenario.start out_exists d1 m1 d2 m2) = (Ok tt, w1) /\
    copy_static_files Scenario.config kwargs w1 =
      (Raise (FileExistsError "/out/demos/demo1"), w2) /\
    files w2 = files w1 /\
    log w2 = log w1 ++
      [(Makedirs "/out/dist" true, Returned RNone);
       (Listdir "build", Returned (RList ["app.js"]));
       (Isdir "build/app.js", Returned (RBool false));
       (Copy2 "build/app.js" "/out/dist/app.js",
        Returned (RStr "/out/dist/app.js"));
       (Makedirs "/out/demos" true, Returned RNone);
       (Listdir "demos", Returned (RList ["demo1"]));
       (Isdir "demos/demo1", Returned (RBool true));
       (Copytree "demos/demo1" "/out/demos/demo1" false None,
        Raised (FileExistsError "/out/demos/demo1"))].
Proof.
  destruct out_exists; eexists; eexists;
    (split; [vm_compute; reflexivity|]);
    (split; [vm_compute; reflexivity|]); split; reflexivity.
Qed.

(** C8: [copy_static_files] reads nothing of its arguments but
    [config['site_dir']]: two invocations on the same world whose
    configurations agree on that key have the same result and leave the same
    world, whatever else the configurations hold and whatever keyword
    arguments are passed. *)
Theorem only_site_dir_is_read (config1 config2 : gmap string pyval)
    (kwargs1 kwargs2 : gmap string pyval) (w : world) :
  config1 !! "site_dir" = config2 !! "site_dir" ->
  copy_static_files config1 kwargs1 w = copy_static_files config2 kwargs2 w.
Proof.
  intros H. unfold copy_static_files, getitem. now rewrite H.
Qed.

Lemma only_site_dir_is_read_witness :
  Scenario.config !! "site_dir" =
    (<["docs_dir" := PStr "docs"]> Scenario.config) !! "site_dir" /\
  copy_static_files Scenario.config ∅ Scenario.no_build =
  copy_static_files (<["docs_dir" := PStr "docs"]> Scenario.config)
    {["builder" := PNone]} Scenario.no_build.
Proof.
  split; [vm_compute; reflexivity|].
  apply (only_site_dir_is_read Scenario.config
           (<["docs_dir" := PStr "docs"]> Scenario.config)
           ∅ {["builder" := PNone]} Scenario.no_build).
  vm_compute. reflexivity.
Defined.

(** C2: in every invocation the calls of the first job read [build] and
    write [join(site_dir, "dist")], the calls of the second job read [demos]
    and write [join(site_dir, "demos")]; each job starts by making its
    destination, and the last component of a destination is the logical
    name. *)
Theorem logical_names_resolved (config kwargs : gmap string pyval)
    (sd : string) (w : world) (r : result exn unit) (w' : world) :
  config !! "site_dir" = Some (PStr sd) ->
  copy_static_files config kwargs w = (r, w') ->
  source_of "dist" = "build" /\
  source_of "demos" = "demos" /\
  Path.basename (Path.join sd "dist") = "dist" /\
  Path.basename (Path.join sd "demos") = "demos" /\
  exists l1 l2,
    log w' = log w ++ l1 ++ l2 /\
    Forall (fun ev : event => job_call "dist" "build" sd ev.1) l1 /\
    Forall (fun ev : event => job_call "demos" "demos" sd ev.1) l2 /\
    (exists o l1', l1 = (Makedirs (Path.join sd "dist") true, o) :: l1') /\
    (l2 = [] \/
     exists o l2', l2 = (Makedirs (Path.join sd "demos") true, o) :: l2').
Proof.
  intros Hsd Hrun.
  split; [reflexivity|]. split; [reflexivity|].
  split; [now apply basename_join|]. split; [now apply basename_join|].
  destruct (copy_static_files_shape _ _ _ _ _ _ Hsd Hrun) as (l & [Hl _] & Hh).
  destruct Hh as [l e H|l1 l2 r H1 H2].
  - exists l, []. rewrite app_nil_r.
    split; [exact Hl|]. split; [exact (dir_log_calls _ _ _ _ H)|].
    split; [constructor|].
    split; [|now left].
    destruct (dir_log_head _ _ _ _ H) as (o & l' & -> & _). eauto.
  - exists l1, l2.
    split; [exact Hl|]. split; [exact (dir_log_calls _ _ _ _ H1)|].
    split; [exact (dir_log_calls _ _ _ _ H2)|].
    split.
    + destruct (dir_log_head _ _ _ _ H1) as (o & l' & -> & _). eauto.
    + right. destruct (dir_log_head _ _ _ _ H2) as (o & l' & -> & _). eauto.
Qed.

Lemma logical_names_resolved_witness :
  Scenario.config !! "site_dir" = Some (PStr "/out") /\
  exists l1 l2,
    log (copy_static_files Scenario.config ∅ Scenario.no_build).2 =
      log Scenario.no_build ++ l1 ++ l2 /\
    Forall (fun ev : event => job_call "dist" "build" "/out" ev.1) l1 /\
    Forall (fun ev : event => job_call "demos" "demos" "/out" ev.1) l2.
Proof.
  split; [vm_compute; reflexivity|].
  destruct (logical_names_resolved Scenario.config ∅ "/out" Scenario.no_build
              (copy_static_files Scenario.config ∅ Scenario.no_build).1
              (copy_static_files Scenario.config ∅ Scenario.no_build).2)
    as (_ & _ & _ & _ & l1 & l2 & H1 & H2 & H3 & _).
  - vm_compute. reflexivity.
  - vm_compute. reflexivity.
  - exists l1, l2. split; [exact H1|]. split; [exact H2|exact H3].
Defined.

(** C5: nothing catches an exception and nothing is tried again: in every
    invocation each logged call returned, except that the last one may have
    raised, and then the invocation raises that very exception and the world
    is the one of that moment.  When [build] is missing once the destination
    of the first job is made, the invocation raises [FileNotFoundError] for
    [build] from [os.listdir], after which nothing is called.  When [demos]
    is missing once the first job is done and the destination of the second
    one is made, it raises [FileNotFoundError] for [demos]; what the first
    job copied stays.  With a site directory that exists, a [build] missing
    at the start is still missing at that moment: the invocation raises
    [FileNotFoundError] for [build], unless [os.makedirs] has raised for the
    destination before.  Likewise a [demos] missing at the start is still
    missing when it is listed, on a file system with plain names and no link
    in [dist] of the site directory, when the site directory is not the
    working directory and the working directory is not in [dist]: the
    invocation raises, [FileNotFoundError] for [demos] unless the first job
    or [os.makedirs] has raised before. *)
Theorem missing_source_raises (config kwargs : gmap string pyval)
    (sd : string) (w : world) :
  config !! "site_dir" = Some (PStr sd) ->
  (forall r w',
     copy_static_files config kwargs w = (r, w') ->
     exists l, logged w l w' /\ aborts l r) /\
  (forall w1,
     os_makedirs (Path.join sd "dist") true w = (Ok tt, w1) ->
     missing (files w1) "build" ->
     copy_static_files config kwargs w =
     (Raise (FileNotFoundError "build"),
      {| files := files w1;
         log := log w1 ++
                [(Listdir "build", Raised (FileNotFoundError "build"))] |})) /\
  (forall w1 w2,
     copy_directory "dist" (PStr sd) w = (Ok tt, w1) ->
     os_makedirs (Path.join sd "demos") true w1 = (Ok tt, w2) ->
     missing (files w2) "demos" ->
     copy_static_files config kwargs w =
     (Raise (FileNotFoundError "demos"),
      {| files := files w2;
         log := log w2 ++
                [(Listdir "demos", Raised (FileNotFoundError "demos"))] |})) /\
  (forall q es r w',
     wf (files w) ->
     resolve (files w) true sd = Ok (Present q (Dir es)) ->
     missing (files w) "build" ->
     copy_static_files config kwargs w = (r, w') ->
     r = Raise (FileNotFoundError "build") \/
     (exists e, r = Raise e /\
        os_makedirs (Path.join sd "dist") true w = (Raise e, w'))) /\
  (forall q es r w',
     tidy (q ++ ["dist"]) (files w) ->
     resolve (files w) true sd = Ok (Present q (Dir es)) ->
     ~ (q ++ ["dist"]) `prefix_of` cwd (files w) ->
     q <> cwd (files w) ->
     missing (files w) "demos" ->
     copy_static_files config kwargs w = (r, w') ->
     r = Raise (FileNotFoundError "demos") \/
     (exists e, r = Raise e /\
        copy_directory "dist" (PStr sd) w = (Raise e, w')) \/
     (exists e w1, r = Raise e /\
        copy_directory "dist" (PStr sd) w = (Ok tt, w1) /\
        os_makedirs (Path.join sd "demos") true w1 = (Raise e, w'))).
Proof.
  intros Hsd. split; [|split; [|split; [|split]]].
  - intros r w' Hrun.
    destruct (copy_static_files_shape _ _ _ _ _ _ Hsd Hrun) as (l & Hl & Hh).
    exists l. split; [exact Hl|]. eapply hook_log_aborts, Hh.
  - intros w1 Hmk Hmiss.
    unfold copy_static_files, getitem. rewrite Hsd.
    unfold bind at 1. unfold ret at 1. unfold bind at 1.
    unfold copy_directory. cbn [os_path_join_val].
    unfold bind at 1. unfold ret at 1. unfold bind at 1. rewrite Hmk.
    cbn [negb String.eqb Ascii.eqb Bool.eqb].
    unfold copy_tree. unfold bind at 1. rewrite os_listdir_eq.
    rewrite (listdir_missing (files w1) "build" eq_refl Hmiss). reflexivity.
  - intros w1 w2 Hdist Hmk Hmiss.
    unfold copy_static_files, getitem. rewrite Hsd.
    unfold bind at 1. unfold ret at 1. unfold bind at 1. rewrite Hdist.
    unfold copy_directory. cbn [os_path_join_val].
    unfold bind at 1. unfold ret at 1. unfold bind at 1. rewrite Hmk.
    cbn [negb String.eqb Ascii.eqb Bool.eqb].
    unfold copy_tree. unfold bind at 1. rewrite os_listdir_eq.
    rewrite (listdir_missing (files w2) "demos" eq_refl Hmiss). reflexivity.
  - intros q es r w' Hwf Hq Hmiss.
    unfold copy_static_files, getitem. rewrite Hsd.
    unfold bind at 1. unfold ret at 1. unfold bind at 1.
    unfold copy_directory. cbn [os_path_join_val].
    unfold bind at 1. unfold ret at 1. unfold bind at 1.
    destruct (os_makedirs (Path.join sd "dist") true w) as [[[]|e] w1] eqn:Hmk.
    + cbn [negb String.eqb Ascii.eqb Bool.eqb].
      unfold copy_tree. unfold bind at 1. rewrite os_listdir_eq.
      assert (Hm1 : missing (files w1) "build").
      { rewrite os_makedirs_eq in Hmk. injection Hmk as _ <-.
        cbn [files].
        exact (makedirs_keeps_missing (files w) sd q es "dist" "build" _ _
                 Hwf Hq eq_refl
                 ltac:(intros Heq; apply app_inj_tail in Heq;
                       destruct Heq; discriminate)
                 (surjective_pairing _) Hmiss). }
      rewrite (listdir_missing (files w1) "build" eq_refl Hm1).
      intros [= <- _]. now left.
    + intros [= <- <-]. right. exists e. now split.
  - intros q es r w' Ht Hq Hcwd Hqc Hmiss.
    unfold copy_static_files, getitem. rewrite Hsd.
    unfold bind at 1. unfold ret at 1. unfold bind at 1.
    destruct (copy_directory "dist" (PStr sd) w) as [[[]|e] w1] eqn:Hdist.
    2:{ intros [= <- <-]. right. left. exists e. now split. }
    destruct (copy_directory_keeps_missing "dist" sd q es "demos" w (Ok tt) w1
                eq_refl ltac:(discriminate) Ht Hq Hcwd Hmiss Hdist)
      as (Hm1 & Hwf1 & Hc1 & es1 & Hq1).
    unfold copy_directory. cbn [os_path_join_val].
    unfold bind at 1. unfold ret at 1. unfold bind at 1.
    destruct (os_makedirs (Path.join sd "demos") true w1) as [[[]|e] w2] eqn:Hmk.
    + cbn [negb String.eqb Ascii.eqb Bool.eqb].
      unfold copy_tree. unfold bind at 1. rewrite os_listdir_eq.
      assert (Hm2 : missing (files w2) "demos").
      { rewrite os_makedirs_eq in Hmk. injection Hmk as _ <-.
        cbn [files].
        refine (makedirs_keeps_missing (files w1) sd q es1 "demos" "demos" _ _
                  Hwf1 Hq1 eq_refl _ (surjective_pairing _) Hm1).
        rewrite Hc1. intros Heq. apply app_inj_tail in Heq.
        destruct Heq as [Heq _]. apply Hqc. now symmetry. }
      rewrite (listdir_missing (files w2) "demos" eq_refl Hm2).
      intros [= <- _]. now left.
    + intros [= <- <-]. right. right. exists e, w1.
      split; [reflexivity|]. split; [reflexivity|exact Hmk].
Qed.

Lemma missing_source_raises_witness :
  Scenario.config !! "site_dir" = Some (PStr "/out") /\
  missing (files (os_makedirs "/out/dist" true Scenario.no_build).2) "build" /\
  copy_static_files Scenario.config ∅ Scenario.no_build =
  (Raise (FileNotFoundError "build"),
   {| files := files (os_makedirs "/out/dist" true Scenario.no_build).2;
      log := log (os_makedirs "/out/dist" true Scenario.no_build).2 ++
             [(Listdir "build", Raised (FileNotFoundError "build"))] |}).
Proof.
  split; [vm_compute; reflexivity|]. split; [vm_compute; reflexivity|].
  apply (proj1 (proj2 (missing_source_raises Scenario.config ∅ "/out"
                         Scenario.no_build ltac:(vm_compute; reflexivity)))).
  - vm_compute. reflexivity.
  - vm_compute. reflexivity.
Defined.

(** C9: the first job runs to its end before the second one starts.  When
    the first job raises, [copy_static_files] raises the same exception and
    leaves the world of that moment: every call made was a call of the first
    job, and neither [os.makedirs] for [join(site_dir, "demos")] nor
    [os.listdir] of [demos] was called.  On a file system whose entry names
    are plain and which has no symbolic link in [dist] of the site directory,
    what the site directory holds under [demos] is then the same as before,
    a [demos] that was not there included; the same holds when the site
    directory itself was not there. *)
Theorem dist_failure_stops (config kwargs : gmap string pyval) (sd : string)
    (w : world) (e : exn) (w1 : world) :
  config !! "site_dir" = Some (PStr sd) ->
  copy_directory "dist" (PStr sd) w = (Raise e, w1) ->
  copy_static_files config kwargs w = (Raise e, w1) /\
  (exists l,
     logged w l w1 /\
     aborts l (Raise e) /\
     Forall (fun ev : event => job_call "dist" "build" sd ev.1) l /\
     Forall (fun ev : event =>
               forall exist_ok,
                 ev.1 <> Makedirs (Path.join sd "demos") exist_ok /\
                 ev.1 <> Listdir "demos") l) /\
  (forall q es,
     tidy (q ++ ["dist"]) (files w) ->
     resolve (files w) true sd = Ok (Present q (Dir es)) ->
     Tree.get (root (files w1)) (q ++ ["demos"]) =
     Tree.get (root (files w)) (q ++ ["demos"])) /\
  (forall q,
     wf (files w) ->
     names_ok (root (files w)) ->
     resolve (files w) false sd = Ok (Absent q) ->
     Tree.get (root (files w1)) (q ++ ["demos"]) = None).
Proof.
  intros Hsd Hdist.
  assert (Hsib : forall q : list string,
             ~ (q ++ ["dist"]) `prefix_of` (q ++ ["demos"]) /\
             ~ (q ++ ["demos"]) `prefix_of` (q ++ ["dist"])).
  { intros q. split; intros [k Hk]; rewrite <- app_assoc in Hk;
      apply app_inv_head in Hk; discriminate. }
  split; [|split; [|split]].
  - unfold copy_static_files, getitem. rewrite Hsd.
    unfold bind at 1. unfold ret at 1. unfold bind at 1. now rewrite Hdist.
  - destruct (copy_directory_shape _ _ _ _ _ Hdist) as (l & Hl & Hd).
    exists l. split; [exact Hl|]. split; [exact (dir_log_aborts _ _ _ _ Hd)|].
    pose proof (dir_log_calls _ _ _ _ Hd) as Hc. split; [exact Hc|].
    eapply Forall_impl; [exact Hc|].
    intros ev [->|[->|(item & [->|[->| ->]])]] exist_ok; split;
      try discriminate.
    intros [= H _]. now apply join_dist_demos in H.
  - intros q es Ht Hq.
    pose proof (copy_directory_grows "dist" sd q es w (Raise e) w1 eq_refl
                  Ht Hq Hdist) as (_ & Ho & _).
    destruct (Hsib q) as [Ha Hb]. exact (Ho _ Ha Hb).
  - intros q Hwf Hnames Habs.
    pose proof (copy_directory_fresh "dist" sd q w (Raise e) w1 eq_refl
                  Hwf Hnames Habs Hdist) as Ho.
    destruct (Hsib q) as [Ha Hb]. rewrite (Ho _ Ha Hb).
    destruct (resolve_absent _ _ _ _ Hwf Habs) as (? & ? & ? & _ & _ & Hfree).
    now apply get_below_absent.
Qed.

Lemma dist_failure_stops_witness :
  Scenario.config !! "site_dir" = Some (PStr "/out") /\
  copy_directory "dist" (PStr "/out") Scenario.no_build =
    (Raise (FileNotFoundError "build"),
     (copy_directory "dist" (PStr "/out") Scenario.no_build).2) /\
  copy_static_files Scenario.config ∅ Scenario.no_build =
    (Raise (FileNotFoundError "build"),
     (copy_directory "dist" (PStr "/out") Scenario.no_build).2) /\
  Tree.get
    (root (files (copy_directory "dist" (PStr "/out") Scenario.no_build).2))
    ["out"; "demos"] = None /\
  Tree.get
    (root (files (copy_directory "dist" (PStr "/out")
                    (Scenario.no_build_site [x01]
                       {| st_mode := 420; st_mtime := 7 |})).2))
    ["out"; "demos"] =
  Some (Dir [("old.html", File [x01] {| st_mode := 420; st_mtime := 7 |})]).
Proof.
  split; [vm_compute; reflexivity|]. split; [vm_compute; reflexivity|].
  destruct (dist_failure_stops Scenario.config ∅ "/out" Scenario.no_build
              (FileNotFoundError "build")
              (copy_directory "dist" (PStr "/out") Scenario.no_build).2
              ltac:(vm_compute; reflexivity) ltac:(vm_compute; reflexivity))
    as (Hrun & _ & _ & Hfresh).
  split; [exact Hrun|]. split.
  - apply (Hfresh ["out"]).
    + eexists. reflexivity.
    + refine (proj1 (proj2 (clean_tidy [] _ _ _)));
        [eexists; reflexivity|simpl; repeat split].
    + vm_compute. reflexivity.
  - destruct (dist_failure_stops Scenario.config ∅ "/out"
                (Scenario.no_build_site [x01]
                   {| st_mode := 420; st_mtime := 7 |})
                (FileNotFoundError "build")
                (copy_directory "dist" (PStr "/out")
                   (Scenario.no_build_site [x01]
                      {| st_mode := 420; st_mtime := 7 |})).2
                ltac:(vm_compute; reflexivity) ltac:(vm_compute; reflexivity))
      as (_ & _ & Hkeep & _).
    refine (eq_trans
              (Hkeep ["out"]
                 [("demos",
                   Dir [("old.html",
                         File [x01] {| st_mode := 420; st_mtime := 7 |})])]
                 _ _) _).
    + apply clean_tidy; [eexists; reflexivity|simpl; repeat split].
    + vm_compute. reflexivity.
    + reflexivity.
Defined.

(** C10: [copy_directory] calls [os.makedirs] for its destination first and
    [os.listdir] of its source only after that call returned.  So when the
    listing raises, which it does with [FileNotFoundError] when the source is
    missing, [copy_directory] raises that exception and the file system stays
    as [os.makedirs] left it: the destination is a directory, and so is the
    site directory above it. *)
Theorem destination_outlives_failure (dir_path sd : string) (w w1 : world)
    (e : exn) :
  plain_name dir_path = true ->
  wf (files w) ->
  os_makedirs (Path.join sd dir_path) true w = (Ok tt, w1) ->
  (listdir (source_of dir_path) (files w1)).1 = Raise e ->
  copy_directory dir_path (PStr sd) w =
    (Raise e,
     {| files := files w1;
        log := log w ++
               [(Makedirs (Path.join sd dir_path) true, Returned RNone);
                (Listdir (source_of dir_path), Raised e)] |}) /\
  isdir (files w1) (Path.join sd dir_path) = true /\
  (Path.is_empty sd = false -> isdir (files w1) sd = true) /\
  (missing (files w1) "build" -> dir_path = "dist" ->
   e = FileNotFoundError "build") /\
  (missing (files w1) "demos" -> dir_path = "demos" ->
   e = FileNotFoundError "demos").
Proof.
  intros Hb Hwf Hmk Hls.
  pose proof Hmk as Hmk'. rewrite os_makedirs_eq in Hmk'.
  injection Hmk' as Hr Hw1.
  assert (Hfiles : makedirs (Path.join sd dir_path) true (files w) =
                   (Ok tt, files w1)).
  { rewrite <- Hw1. cbn [files].
    destruct (makedirs (Path.join sd dir_path) true (files w)) as [r0 s0].
    cbn [fst snd] in *. now rewrite Hr. }
  assert (Hlog : log w1 =
                 log w ++ [(Makedirs (Path.join sd dir_path) true,
                            Returned RNone)]).
  { rewrite <- Hw1. cbn [log]. now rewrite Hr. }
  destruct (makedirs_rec_wf _ _ _ _ _ _ Hwf Hfiles) as (Hwf1 & _).
  destruct (split_join sd dir_path Hb) as (Htail & _).
  destruct (plain_name_inv dir_path Hb) as (Hbe & _ & Hbdot & _).
  assert (Hd : isdir (files w1) (Path.join sd dir_path) = true).
  { apply (makedirs_rec_isdir (S (String.length (Path.join sd dir_path)))
             (Path.join sd dir_path) true (files w) (files w1) Hwf);
      [now rewrite Htail|now rewrite Htail|exact Hfiles]. }
  split; [|split; [exact Hd|split; [|split]]].
  - unfold copy_directory. cbn [os_path_join_val].
    unfold bind at 1. unfold ret at 1. unfold bind at 1. rewrite Hmk.
    fold (source_of dir_path). unfold copy_tree. unfold bind at 1.
    rewrite os_listdir_eq, Hls, listdir_files, Hlog, <- app_assoc.
    reflexivity.
  - intros Hsd. exact (isdir_join_parent _ _ _ Hwf1 Hb Hsd Hd).
  - intros Hm ->. change (source_of "dist") with "build" in Hls.
    rewrite (listdir_missing (files w1) "build" eq_refl Hm) in Hls.
    now injection Hls.
  - intros Hm ->. change (source_of "demos") with "demos" in Hls.
    rewrite (listdir_missing (files w1) "demos" eq_refl Hm) in Hls.
    now injection Hls.
Qed.

Lemma destination_outlives_failure_witness :
  plain_name "dist" = true /\
  wf (files Scenario.no_build) /\
  isdir (files (os_makedirs "/out/dist" true Scenario.no_build).2)
    "/out/dist" = true /\
  (copy_directory "dist" (PStr "/out") Scenario.no_build).1 =
    Raise (FileNotFoundError "build").
Proof.
  split; [reflexivity|].
  assert (Hwf : wf (files Scenario.no_build)) by (eexists; reflexivity).
  split; [exact Hwf|].
  destruct (destination_outlives_failure "dist" "/out" Scenario.no_build
              (os_makedirs "/out/dist" true Scenario.no_build).2
              (FileNotFoundError "build") eq_refl Hwf)
    as (Hrun & Hd & _).
  - vm_compute. reflexivity.
  - vm_compute. reflexivity.
  - split; [exact Hd|]. now rewrite Hrun.
Defined.

(** C4: a copy job calls [os.makedirs] for its destination before any
    other library call, and goes on only when that call returned, at which
    point the destination is a directory and so is the site directory
    above it.  A destination that is a directory
    already is no error and nothing changes.  When the site directory is a
    free name in an existing directory, the call makes the site directory and
    the destination in it; when the site directory exists and the name of the
    destination is free in it, the call makes the destination. *)
Theorem destination_made_first (dir_path sd : string) (w : world) :
  plain_name dir_path = true ->
  wf (files w) ->
  (forall r w',
     copy_directory dir_path (PStr sd) w = (r, w') ->
     exists o l',
       log w' = log w ++ (Makedirs (Path.join sd dir_path) true, o) :: l' /\
       (l' <> [] -> o = Returned RNone) /\
       Forall (fun ev : event => forall n b, ev.1 <> Makedirs n b) l') /\
  (forall w1,
     os_makedirs (Path.join sd dir_path) true w = (Ok tt, w1) ->
     wf (files w1) /\ isdir (files w1) (Path.join sd dir_path) = true /\
     (Path.is_empty sd = false -> isdir (files w1) sd = true)) /\
  (isdir (files w) (Path.join sd dir_path) = true ->
   os_makedirs (Path.join sd dir_path) true w =
   (Ok tt,
    {| files := files w;
       log := log w ++
              [(Makedirs (Path.join sd dir_path) true, Returned RNone)] |})) /\
  (forall p,
     resolve (files w) false sd = Ok (Absent p) ->
     exists w1,
       os_makedirs (Path.join sd dir_path) true w = (Ok tt, w1) /\
       files w1 =
         with_root (files w)
           (Tree.put (Tree.put (root (files w)) p (Dir []))
              (p ++ [dir_path]) (Dir [])) /\
       isdir (files w1) sd = true /\
       isdir (files w1) (Path.join sd dir_path) = true) /\
  (forall q es,
     resolve (files w) true sd = Ok (Present q (Dir es)) ->
     Tree.get (root (files w)) (q ++ [dir_path]) = None ->
     exists w1,
       os_makedirs (Path.join sd dir_path) true w = (Ok tt, w1) /\
       files w1 =
         with_root (files w)
           (Tree.put (root (files w)) (q ++ [dir_path]) (Dir [])) /\
       isdir (files w1) (Path.join sd dir_path) = true).
Proof.
  intros Hb Hwf.
  destruct (split_join sd dir_path Hb) as (Htail & _).
  destruct (plain_name_inv dir_path Hb) as (Hbe & _ & Hbdot & _).
  assert (Hret : forall s1,
             makedirs (Path.join sd dir_path) true (files w) = (Ok tt, s1) ->
             wf s1 /\ isdir s1 (Path.join sd dir_path) = true).
  { intros s1 Hmk. split.
    - exact (proj1 (makedirs_rec_wf _ _ _ _ _ _ Hwf Hmk)).
    - apply (makedirs_rec_isdir (S (String.length (Path.join sd dir_path)))
               (Path.join sd dir_path) true (files w) s1 Hwf);
        [now rewrite Htail|now rewrite Htail|exact Hmk]. }
  split; [|split; [|split; [|split]]].
  - intros r w' Hrun.
    destruct (copy_directory_shape _ _ _ _ _ Hrun) as (l & [Hl _] & Hd).
    destruct (dir_log_head _ _ _ _ Hd) as (o & l' & -> & Ho & Hl').
    exists o, l'. split; [exact Hl|]. split; [exact Ho|exact Hl'].
  - intros w1. rewrite os_makedirs_eq.
    destruct (makedirs (Path.join sd dir_path) true (files w))
      as [[[]|e] s1] eqn:Hmk; [|discriminate].
    intros [= <-]. cbn [files]. destruct (Hret s1 eq_refl) as [Hwf1 Hd1].
    split; [exact Hwf1|]. split; [exact Hd1|]. intros Hne.
    exact (isdir_join_parent s1 sd dir_path Hwf1 Hb Hne Hd1).
  - intros Hd. rewrite os_makedirs_eq.
    rewrite (makedirs_existing _ _ Hwf); [reflexivity| |exact Hd].
    now rewrite Htail.
  - intros p Habs.
    destruct (makedirs_fresh sd dir_path (files w) p Hwf Hb Habs)
      as (s1 & Hmk & -> & _ & Hd1 & Hd2).
    eexists. rewrite os_makedirs_eq, Hmk. cbn [fst snd].
    split; [reflexivity|]. cbn [files]. split; [reflexivity|].
    split; [exact Hd1|exact Hd2].
  - intros q es Hq Hfree.
    pose proof (makedirs_in_dir sd dir_path (files w) q es Hwf Hb Hq Hfree)
      as Hmk.
    eexists. rewrite os_makedirs_eq, Hmk. cbn [fst snd].
    split; [reflexivity|]. cbn [files]. split; [reflexivity|].
    exact (proj2 (Hret _ Hmk)).
Qed.

Lemma destination_made_first_witness :
  plain_name "dist" = true /\
  wf (files Scenario.no_build) /\
  exists w1,
    os_makedirs "/out/dist" true Scenario.no_build = (Ok tt, w1) /\
    isdir (files w1) "/out" = true /\
    isdir (files w1) "/out/dist" = true.
Proof.
  split; [reflexivity|].
  assert (Hwf : wf (files Scenario.no_build)) by (eexists; reflexivity).
  split; [exact Hwf|].
  destruct (destination_made_first "dist" "/out" Scenario.no_build
              eq_refl Hwf) as (_ & _ & _ & Hfresh & _).
  destruct (Hfresh ["out"]) as (w1 & H1 & _ & H2 & H3).
  - vm_compute. reflexivity.
  - exists w1. split; [exact H1|]. split; [exact H2|exact H3].
Defined.

(** C6: [copy_tree] lists [src] once, before anything else, and calls
    nothing when the listing raises.  Then, for the listed items in order, it
    asks [os.path.isdir] of [join(src, item)] and calls [shutil.copytree]
    when the answer is yes and [shutil.copy2] when it is no, from
    [join(src, item)] to [join(dst, item)], passing on [symlinks] and
    [ignore], up to the first copy that raises; when it returns every item
    has been copied.  A [shutil.copy2] of an item that returns leaves at the
    destination it names the bytes and the metadata of the source, over
    whatever regular file was there.  From a source directory without links
    into a directory without links in which the names of the source are
    free, and which lies neither in the source nor above it, [copy_tree]
    returns and the destination then holds, after its own entries, the
    entries of the source as they are: every subtree whole, every file with
    its bytes and metadata, in listing order; nothing else changes. *)
Theorem copy_tree_mirrors (src dst : string) (symlinks : bool)
    (ignore : option ignore_fn) (w : world) (r : result exn unit)
    (w' : world) :
  copy_tree src dst symlinks ignore w = (r, w') ->
  (exists l,
     logged w l w' /\
     match (listdir src (files w)).1 with
     | Raise e =>
         r = Raise e /\ l = [(Listdir src, Raised e)] /\ files w' = files w
     | Ok items =>
         exists l',
           l = (Listdir src, Returned (RList items)) :: l' /\
           loop_log src dst symlinks ignore items l' r /\
           Forall (fun ev : event => ~ is_listdir ev.1) l' /\
           (r = Ok tt -> length l' = 2 * length items)
     end) /\
  (forall item x d' x',
     wf x ->
     copy2 (os_path_join src item) (os_path_join dst item) x = (Ok d', x') ->
     exists data m,
       Kernel.read x (os_path_join src item) = Ok (data, m) /\
       Kernel.read x' d' = Ok (data, m) /\
       (isdir x (os_path_join dst item) = false ->
        d' = os_path_join dst item)) /\
  (forall ps esT D esD x,
     tidy D (files x) ->
     resolve (files x) true src = Ok (Present ps (Dir esT)) ->
     resolve (files x) true dst = Ok (Present D (Dir esD)) ->
     ~ D `prefix_of` ps -> ~ ps `prefix_of` D ->
     Forall (fun e : string * node => Tree.entry e.1 esD = None) esT ->
     clean (Dir esT) ->
     height (Dir esT) <= S copytree_levels ->
     exists x',
       copy_tree src dst false None x = (Ok tt, x') /\
       files x' =
         with_root (files x)
           (Tree.put (root (files x)) D (Dir (esD ++ esT))) /\
       Tree.get (root (files x')) D = Some (Dir (esD ++ esT))).
Proof.
  intros Hrun. split; [|split].
  3:{ intros ps esT D esD x Ht Hsrc Hdst H1 H2 Hfresh Hclean Hh.
      destruct (copy_tree_copies src dst ps esT D esD x H1 H2 Ht Hsrc Hdst
                  Hfresh Hclean Hh) as (x' & Hx & Hfiles).
      exists x'. split; [exact Hx|]. split; [exact Hfiles|].
      rewrite Hfiles. cbn [root with_root].
      exact (get_put_at D (root (files x)) _ _
               (resolve_present _ _ _ _ _ Hdst)). }
  - revert Hrun. unfold copy_tree. unfold bind at 1. rewrite os_listdir_eq.
    destruct (listdir src (files w)) as [[items|e] s1] eqn:Hl; cbn [fst snd].
    + pose proof (listdir_files src (files w)) as Hs. rewrite Hl in Hs.
      cbn [snd] in Hs. subst s1.
      intros Hloop.
      destruct (loop_shape _ _ _ _ _ _ _ _ Hloop) as (l' & [Hlog Hrep] & Hsh).
      cbn [files log] in Hlog, Hrep.
      exists ((Listdir src, Returned (RList items)) :: l'). split.
      * split; [now rewrite Hlog, <- app_assoc|].
        apply (replay_cons _ (Listdir src) (Ok (RList items)) (files w));
          [|exact Hrep].
        rewrite run_listdir, Hl. reflexivity.
      * exists l'. split; [reflexivity|]. split; [exact Hsh|]. split.
        -- apply loop_log_calls in Hsh. eapply Forall_impl; [exact Hsh|].
           intros ev (item & [->|[->| ->]]); simpl; tauto.
        -- intros ->. clear -Hsh. remember (Ok tt) as r eqn:Hr.
           induction Hsh; try discriminate; simpl; [reflexivity|..];
             rewrite (IHHsh Hr); lia.
    + pose proof (listdir_files src (files w)) as Hs. rewrite Hl in Hs.
      cbn [snd] in Hs. subst s1.
      intros [= <- <-]. exists [(Listdir src, Raised e)]. split.
      * split; [reflexivity|]. cbn [files].
        apply (replay_one _ (Listdir src) (Raise e)).
        rewrite run_listdir, Hl. reflexivity.
      * repeat split.
  - intros item x d' x' Hwf Hc.
    destruct (copy2_ok _ _ _ _ _ Hwf Hc) as (_ & Hd' & data & m & H1 & H2 & _).
    exists data, m. split; [exact H1|]. split; [exact H2|].
    intros Hnd. now rewrite Hnd in Hd'.
Qed.

Lemma copy_tree_mirrors_witness :
  (exists w',
     copy_tree "build" "/out/dist" false None
       (Scenario.stale [x01] {| st_mode := 420; st_mtime := 7 |}
          [x00] {| st_mode := 384; st_mtime := 3 |}
          [x02] {| st_mode := 436; st_mtime := 5 |}) = (Ok tt, w') /\
     Tree.get (root (files w')) ["out"; "dist"] =
       Some (Dir [("app.js", File [x01] {| st_mode := 420; st_mtime := 7 |});
                  ("img",
                   Dir [("logo.png",
                         File [x02] {| st_mode := 436; st_mtime := 5 |})])]) /\
     exists l, logged
                 (Scenario.stale [x01] {| st_mode := 420; st_mtime := 7 |}
                    [x00] {| st_mode := 384; st_mtime := 3 |}
                    [x02] {| st_mode := 436; st_mtime := 5 |}) l w') /\
  (exists x',
     copy_tree "demos" "/out" false None
       (Scenario.start true [x01] {| st_mode := 420; st_mtime := 7 |}
          [x02] {| st_mode := 436; st_mtime := 5 |}) = (Ok tt, x') /\
     Tree.get (root (files x')) ["out"] =
       Some (Dir [("demo1",
                   Dir [("index.html",
                         File [x02] {| st_mode := 436; st_mtime := 5 |})])])).
Proof.
  split.
  - eexists. split; [vm_compute; reflexivity|]. split; [reflexivity|].
    destruct (copy_tree_mirrors "build" "/out/dist" false None
                (Scenario.stale [x01] {| st_mode := 420; st_mtime := 7 |}
                   [x00] {| st_mode := 384; st_mtime := 3 |}
                   [x02] {| st_mode := 436; st_mtime := 5 |})
                (Ok tt) _ ltac:(vm_compute; reflexivity))
      as ((l & Hl & _) & _).
    exists l. exact Hl.
  - destruct (copy_tree_mirrors "demos" "/out" false None
                (Scenario.start true [x01] {| st_mode := 420; st_mtime := 7 |}
                   [x02] {| st_mode := 436; st_mtime := 5 |})
                (Ok tt) _ ltac:(vm_compute; reflexivity))
      as (_ & _ & H).
    destruct (H ["proj"; "demos"]
                [("demo1",
                  Dir [("index.html",
                        File [x02] {| st_mode := 436; st_mtime := 5 |})])]
                ["out"] []
                (Scenario.start true [x01] {| st_mode := 420; st_mtime := 7 |}
                   [x02] {| st_mode := 436; st_mtime := 5 |}))
      as (x' & Hx & _ & Hget).
    + apply clean_tidy; [eexists; reflexivity|]. simpl. repeat split.
    + vm_compute. reflexivity.
    + vm_compute. reflexivity.
    + intros [k Hk]. discriminate.
    + intros [k Hk]. discriminate.
    + repeat constructor.
    + simpl. repeat split.
    + unfold copytree_levels. simpl. lia.
    + exists x'. split; [exact Hx|exact Hget].
Defined.

(** C7: every [shutil.copytree] that an invocation of [copy_static_files]
    calls is called with [symlinks=False] and [ignore=None], the defaults of
    [copy_tree], which [copy_directory] does not override; [copy_tree] itself
    passes on whatever [symlinks] and [ignore] it is given.  With these
    defaults an invocation makes no link: every link the file system has
    afterwards was there before, at the same place and with the same target.
    The links in the sources are followed: in the scenario with links the
    destination holds regular files and directories with the content the
    links lead to.  With [symlinks=True] given to [copy_tree], once its
    destination is made, a link inside a subdirectory is recreated as a
    link, while a link that is an entry of [src] itself is still followed. *)
Theorem symlinks_are_followed (config kwargs : gmap string pyval)
    (sd : string) (w : world) (r : result exn unit) (w' : world) :
  config !! "site_dir" = Some (PStr sd) ->
  copy_static_files config kwargs w = (r, w') ->
  (exists l,
     log w' = log w ++ l /\
     Forall (fun ev : event =>
               forall s d symlinks ignore,
                 ev.1 = Copytree s d symlinks ignore ->
                 symlinks = false /\ ignore = None) l) /\
  (wf (files w) -> no_new_links (files w) (files w')) /\
  (forall src dst symlinks ignore x rx x',
     copy_tree src dst symlinks ignore x = (rx, x') ->
     exists l,
       log x' = log x ++ l /\
       Forall (fun ev : event =>
                 forall s d symlinks0 ignore0,
                   ev.1 = Copytree s d symlinks0 ignore0 ->
                   symlinks0 = symlinks /\ ignore0 = ignore) l) /\
  (forall d1 m1 d2 m2,
     exists w1,
       copy_static_files Scenario.config kwargs
         (Scenario.with_links d1 m1 d2 m2) = (Ok tt, w1) /\
       Tree.get (root (files w1)) ["out"] =
         Some (Dir [("dist",
                     Dir [("app.js", File d1 m1);
                          ("latest.js", File d1 m1);
                          ("shared", Dir [("logo.svg", File d2 m2)])]);
                    ("demos",
                     Dir [("demo1", Dir [("lib.js", File d1 m1)])])])) /\
  (forall d1 m1 d2 m2,
     exists x1 x0 x2,
       copy_tree "demos" "/out/demos" true None
         (Scenario.with_links d1 m1 d2 m2) = (Ok tt, x1) /\
       Tree.get (root (files x1)) ["out"; "demos"] =
         Some (Dir [("demo1",
                     Dir [("lib.js", Link "../../build/app.js")])]) /\
       os_makedirs "/out/dist" true (Scenario.with_links d1 m1 d2 m2) =
         (Ok tt, x0) /\
       copy_tree "build" "/out/dist" true None x0 = (Ok tt, x2) /\
       Tree.get (root (files x2)) ["out"; "dist"] =
         Some (Dir [("app.js", File d1 m1);
                    ("latest.js", File d1 m1);
                    ("shared", Dir [("logo.svg", File d2 m2)])])).
Proof.
  intros Hsd Hrun.
  assert (Htree : forall src dst symlinks ignore x rx x',
             copy_tree src dst symlinks ignore x = (rx, x') ->
             exists l,
               log x' = log x ++ l /\
               Forall (fun ev : event =>
                         forall s d symlinks0 ignore0,
                           ev.1 = Copytree s d symlinks0 ignore0 ->
                           symlinks0 = symlinks /\ ignore0 = ignore) l).
  { intros src dst symlinks ignore x rx x' Hx.
    destruct (copy_tree_shape _ _ _ _ _ _ _ Hx) as (l & [Hl _] & Ht).
    exists l. split; [exact Hl|].
    destruct Ht as [e|items l' r' Hloop].
    - constructor; [discriminate|constructor].
    - constructor; [discriminate|].
      apply loop_log_calls in Hloop. eapply Forall_impl; [exact Hloop|].
      intros ev (item & [->|[->| ->]]) s d symlinks0 ignore0;
        try discriminate.
      now intros [= _ _ <- <-]. }
  split; [|split; [|split; [exact Htree|split]]].
  2:{ intros Hwf.
      exact (copy_static_files_no_new_links config kwargs sd w r w'
               Hsd Hwf Hrun). }
  - destruct (copy_static_files_shape _ _ _ _ _ _ Hsd Hrun)
      as (l & [Hl _] & Hh).
    exists l. split; [exact Hl|].
    assert (Hjob : forall name l0 r0,
               dir_log name sd l0 r0 ->
               Forall (fun ev : event =>
                         forall s d symlinks ignore,
                           ev.1 = Copytree s d symlinks ignore ->
                           symlinks = false /\ ignore = None) l0).
    { intros name l0 r0 Hd. apply dir_log_calls in Hd.
      eapply Forall_impl; [exact Hd|].
      intros ev [->|[->|(item & [->|[->| ->]])]] s d symlinks ignore;
        try discriminate.
      now intros [= _ _ <- <-]. }
    destruct Hh as [l0 e H|l1 l2 r0 H1 H2].
    + exact (Hjob _ _ _ H).
    + apply Forall_app. split; [exact (Hjob _ _ _ H1)|exact (Hjob _ _ _ H2)].
  - intros d1 m1 d2 m2. eexists. split; [vm_compute; reflexivity|].
    reflexivity.
  - intros d1 m1 d2 m2. eexists. eexists. eexists.
    split; [vm_compute; reflexivity|]. split; [reflexivity|].
    split; [vm_compute; reflexivity|].
    split; [vm_compute; reflexivity|]. reflexivity.
Qed.

Lemma symlinks_are_followed_witness :
  Scenario.config !! "site_dir" = Some (PStr "/out") /\
  exists l,
    log (copy_static_files Scenario.config ∅
           (Scenario.with_links [x01] {| st_mode := 420; st_mtime := 7 |}
              [x02] {| st_mode := 436; st_mtime := 5 |})).2 = [] ++ l /\
    Forall (fun ev : event =>
              forall s d symlinks ignore,
                ev.1 = Copytree s d symlinks ignore ->
                symlinks = false /\ ignore = None) l.
Proof.
  split; [vm_compute; reflexivity|].
  exact (proj1 (symlinks_are_followed Scenario.config ∅ "/out"
                  (Scenario.with_links [x01] {| st_mode := 420; st_mtime := 7 |}
                     [x02] {| st_mode := 436; st_mtime := 5 |})
                  _ _ ltac:(vm_compute; reflexivity)
                  ltac:(vm_compute; reflexivity))).
Defined.

End Claims.

(** * Further properties *)

Section Further.

Import Kernel PyLib Hooks.

(** X1: an invocation on sources without links, with a site directory that
    exists and in which [dist] and [demos] are free names, none of the
    destinations lying in a source or above it: [copy_static_files] returns,
    [dist] of the site directory is then the whole tree of [build] and
    [demos] of the site directory the whole tree of [demos], node for node
    with bytes, metadata and listing order, and the rest of the file system
    is as it was. *)
Theorem publish_mirrors_sources (config kwargs : gmap string pyval)
    (sd : string) (q : list string) (es : list (string * node))
    (pb : list string) (esB : list (string * node))
    (pd : list string) (esD : list (string * node)) (w : world) :
  config !! "site_dir" = Some (PStr sd) ->
  wf (files w) -> names_ok (root (files w)) ->
  resolve (files w) true sd = Ok (Present q (Dir es)) ->
  Tree.get (root (files w)) (q ++ ["dist"]) = None ->
  Tree.get (root (files w)) (q ++ ["demos"]) = None ->
  resolve (files w) true "build" = Ok (Present pb (Dir esB)) ->
  clean (Dir esB) -> height (Dir esB) <= S copytree_levels ->
  resolve (files w) true "demos" = Ok (Present pd (Dir esD)) ->
  clean (Dir esD) -> height (Dir esD) <= S copytree_levels ->
  ~ (q ++ ["dist"]) `prefix_of` pb -> ~ pb `prefix_of` (q ++ ["dist"]) ->
  ~ (q ++ ["dist"]) `prefix_of` pd -> ~ pd `prefix_of` (q ++ ["dist"]) ->
  ~ (q ++ ["demos"]) `prefix_of` pd -> ~ pd `prefix_of` (q ++ ["demos"]) ->
  exists w',
    copy_static_files config kwargs w = (Ok tt, w') /\
    files w' =
      with_root (files w)
        (Tree.put (Tree.put (root (files w)) (q ++ ["dist"]) (Dir esB))
           (q ++ ["demos"]) (Dir esD)).
Proof. apply copy_static_files_copies. Qed.

Lemma publish_mirrors_sources_witness :
  exists w',
    copy_static_files Scenario.config ∅
      (Scenario.start true [x01] {| st_mode := 420; st_mtime := 7 |}
         [x02] {| st_mode := 436; st_mtime := 5 |}) = (Ok tt, w') /\
    Tree.get (root (files w')) ["out"] =
      Some (Dir [("dist",
                  Dir [("app.js",
                        File [x01] {| st_mode := 420; st_mtime := 7 |})]);
                 ("demos",
                  Dir [("demo1",
                        Dir [("index.html",
                              File [x02]
                                {| st_mode := 436; st_mtime := 5 |})])])]).
Proof.
  destruct (publish_mirrors_sources Scenario.config ∅ "/out" ["out"] []
              ["proj"; "build"]
              [("app.js", File [x01] {| st_mode := 420; st_mtime := 7 |})]
              ["proj"; "demos"]
              [("demo1",
                Dir [("index.html",
                      File [x02] {| st_mode := 436; st_mtime := 5 |})])]
              (Scenario.start true [x01] {| st_mode := 420; st_mtime := 7 |}
                 [x02] {| st_mode := 436; st_mtime := 5 |}))
    as (w' & Hrun & Hfiles).
  - vm_compute. reflexivity.
  - eexists. reflexivity.
  - refine (proj1 (proj2 (clean_tidy [] _ _ _)));
      [eexists; reflexivity|simpl; repeat split].
  - vm_compute. reflexivity.
  - reflexivity.
  - reflexivity.
  - vm_compute. reflexivity.
  - simpl. repeat split.
  - unfold copytree_levels. simpl. lia.
  - vm_compute. reflexivity.
  - simpl. repeat split.
  - unfold copytree_levels. simpl. lia.
  - intros [k Hk]. discriminate.
  - intros [k Hk]. discriminate.
  - intros [k Hk]. discriminate.
  - intros [k Hk]. discriminate.
  - intros [k Hk]. discriminate.
  - intros [k Hk]. discriminate.
  - exists w'. split; [exact Hrun|]. rewrite Hfiles. reflexivity.
Defined.
(** X2: a configuration without the key [site_dir] makes
    [copy_static_files] raise [KeyError] for that key before anything is
    called: the file system and the log are as they were. *)
Theorem missing_site_dir_raises (config kwargs : gmap string pyval)
    (w : world) :
  config !! "site_dir" = None ->
  copy_static_files config kwargs w = (Raise (KeyError "site_dir"), w).
Proof.
  intros H. unfold copy_static_files, getitem. now rewrite H.
Qed.

Lemma missing_site_dir_raises_witness :
  copy_static_files {["docs_dir" := PStr "docs"]} ∅ Scenario.no_build =
  (Raise (KeyError "site_dir"), Scenario.no_build).
Proof.
  apply (missing_site_dir_raises {["docs_dir" := PStr "docs"]} ∅
           Scenario.no_build).
  vm_compute. reflexivity.
Defined.



(** X4: an invocation removes nothing, whether it returns or raises:
    whatever stood at a place of the file system before stands there
    afterwards, a directory as a directory, a regular file as a regular file
    (which may have been overwritten), a link as the same link. *)
Theorem nothing_is_removed (config kwargs : gmap string pyval) (sd : string)
    (w : world) (r : result exn unit) (w' : world) :
  config !! "site_dir" = Some (PStr sd) ->
  wf (files w) ->
  copy_static_files config kwargs w = (r, w') ->
  wf (files w') /\
  forall p n, Tree.get (root (files w)) p = Some n ->
              exists n', Tree.get (root (files w')) p = Some n' /\ kept n n'.
Proof. apply copy_static_files_nothing_lost. Qed.

Lemma nothing_is_removed_witness :
  exists n',
    Tree.get
      (root (files (copy_static_files Scenario.config ∅
                      (Scenario.stale [x01] {| st_mode := 420; st_mtime := 7 |}
                         [x00] {| st_mode := 384; st_mtime := 3 |}
                         [x02] {| st_mode := 436; st_mtime := 5 |})).2))
      ["out"; "dist"; "app.js"] = Some n' /\
    kept (File [x00] {| st_mode := 384; st_mtime := 3 |}) n'.
Proof.
  refine (proj2 (nothing_is_removed Scenario.config ∅ "/out"
                   (Scenario.stale [x01] {| st_mode := 420; st_mtime := 7 |}
                      [x00] {| st_mode := 384; st_mtime := 3 |}
                      [x02] {| st_mode := 436; st_mtime := 5 |})
                   _ _ _ _ (surjective_pairing _))
            ["out"; "dist"; "app.js"] _ _).
  - vm_compute. reflexivity.
  - eexists. reflexivity.
  - reflexivity.
Defined.

(** X5: an invocation whose site directory exists writes at or below
    [dist] and [demos] of the site directory only, whether it returns or
    raises: on a file system with plain entry names and no symbolic link at
    or below these two places, every other place that is not above them
    holds what it held. *)
Theorem writes_stay_in_destinations (config kwargs : gmap string pyval)
    (sd : string) (q : list string) (es : list (string * node)) (w : world)
    (r : result exn unit) (w' : world) :
  config !! "site_dir" = Some (PStr sd) ->
  resolve (files w) true sd = Ok (Present q (Dir es)) ->
  tidy (q ++ ["dist"]) (files w) ->
  link_free_below (q ++ ["demos"]) (root (files w)) ->
  copy_static_files config kwargs w = (r, w') ->
  forall p,
    ~ (q ++ ["dist"]) `prefix_of` p -> ~ p `prefix_of` (q ++ ["dist"]) ->
    ~ (q ++ ["demos"]) `prefix_of` p -> ~ p `prefix_of` (q ++ ["demos"]) ->
    Tree.get (root (files w')) p = Tree.get (root (files w)) p.
Proof. apply copy_static_files_frame. Qed.

Lemma writes_stay_in_destinations_witness :
  Tree.get
    (root (files (copy_static_files Scenario.config ∅
                    (Scenario.stale [x01] {| st_mode := 420; st_mtime := 7 |}
                       [x00] {| st_mode := 384; st_mtime := 3 |}
                       [x02] {| st_mode := 436; st_mtime := 5 |})).2))
    ["proj"] =
  Some (Dir [("build",
              Dir [("app.js", File [x01] {| st_mode := 420; st_mtime := 7 |});
                   ("img",
                    Dir [("logo.png",
                          File [x02] {| st_mode := 436; st_mtime := 5 |})])])]).
Proof.
  refine (eq_trans
            (writes_stay_in_destinations Scenario.config ∅ "/out" ["out"]
               [("dist",
                 Dir [("app.js",
                       File [x00] {| st_mode := 384; st_mtime := 3 |})])]
               (Scenario.stale [x01] {| st_mode := 420; st_mtime := 7 |}
                  [x00] {| st_mode := 384; st_mtime := 3 |}
                  [x02] {| st_mode := 436; st_mtime := 5 |})
               _ _ _ _ _ _ (surjective_pairing _) ["proj"] _ _ _ _) _).
  - vm_compute. reflexivity.
  - vm_compute. reflexivity.
  - apply clean_tidy; [eexists; reflexivity|simpl; repeat split].
  - refine (proj2 (proj2 (clean_tidy _ _ _ _)));
      [eexists; reflexivity|simpl; repeat split].
  - intros [k Hk]. discriminate.
  - intros [k Hk]. destruct k; discriminate.
  - intros [k Hk]. discriminate.
  - intros [k Hk]. destruct k; discriminate.
  - reflexivity.
Defined.

(** X6: an invocation raises when [build] has a subdirectory that [dist]
    of the site directory already holds as a directory, or [demos] has one
    that [demos] of the site directory holds: [shutil.copytree] is called
    without [dirs_exist_ok] and refuses the destination. *)
Theorem existing_subdirectory_stops (config kwargs : gmap string pyval)
    (sd c : string) (w : world) (r : result exn unit) (w' : world) :
  config !! "site_dir" = Some (PStr sd) ->
  wf (files w) ->
  plain_name c = true ->
  (isdir (files w) (Path.join "build" c) = true /\
   isdir (files w) (Path.join (Path.join sd "dist") c) = true) \/
  (isdir (files w) (Path.join "demos" c) = true /\
   isdir (files w) (Path.join (Path.join sd "demos") c) = true) ->
  copy_static_files config kwargs w = (r, w') ->
  exists e, r = Raise e.
Proof. apply copy_static_files_existing. Qed.

Lemma existing_subdirectory_stops_witness :
  exists e,
    (copy_static_files Scenario.config ∅
       (copy_static_files Scenario.config ∅
          (Scenario.start true [x01] {| st_mode := 420; st_mtime := 7 |}
             [x02] {| st_mode := 436; st_mtime := 5 |})).2).1 = Raise e.
Proof.
  refine (existing_subdirectory_stops Scenario.config ∅ "/out" "demo1"
            (copy_static_files Scenario.config ∅
               (Scenario.start true [x01] {| st_mode := 420; st_mtime := 7 |}
                  [x02] {| st_mode := 436; st_mtime := 5 |})).2
            _ _ _ _ _ _ (surjective_pairing _)).
  - vm_compute. reflexivity.
  - eexists. vm_compute. reflexivity.
  - reflexivity.
  - right. split; vm_compute; reflexivity.
Defined.

(** X7: after an invocation on sources without links and a site directory
    in which [dist] and [demos] were free names, an invocation on the world
    it left raises as soon as [build] or [demos] has a subdirectory: the
    first invocation returns, the second one does not. *)
Theorem second_run_raises (config kwargs : gmap string pyval)
    (sd : string) (q : list string) (es : list (string * node))
    (pb : list string) (esB : list (string * node))
    (pd : list string) (esD : list (string * node))
    (c : string) (esc : list (string * node)) (w : world) :
  config !! "site_dir" = Some (PStr sd) ->
  wf (files w) -> names_ok (root (files w)) ->
  resolve (files w) true sd = Ok (Present q (Dir es)) ->
  Tree.get (root (files w)) (q ++ ["dist"]) = None ->
  Tree.get (root (files w)) (q ++ ["demos"]) = None ->
  resolve (files w) true "build" = Ok (Present pb (Dir esB)) ->
  clean (Dir esB) -> height (Dir esB) <= S copytree_levels ->
  resolve (files w) true "demos" = Ok (Present pd (Dir esD)) ->
  clean (Dir esD) -> height (Dir esD) <= S copytree_levels ->
  ~ (q ++ ["dist"]) `prefix_of` pb -> ~ pb `prefix_of` (q ++ ["dist"]) ->
  ~ (q ++ ["dist"]) `prefix_of` pd -> ~ pd `prefix_of` (q ++ ["dist"]) ->
  ~ (q ++ ["demos"]) `prefix_of` pd -> ~ pd `prefix_of` (q ++ ["demos"]) ->
  Tree.entry c esB = Some (Dir esc) \/ Tree.entry c esD = Some (Dir esc) ->
  exists w1 e w2,
    copy_static_files config kwargs w = (Ok tt, w1) /\
    copy_static_files config kwargs w1 = (Raise e, w2).
Proof. apply copy_static_files_twice. Qed.

Lemma second_run_raises_witness :
  exists w1 e w2,
    copy_static_files Scenario.config ∅
      (Scenario.start true [x01] {| st_mode := 420; st_mtime := 7 |}
         [x02] {| st_mode := 436; st_mtime := 5 |}) = (Ok tt, w1) /\
    copy_static_files Scenario.config ∅ w1 = (Raise e, w2).
Proof.
  refine (second_run_raises Scenario.config ∅ "/out" ["out"] []
            ["proj"; "build"]
            [("app.js", File [x01] {| st_mode := 420; st_mtime := 7 |})]
            ["proj"; "demos"]
            [("demo1",
              Dir [("index.html",
                    File [x02] {| st_mode := 436; st_mtime := 5 |})])]
            "demo1"
            [("index.html", File [x02] {| st_mode := 436; st_mtime := 5 |})]
            (Scenario.start true [x01] {| st_mode := 420; st_mtime := 7 |}
               [x02] {| st_mode := 436; st_mtime := 5 |})
            _ _ _ _ _ _ _ _ _ _ _ _ _ _ _ _ _ _ _).
  - vm_compute. reflexivity.
  - eexists. reflexivity.
  - refine (proj1 (proj2 (clean_tidy [] _ _ _)));
      [eexists; reflexivity|simpl; repeat split].
  - vm_compute. reflexivity.
  - reflexivity.
  - reflexivity.
  - vm_compute. reflexivity.
  - simpl. repeat split.
  - unfold copytree_levels. simpl. lia.
  - vm_compute. reflexivity.
  - simpl. repeat split.
  - unfold copytree_levels. simpl. lia.
  - intros [k Hk]. discriminate.
  - intros [k Hk]. discriminate.
  - intros [k Hk]. discriminate.
  - intros [k Hk]. discriminate.
  - intros [k Hk]. discriminate.
  - intros [k Hk]. discriminate.
  - right. reflexivity.
Defined.

(** X8: a copy job whose destination is a regular file (or a link to one)
    raises [FileExistsError] for the destination from [os.makedirs]:
    [exist_ok] lets an existing directory pass, nothing else.  Nothing is
    listed or copied and the file system is as it was. *)
Theorem destination_is_a_file (dir_path sd : string) (p : list string)
    (d : list byte) (m : meta) (w : world) :
  plain_name dir_path = true ->
  wf (files w) ->
  resolve (files w) true (Path.join sd dir_path) = Ok (Present p (File d m)) ->
  copy_directory dir_path (PStr sd) w =
  (Raise (FileExistsError (Path.join sd dir_path)),
   {| files := files w;
      log := log w ++
             [(Makedirs (Path.join sd dir_path) true,
               Raised (FileExistsError (Path.join sd dir_path)))] |}).
Proof.
  intros Hb Hwf Hres. unfold copy_directory. cbn [os_path_join_val].
  unfold bind at 1. unfold ret at 1. unfold bind at 1.
  rewrite os_makedirs_eq.
  rewrite (makedirs_on_file (Path.join sd dir_path) (files w) p d m Hwf);
    [reflexivity| |exact Hres].
  rewrite (proj1 (split_join sd dir_path Hb)).
  exact (proj1 (plain_name_inv dir_path Hb)).
Qed.

Lemma destination_is_a_file_witness :
  copy_directory "dist" (PStr "/out")
    (Cases.dist_is_file [x01] {| st_mode := 420; st_mtime := 7 |}) =
  (Raise (FileExistsError "/out/dist"),
   {| files := files (Cases.dist_is_file [x01]
                        {| st_mode := 420; st_mtime := 7 |});
      log := [(Makedirs "/out/dist" true,
               Raised (FileExistsError "/out/dist"))] |}).
Proof.
  apply (destination_is_a_file "dist" "/out" ["out"; "dist"] [x01]
           {| st_mode := 420; st_mtime := 7 |}
           (Cases.dist_is_file [x01] {| st_mode := 420; st_mtime := 7 |})).
  - reflexivity.
  - eexists. reflexivity.
  - vm_compute. reflexivity.
Defined.

(** X9: a copy job whose site directory is a regular file (or a link to
    one) raises [NotADirectoryError] for its destination from
    [os.makedirs].  Nothing is listed or copied and the file system is as it
    was. *)
Theorem site_dir_is_a_file (dir_path sd : string) (q : list string)
    (d : list byte) (m : meta) (w : world) :
  plain_name dir_path = true ->
  wf (files w) ->
  resolve (files w) true sd = Ok (Present q (File d m)) ->
  copy_directory dir_path (PStr sd) w =
  (Raise (NotADirectoryError (Path.join sd dir_path)),
   {| files := files w;
      log := log w ++
             [(Makedirs (Path.join sd dir_path) true,
               Raised (NotADirectoryError (Path.join sd dir_path)))] |}).
Proof.
  intros Hb Hwf Hres. unfold copy_directory. cbn [os_path_join_val].
  unfold bind at 1. unfold ret at 1. unfold bind at 1.
  rewrite os_makedirs_eq.
  now rewrite (makedirs_in_file sd dir_path (files w) q d m Hwf Hb Hres).
Qed.

Lemma site_dir_is_a_file_witness :
  copy_directory "dist" (PStr "/out")
    (Cases.site_is_file [x01] {| st_mode := 420; st_mtime := 7 |}) =
  (Raise (NotADirectoryError "/out/dist"),
   {| files := files (Cases.site_is_file [x01]
                        {| st_mode := 420; st_mtime := 7 |});
      log := [(Makedirs "/out/dist" true,
               Raised (NotADirectoryError "/out/dist"))] |}).
Proof.
  apply (site_dir_is_a_file "dist" "/out" ["out"] [x01]
           {| st_mode := 420; st_mtime := 7 |}
           (Cases.site_is_file [x01] {| st_mode := 420; st_mtime := 7 |})).
  - reflexivity.
  - eexists. reflexivity.
  - vm_compute. reflexivity.
Defined.

(** X10: [symlinks] and [ignore] of [copy_tree] reach [shutil.copytree]
    and nothing else: a run of [copy_tree] that never calls
    [shutil.copytree] gives the same result and the same world with any
    other [symlinks] and [ignore].  In particular [ignore] never leaves out
    an entry of [src] itself. *)
Theorem parameters_reach_copytree_only (src dst : string)
    (symlinks : bool) (ignore : option ignore_fn)
    (symlinks' : bool) (ignore' : option ignore_fn)
    (w : world) (r : result exn unit) (w' : world) :
  copy_tree src dst symlinks ignore w = (r, w') ->
  (forall l, log w' = log w ++ l ->
             Forall (fun ev : event => ~ is_copytree ev.1) l) ->
  copy_tree src dst symlinks' ignore' w = (r, w').
Proof. apply copy_tree_params. Qed.

Lemma parameters_reach_copytree_only_witness :
  copy_tree "build" "/out" true (Some (fun _ names => names))
    (Cases.flat [x01] {| st_mode := 420; st_mtime := 7 |}
       [x02] {| st_mode := 436; st_mtime := 5 |}) =
  copy_tree "build" "/out" false None
    (Cases.flat [x01] {| st_mode := 420; st_mtime := 7 |}
       [x02] {| st_mode := 436; st_mtime := 5 |}).
Proof.
  rewrite (surjective_pairing
             (copy_tree "build" "/out" false None
                (Cases.flat [x01] {| st_mode := 420; st_mtime := 7 |}
                   [x02] {| st_mode := 436; st_mtime := 5 |}))).
  apply (parameters_reach_copytree_only "build" "/out" false None true
           (Some (fun _ names => names))).
  - apply surjective_pairing.
  - intros l Hl. vm_compute in Hl. subst l.
    repeat constructor; intros [].
Defined.







(** X14: the [os.makedirs] of a copy job makes every missing directory on
    the way: when the site directory is [base/n1/.../nk] and [n1] is a free
    name in the existing directory [base], the call returns, the site
    directory and all directories above it up to [n1] are directories
    afterwards, the destination is an empty directory, paths that led to a
    directory still do, and nothing outside [n1] of [base] is changed.
    [copy_directory] then goes on with [copy_tree]. *)
Theorem nested_site_dir_is_made (base : string) (q : list string)
    (es : list (string * node)) (n1 : string) (ns0 : list string)
    (dir_path : string) (w : world) :
  wf (files w) ->
  resolve (files w) true base = Ok (Present q (Dir es)) ->
  plain_name n1 = true ->
  Forall (fun n => plain_name n = true) ns0 ->
  plain_name dir_path = true ->
  Tree.get (root (files w)) (q ++ [n1]) = None ->
  exists w1,
    os_makedirs (Path.join (joins base (n1 :: ns0)) dir_path) true w =
      (Ok tt, w1) /\
    copy_directory dir_path (PStr (joins base (n1 :: ns0))) w =
      copy_tree (if negb (String.eqb dir_path "dist") then dir_path
                 else "build")
        (Path.join (joins base (n1 :: ns0)) dir_path) false None w1 /\
    wf (files w1) /\
    resolve (files w1) true (Path.join (joins base (n1 :: ns0)) dir_path) =
      Ok (Present (q ++ n1 :: ns0 ++ [dir_path]) (Dir [])) /\
    isdir (files w1) (joins base (n1 :: ns0)) = true /\
    keeps_dirs (files w) (files w1) /\
    (forall p,
       ~ p `prefix_of` (q ++ n1 :: ns0 ++ [dir_path]) ->
       ~ (q ++ [n1]) `prefix_of` p ->
       Tree.get (root (files w1)) p = Tree.get (root (files w)) p).
Proof.
  intros Hwf Hq Hn1 Hns Hd Hfree.
  destruct (makedirs_nested base q es n1 ns0 dir_path (files w) Hwf Hq Hn1
              Hns Hd Hfree) as (s1 & Hmk & Hwf1 & Hres & Hsd & Hk & Hout).
  eexists. split; [|split].
  - rewrite os_makedirs_eq, Hmk. reflexivity.
  - unfold copy_directory. cbn [os_path_join_val].
    unfold bind at 1. unfold ret at 1. unfold bind at 1.
    rewrite os_makedirs_eq, Hmk. reflexivity.
  - cbn [files]. repeat split; assumption.
Qed.

Lemma nested_site_dir_is_made_witness :
  exists w1,
    os_makedirs "/out/site/dist" true
      (Scenario.start false [x01] {| st_mode := 420; st_mtime := 7 |}
         [x02] {| st_mode := 436; st_mtime := 5 |}) = (Ok tt, w1) /\
    isdir (files w1) "/out/site" = true /\
    Tree.get (root (files w1)) ["out"] =
      Some (Dir [("site", Dir [("dist", Dir [])])]).
Proof.
  destruct (nested_site_dir_is_made "/" []
              [("proj",
                Scenario.project [x01] {| st_mode := 420; st_mtime := 7 |}
                  [x02] {| st_mode := 436; st_mtime := 5 |})]
              "out" ["site"] "dist"
              (Scenario.start false [x01] {| st_mode := 420; st_mtime := 7 |}
                 [x02] {| st_mode := 436; st_mtime := 5 |}))
    as (w1 & Hmk & _ & _ & _ & Hsd & _).
  - eexists. reflexivity.
  - vm_compute. reflexivity.
  - reflexivity.
  - repeat constructor.
  - reflexivity.
  - reflexivity.
  - exists w1. split; [exact Hmk|]. split; [exact Hsd|].
    change (os_makedirs
              (Path.join (joins "/" ["out"; "site"]) "dist") true
              (Scenario.start false [x01] {| st_mode := 420; st_mtime := 7 |}
                 [x02] {| st_mode := 436; st_mtime := 5 |}) = (Ok tt, w1))
      in Hmk.
    vm_compute in Hmk. injection Hmk as <-. reflexivity.
Defined.

(** X15: a regular file of the source whose name is a directory in the
    destination is no error: [shutil.copy2] puts the file into that
    directory, under its own name, so [copy_tree] of a source holding the
    file [c] leaves it at [dst/c/c]. *)
Theorem file_lands_in_directory (src dst : string) (ps D : list string)
    (es1 : list (string * node)) (c : string) (data : list byte) (m : meta)
    (esc : list (string * node)) (w : world) :
  wf (files w) ->
  resolve (files w) true src = Ok (Present ps (Dir [(c, File data m)])) ->
  resolve (files w) true dst = Ok (Present D (Dir es1)) ->
  plain_name c = true ->
  Tree.entry c es1 = Some (Dir esc) ->
  Tree.entry c esc = None ->
  exists w',
    copy_tree src dst false None w = (Ok tt, w') /\
    files w' =
      with_root (files w)
        (Tree.put (root (files w)) (D ++ [c; c]) (File data m)) /\
    Tree.get (root (files w')) (D ++ [c; c]) = Some (File data m).
Proof. apply copy_tree_into_dir. Qed.

Lemma file_lands_in_directory_witness :
  exists w',
    copy_tree "build" "/out/dist" false None
      (Cases.name_clash [x01] {| st_mode := 420; st_mtime := 7 |}) =
      (Ok tt, w') /\
    Tree.get (root (files w')) ["out"; "dist"; "app.js"; "app.js"] =
      Some (File [x01] {| st_mode := 420; st_mtime := 7 |}).
Proof.
  destruct (file_lands_in_directory "build" "/out/dist" ["proj"; "build"]
              ["out"; "dist"] [("app.js", Dir [])] "app.js" [x01]
              {| st_mode := 420; st_mtime := 7 |} []
              (Cases.name_clash [x01] {| st_mode := 420; st_mtime := 7 |}))
    as (w' & Hrun & _ & Hget).
  - eexists. reflexivity.
  - vm_compute. reflexivity.
  - vm_compute. reflexivity.
  - reflexivity.
  - reflexivity.
  - reflexivity.
  - exists w'. split; [exact Hrun|exact Hget].
Defined.

(** X16: an item of the source for which [stat] fails, as a symbolic link
    that leads nowhere, stops [copy_tree]: [os.path.isdir] answers no,
    [shutil.copy2] raises the error of the source path, and when the item is
    the first one listed nothing has been written and no later item is
    reached. *)
Theorem unresolved_item_stops (src dst : string) (symlinks : bool)
    (ignore : option ignore_fn) (c : string) (rest : list string)
    (e : errno) (w : world) :
  (listdir src (files w)).1 = Ok (c :: rest) ->
  Kernel.stat (files w) (Path.join src c) = Raise e ->
  copy_tree src dst symlinks ignore w =
  (Raise (OSError e (Path.join src c)),
   {| files := files w;
      log := log w ++
             [(Listdir src, Returned (RList (c :: rest)));
              (Isdir (Path.join src c), Returned (RBool false));
              (Copy2 (Path.join src c) (Path.join dst c),
               Raised (OSError e (Path.join src c)))] |}).
Proof. apply copy_tree_unresolved. Qed.

Lemma unresolved_item_stops_witness :
  copy_tree "build" "/out" false None
    (Cases.dangling [x01] {| st_mode := 420; st_mtime := 7 |}) =
  (Raise (FileNotFoundError "build/old.js"),
   {| files := files (Cases.dangling [x01]
                        {| st_mode := 420; st_mtime := 7 |});
      log := [(Listdir "build", Returned (RList ["old.js"; "app.js"]));
              (Isdir "build/old.js", Returned (RBool false));
              (Copy2 "build/old.js" "/out/old.js",
               Raised (FileNotFoundError "build/old.js"))] |}).
Proof.
  apply (unresolved_item_stops "build" "/out" false None "old.js" ["app.js"]
           ENOENT
           (Cases.dangling [x01] {| st_mode := 420; st_mtime := 7 |})).
  - vm_compute. reflexivity.
  - vm_compute. reflexivity.
Defined.

End Further.
